(** * dhis2-alma: the schedule lifecycle and execution engine

    A shallow embedding of [src/schedule.ts], [src/utils.ts] (both
    variants of the job body [queryDHIS2]) and [src/index.ts] (the request
    handlers for creating, listing, reading, editing, starting, stopping
    and deleting schedules and for subscribing to their progress, and
    [initializeSystem]).

    - The SQLite store is a pair of tables (lists of rows, in rowid order);
      every SQL text of the source is one constructor of [Sql], and [exec]
      gives its effect on the tables.
    - JavaScript code that mutates the store, the two module-level maps
      ([runningJobs], [progressSubscribers]) and talks to the outside is
      written in a state-and-exception monad [M] over [World]: a thrown
      exception keeps the state changes made before it, as in JavaScript.
    - What the program cannot decide itself is read from the world:
      whether a [db.run] throws ([faults]), what [crypto.randomUUID] and
      [new Date] return ([entropy], [wallclock]), and what the DHIS2 and
      ALMA servers answer ([Remote]).
    - node-cron, cron-parser and [initializeDatabase] of [./db] are
      imported, not part of the sources: they are the fields of [Imports].
    - The numbers of the progress formulas are IEEE 754 binary64 values,
      as JavaScript numbers are: Stdlib's reference semantics [SpecFloat]
      at precision 53 and maximal exponent 1024. *)

From Stdlib Require Import ZArith Ascii String List Lia.
From Stdlib Require SpecFloat.
From stdpp Require Import base option list strings gmap pretty.

Local Open Scope string_scope.
Local Open Scope list_scope.
Local Open Scope Z_scope.

(** ** Data model *)

Inductive Status := idle | running | completed | failed.

#[global] Instance Status_eq_dec : EqDecision Status.
Proof. solve_decision. Defined.

(** The [Schedule] interface ([./interfaces] is not among the sources: the
    fields are those [scheduleFromRow] copies, and the [message] column the
    statements write); the same shape serves for a row of the [schedules]
    table and for the object built by [scheduleFromRow].  Instants (ISO
    strings and [Date]s in the source) are integers.  The [isActive]
    column only ever holds 0 or 1. *)
Record Schedule := mkSchedule {
  id : string;
  name : string;
  cronExpression : string;
  isActive : bool;
  task : string;
  createdAt : Z;
  updatedAt : Z;
  lastRun : option Z;
  progress : Z;
  status : Status;
  lastStatus : option Status;
  currentJobId : option string;
  nextRun : option Z;
  maxRetries : Z;
  retryDelay : Z;
  retryAttempts : Z;
  includeChildren : bool;
  pe : string;
  ou : string;
  scorecard : Z;
  message : option string
}.

(** A row of [job_executions]. *)
Record Execution := mkExecution {
  ex_id : string;
  ex_scheduleId : string;
  ex_startTime : Z;
  ex_endTime : option Z;
  ex_status : Status
}.

(** [ProgressUpdate]; a subscriber receives its serialisation
    [data: <JSON>\n\n]. *)
Record ProgressUpdate := mkProgressUpdate {
  pu_scheduleId : string;
  pu_progress : Z;
  pu_status : Status;
  pu_message : option string;
  pu_timestamp : Z
}.

(** An organisation unit as DHIS2 returns it. *)
Record OrgUnit := mkOrgUnit {
  ou_id : string;
  ou_name : string;
  ou_level : Z;
  organisationUnitGroups : list string
}.

(** Field updates of a schedule row, one per column the source writes. *)
Definition set_isActive (v : bool) (r : Schedule) : Schedule :=
  mkSchedule (id r) (name r) (cronExpression r) v (task r) (createdAt r)
    (updatedAt r) (lastRun r) (progress r) (status r) (lastStatus r)
    (currentJobId r) (nextRun r) (maxRetries r) (retryDelay r)
    (retryAttempts r) (includeChildren r) (pe r) (ou r) (scorecard r)
    (message r).

Definition set_updatedAt (v : Z) (r : Schedule) : Schedule :=
  mkSchedule (id r) (name r) (cronExpression r) (isActive r) (task r)
    (createdAt r) v (lastRun r) (progress r) (status r) (lastStatus r)
    (currentJobId r) (nextRun r) (maxRetries r) (retryDelay r)
    (retryAttempts r) (includeChildren r) (pe r) (ou r) (scorecard r)
    (message r).

Definition set_lastRun (v : option Z) (r : Schedule) : Schedule :=
  mkSchedule (id r) (name r) (cronExpression r) (isActive r) (task r)
    (createdAt r) (updatedAt r) v (progress r) (status r) (lastStatus r)
    (currentJobId r) (nextRun r) (maxRetries r) (retryDelay r)
    (retryAttempts r) (includeChildren r) (pe r) (ou r) (scorecard r)
    (message r).

Definition set_progress (v : Z) (r : Schedule) : Schedule :=
  mkSchedule (id r) (name r) (cronExpression r) (isActive r) (task r)
    (createdAt r) (updatedAt r) (lastRun r) v (status r) (lastStatus r)
    (currentJobId r) (nextRun r) (maxRetries r) (retryDelay r)
    (retryAttempts r) (includeChildren r) (pe r) (ou r) (scorecard r)
    (message r).

Definition set_status (v : Status) (r : Schedule) : Schedule :=
  mkSchedule (id r) (name r) (cronExpression r) (isActive r) (task r)
    (createdAt r) (updatedAt r) (lastRun r) (progress r) v (lastStatus r)
    (currentJobId r) (nextRun r) (maxRetries r) (retryDelay r)
    (retryAttempts r) (includeChildren r) (pe r) (ou r) (scorecard r)
    (message r).

Definition set_lastStatus (v : option Status) (r : Schedule) : Schedule :=
  mkSchedule (id r) (name r) (cronExpression r) (isActive r) (task r)
    (createdAt r) (updatedAt r) (lastRun r) (progress r) (status r) v
    (currentJobId r) (nextRun r) (maxRetries r) (retryDelay r)
    (retryAttempts r) (includeChildren r) (pe r) (ou r) (scorecard r)
    (message r).

Definition set_currentJobId (v : option string) (r : Schedule) : Schedule :=
  mkSchedule (id r) (name r) (cronExpression r) (isActive r) (task r)
    (createdAt r) (updatedAt r) (lastRun r) (progress r) (status r)
    (lastStatus r) v (nextRun r) (maxRetries r) (retryDelay r)
    (retryAttempts r) (includeChildren r) (pe r) (ou r) (scorecard r)
    (message r).

Definition set_message (v : option string) (r : Schedule) : Schedule :=
  mkSchedule (id r) (name r) (cronExpression r) (isActive r) (task r)
    (createdAt r) (updatedAt r) (lastRun r) (progress r) (status r)
    (lastStatus r) (currentJobId r) (nextRun r) (maxRetries r) (retryDelay r)
    (retryAttempts r) (includeChildren r) (pe r) (ou r) (scorecard r) v.

(** ** The store *)

Record Db := mkDb {
  schedules : list Schedule;
  job_executions : list Execution
}.

(** The SQL statements [db.run] is given, with their bound parameters in
    the order of the source. *)
Inductive Sql :=
  (* UPDATE schedules SET status = 'failed', progress = ?, updatedAt = ?,
     lastRun = ? WHERE id = ?                          (cleanupRunningJobs) *)
  | SqlInterrupt (p : Z) (updated : Z) (last : Z) (i : string)
  (* INSERT INTO job_executions (id, scheduleId, startTime, status) *)
  | SqlInsertExecution (jobId : string) (i : string) (start : Z) (st : Status)
  (* UPDATE schedules SET currentJobId = ?, status = 'running', progress = 0,
     message = 'Task started' WHERE id = ? *)
  | SqlTaskStarted (jobId : string) (i : string)
  (* UPDATE schedules SET message = ? WHERE id = ? *)
  | SqlMessage (msg : string) (i : string)
  (* UPDATE schedules SET progress = ?, message = ? WHERE id = ? *)
  | SqlProgress (p : Z) (msg : string) (i : string)
  (* UPDATE job_executions SET endTime = ?, status = ? WHERE id = ? *)
  | SqlSealExecution (finish : Z) (st : Status) (jobId : string)
  (* UPDATE schedules SET currentJobId = NULL, lastStatus = 'completed',
     status = 'completed', progress = 100, lastRun = ?,
     message = 'Task completed successfully' WHERE id = ? *)
  | SqlTaskCompleted (finish : Z) (i : string)
  (* INSERT INTO schedules (...) VALUES (?, ?, ?, ?, ?, ?, 0, 0, 'idle', ...) *)
  | SqlInsertSchedule (row : Schedule)
  (* UPDATE schedules SET isActive = 1, updatedAt = ?, status = 'idle',
     progress = 0 WHERE id = ?                      (POST /schedules/:id/start) *)
  | SqlActivate (updated : Z) (i : string).

(** [UPDATE schedules SET ... WHERE id = ?]: every row with that id. *)
Definition update_where (i : string) (f : Schedule → Schedule)
    (rows : list Schedule) : list Schedule :=
  map (λ r, if decide (id r = i) then f r else r) rows.

Definition update_execution_where (j : string) (f : Execution → Execution)
    (rows : list Execution) : list Execution :=
  map (λ e, if decide (ex_id e = j) then f e else e) rows.

Definition interrupt_row (p updated last : Z) (r : Schedule) : Schedule :=
  set_lastRun (Some last) (set_updatedAt updated (set_progress p (set_status failed r))).

Definition task_started_row (jobId : string) (r : Schedule) : Schedule :=
  set_message (Some "Task started")
    (set_progress 0 (set_status running (set_currentJobId (Some jobId) r))).

Definition progress_row (p : Z) (msg : string) (r : Schedule) : Schedule :=
  set_message (Some msg) (set_progress p r).

Definition task_completed_row (finish : Z) (r : Schedule) : Schedule :=
  set_message (Some "Task completed successfully")
    (set_lastRun (Some finish)
      (set_progress 100
        (set_status completed
          (set_lastStatus (Some completed) (set_currentJobId None r))))).

Definition activate_row (updated : Z) (r : Schedule) : Schedule :=
  set_progress 0 (set_status idle (set_updatedAt updated (set_isActive true r))).

Definition seal_row (finish : Z) (st : Status) (e : Execution) : Execution :=
  mkExecution (ex_id e) (ex_scheduleId e) (ex_startTime e) (Some finish) st.

Definition exec (s : Sql) (d : Db) : Db :=
  match s with
  | SqlInterrupt p updated last i =>
      mkDb (update_where i (interrupt_row p updated last) (schedules d))
           (job_executions d)
  | SqlInsertExecution jobId i start st =>
      mkDb (schedules d)
           (job_executions d ++ [mkExecution jobId i start None st])
  | SqlTaskStarted jobId i =>
      mkDb (update_where i (task_started_row jobId) (schedules d))
           (job_executions d)
  | SqlMessage msg i =>
      mkDb (update_where i (set_message (Some msg)) (schedules d))
           (job_executions d)
  | SqlProgress p msg i =>
      mkDb (update_where i (progress_row p msg) (schedules d))
           (job_executions d)
  | SqlSealExecution finish st jobId =>
      mkDb (schedules d)
           (update_execution_where jobId (seal_row finish st) (job_executions d))
  | SqlTaskCompleted finish i =>
      mkDb (update_where i (task_completed_row finish) (schedules d))
           (job_executions d)
  | SqlInsertSchedule row =>
      mkDb (schedules d ++ [row]) (job_executions d)
  | SqlActivate updated i =>
      mkDb (update_where i (activate_row updated) (schedules d))
           (job_executions d)
  end.

(** [db.query("SELECT * FROM schedules WHERE id = ?").get(id)] *)
Definition select_by_id (i : string) (d : Db) : option Schedule :=
  List.find (λ r, bool_decide (id r = i)) (schedules d).

(** [db.query("SELECT * FROM schedules WHERE status = ?").all(st)] *)
Definition select_by_status (st : Status) (d : Db) : list Schedule :=
  List.filter (λ r, bool_decide (status r = st)) (schedules d).

(** [db.query("SELECT * FROM schedules WHERE isActive = 1").all(null)] *)
Definition select_active (d : Db) : list Schedule :=
  List.filter isActive (schedules d).

(** ** The process state *)

(** A node-cron task: the schedule object its callback closed over, and
    whether it is started.  Every timer of the program runs the same job
    body, so the body is given to [fire] rather than stored here. *)
Record Task := mkTask {
  task_schedule : Schedule;
  task_started : bool
}.

Record World := mkWorld {
  db : Db;
  (* the statements that were run, oldest first *)
  journal : list Sql;
  (* whether the coming db.run calls throw (true); none throws once the
     plan is used up *)
  faults : list bool;
  (* crypto.randomUUID(): the k-th draw *)
  entropy : nat → string;
  drawn : nat;
  (* new Date(): the k-th reading *)
  wallclock : nat → Z;
  readings : nat;
  (* const runningJobs: Map<string, cron.ScheduledTask>; a task is named
     by its position in [tasks], the tasks created so far *)
  runningJobs : gmap string nat;
  tasks : list Task;
  (* const progressSubscribers: Map<string, Set<(data: string) => void>>,
     a set in insertion order; [delivered] is what the subscribers were
     called with *)
  progressSubscribers : gmap string (list nat);
  delivered : list (nat * ProgressUpdate)
}.

Definition with_db (d : Db) (j : list Sql) (f : list bool) (w : World) : World :=
  mkWorld d j f (entropy w) (drawn w) (wallclock w) (readings w)
    (runningJobs w) (tasks w) (progressSubscribers w) (delivered w).

Definition with_drawn (n : nat) (w : World) : World :=
  mkWorld (db w) (journal w) (faults w) (entropy w) n (wallclock w)
    (readings w) (runningJobs w) (tasks w) (progressSubscribers w)
    (delivered w).

Definition with_readings (n : nat) (w : World) : World :=
  mkWorld (db w) (journal w) (faults w) (entropy w) (drawn w) (wallclock w)
    n (runningJobs w) (tasks w) (progressSubscribers w) (delivered w).

Definition with_timers (reg : gmap string nat) (ts : list Task) (w : World) : World :=
  mkWorld (db w) (journal w) (faults w) (entropy w) (drawn w) (wallclock w)
    (readings w) reg ts (progressSubscribers w) (delivered w).

Definition with_delivered (out : list (nat * ProgressUpdate)) (w : World) : World :=
  mkWorld (db w) (journal w) (faults w) (entropy w) (drawn w) (wallclock w)
    (readings w) (runningJobs w) (tasks w) (progressSubscribers w) out.

(** ** The monad of the JavaScript code *)

Inductive outcome (A : Type) :=
  | Ret (a : A)
  | Throw (e : string).
Arguments Ret {A} a.
Arguments Throw {A} e.

Definition M (A : Type) : Type := World → outcome A * World.

Definition ret {A} (a : A) : M A := λ w, (Ret a, w).

Definition throw {A} (e : string) : M A := λ w, (Throw e, w).

Definition bind {A B} (m : M A) (k : A → M B) : M B :=
  λ w, match m w with
       | (Ret a, w') => k a w'
       | (Throw e, w') => (Throw e, w')
       end.

(** [try { m } catch (error) { h error }] *)
Definition try_catch {A} (m : M A) (h : string → M A) : M A :=
  λ w, match m w with
       | (Ret a, w') => (Ret a, w')
       | (Throw e, w') => h e w'
       end.

Declare Scope js_scope.
Delimit Scope js_scope with js.
Notation "x <- m ;; k" := (bind m (λ x, k))
  (at level 100, m at next level, right associativity) : js_scope.
Notation "m ;; k" := (bind m (λ _, k))
  (at level 100, right associativity) : js_scope.
Local Open Scope js_scope.

(** [console.log] and [console.error] leave the state alone. *)
Definition console_log : M unit := ret tt.

(** [db.run(sql, params)] *)
Definition db_run (s : Sql) : M unit :=
  λ w, match faults w with
       | true :: plan => (Throw "SQLiteError", with_db (db w) (journal w) plan w)
       | _ => (Ret tt, with_db (exec s (db w)) (journal w ++ [s]) (tail (faults w)) w)
       end.

(** [crypto.randomUUID()] *)
Definition randomUUID : M string :=
  λ w, (Ret (entropy w (drawn w)), with_drawn (S (drawn w)) w).

(** [new Date()] *)
Definition new_Date : M Z :=
  λ w, (Ret (wallclock w (readings w)), with_readings (S (readings w)) w).

(** [for (const x of xs) { body }] *)
Fixpoint for_of {A} (xs : list A) (body : A → M unit) : M unit :=
  match xs with
  | [] => ret tt
  | x :: rest => body x ;; for_of rest body
  end.

(** ** schedule.ts *)

(** [broadcastProgress(update)] *)
Definition broadcastProgress (update : ProgressUpdate) : M unit :=
  λ w, match progressSubscribers w !! pu_scheduleId update with
       | Some subscribers =>
           (Ret tt,
            with_delivered
              (delivered w ++ map (λ subscriber, (subscriber, update)) subscribers) w)
       | None => (Ret tt, w)
       end.

(** [cleanupRunningJobs()] *)
Definition cleanupRunningJobs : M unit :=
  λ w,
    let runningRows := select_by_status running (db w) in
    for_of runningRows (λ job,
      t1 <- new_Date ;;
      t2 <- new_Date ;;
      db_run (SqlInterrupt 0 t1 t2 (id job)) ;;
      t3 <- new_Date ;;
      broadcastProgress
        (mkProgressUpdate (id job) 0 failed
           (Some "Task interrupted due to server restart") t3)) w.

(** What the program imports and the sources do not contain. *)
Record Imports := mkImports {
  (* node-cron: cron.validate; cron.schedule throws on an expression that
     does not validate *)
  cron_validate : string → bool;
  (* cron-parser: parseExpression(e), None when it throws; the parsed
     expression maps the current date to next().toDate(), None when
     next() throws *)
  parseExpression : string → option (Z → option Z);
  (* ./db: initializeDatabase() *)
  initializeDatabase : M unit
}.

Section Engine.

Variable lib : Imports.

(** [isValidCronExpression(cronExp)] *)
Definition isValidCronExpression (cronExp : string) : bool :=
  cron_validate lib cronExp.

(** [getNextRunTime(cronExp)]: cron-parser starts from the current date. *)
Definition getNextRunTime (cronExp : string) : M (option Z) :=
  match parseExpression lib cronExp with
  | Some interval =>
      today <- new_Date ;;
      ret (interval today)
  | None => ret None
  end.

(** [scheduleFromRow(row)]; the object has no [message] property. *)
Definition scheduleFromRow (row : Schedule) : M Schedule :=
  next <- (if isActive row then getNextRunTime (cronExpression row) else ret None) ;;
  ret (mkSchedule (id row) (name row) (cronExpression row) (isActive row)
         (task row) (createdAt row) (updatedAt row) (lastRun row)
         (progress row) (status row) (lastStatus row) (currentJobId row)
         next (maxRetries row) (retryDelay row) (retryAttempts row)
         (includeChildren row) (pe row) (ou row) (scorecard row) None).

(** [startScheduleJob(schedule, runningJobs, func)]: [cron.schedule]
    creates the task (started, as [scheduled] defaults to true),
    [job.start()] starts it, [runningJobs.set] binds the id to it. *)
Definition startScheduleJob (schedule : Schedule) : M nat :=
  λ w,
    if cron_validate lib (cronExpression schedule) then
      let job := length (tasks w) in
      (Ret job,
       with_timers (<[id schedule := job]> (runningJobs w))
         (tasks w ++ [mkTask schedule true]) w)
    else (Throw "invalid cron expression", w).

(** The callback [startScheduleJob] gives to [cron.schedule], run when the
    task [job] fires:
    [try { await func(schedule) } catch (error) { console.error(...) }]. *)
Definition fire (func : Schedule → M unit) (job : nat) : M unit :=
  λ w,
    match tasks w !! job with
    | Some t =>
        if task_started t then
          (console_log ;;
           try_catch (func (task_schedule t)) (λ _, console_log)) w
        else (Ret tt, w)
    | None => (Ret tt, w)
    end.

(** [restoreActiveSchedules(runningJobs, func)] *)
Definition restoreActiveSchedules : M unit :=
  λ w,
    let activeSchedules := select_active (db w) in
    for_of activeSchedules (λ scheduleRow,
      schedule <- scheduleFromRow scheduleRow ;;
      _ <- startScheduleJob schedule ;;
      ret tt) w.

(** ** index.ts *)

(** [initializeSystem(func)]; the call of [cleanupRunningJobs] is
    commented out in the source. *)
Definition initializeSystem : M unit :=
  initializeDatabase lib ;;
  restoreActiveSchedules.

(** [c.json(body, status)] *)
Record Response := mkResponse {
  http_status : nat;
  body_error : option string;
  body_message : option string;
  body_schedule : option Schedule
}.

Definition json_error (e : string) (code : nat) : Response :=
  mkResponse code (Some e) None None.

Definition json_schedule (m : string) (s : Schedule) (code : nat) : Response :=
  mkResponse code None (Some m) (Some s).

(** The body of [POST /schedules]; a property that is absent is [None].
    The job parameters are passed through as they are. *)
Record CreateBody := mkCreateBody {
  b_name : option string;
  b_cronExpression : option string;
  b_task : option string;
  b_maxRetries : option Z;
  b_retryDelay : option Z;
  b_pe : string;
  b_ou : string;
  b_scorecard : Z;
  b_includeChildren : bool
}.

(** [!x] for a string property: absent or empty. *)
Definition falsy (x : option string) : bool :=
  match x with
  | None => true
  | Some s => bool_decide (s = "")
  end.

(** [app.post("/schedules", ...)]; [None] is a body that is not JSON.
    Columns the INSERT leaves out are null (0 for [retryAttempts]). *)
Definition post_schedules (request : option CreateBody) : M Response :=
  try_catch
    (match request with
     | None => throw "SyntaxError"
     | Some body =>
         let maxRetries := default 3 (b_maxRetries body) in
         let retryDelay := default 60 (b_retryDelay body) in
         if falsy (b_name body) || falsy (b_cronExpression body) || falsy (b_task body)
         then ret (json_error "Missing required fields" 400)
         else if negb (isValidCronExpression (default "" (b_cronExpression body)))
         then ret (json_error "Invalid cron expression" 400)
         else if (maxRetries <? 0)%Z || (maxRetries >? 10)%Z
         then ret (json_error "maxRetries must be between 0 and 10" 400)
         else if (retryDelay <? 0)%Z || (retryDelay >? 3600)%Z
         then ret (json_error "retryDelay must be between 0 and 3600 seconds" 400)
         else
           i <- randomUUID ;;
           now <- new_Date ;;
           db_run (SqlInsertSchedule
                     (mkSchedule i (default "" (b_name body))
                        (default "" (b_cronExpression body)) false
                        (default "" (b_task body)) now now None 0 idle None
                        None None maxRetries retryDelay 0
                        (b_includeChildren body) (b_pe body) (b_ou body)
                        (b_scorecard body) None)) ;;
           λ w,
             match select_by_id i (db w) with
             | None => (Ret (json_error "Schedule not found" 404), w)
             | Some row =>
                 (schedule <- scheduleFromRow row ;;
                  ret (json_schedule "Schedule created successfully" schedule 201)) w
             end
     end)
    (λ _, console_log ;; ret (json_error "Invalid request body" 400)).

(** [app.post("/schedules/:id/start", ...)] *)
Definition post_start (i : string) : M Response :=
  λ w,
    match select_by_id i (db w) with
    | None => (Ret (json_error "Schedule not found" 404), w)
    | Some scheduleRow =>
        (schedule <- scheduleFromRow scheduleRow ;;
         if isActive schedule
         then ret (json_error "Schedule is already running" 400)
         else
           try_catch
             (_ <- startScheduleJob schedule ;;
              now <- new_Date ;;
              db_run (SqlActivate now i) ;;
              λ w',
                match select_by_id i (db w') with
                | None => (Ret (json_error "Schedule not found" 404), w')
                | Some updatedSchedule =>
                    (view <- scheduleFromRow updatedSchedule ;;
                     ret (json_schedule "Schedule started successfully" view 200)) w'
                end)
             (λ _, console_log ;; ret (json_error "Failed to start schedule" 500))) w
    end.

End Engine.

(** ** utils.ts *)

(** The answer to [GET organisationUnits/<ou>.json] with descendants: one
    unit object, or a collection whose [organisationUnits] may be absent. *)
Inductive OuPayload :=
  | OuObject (u : OrgUnit)
  | OuCollection (us : option (list OrgUnit)).

(** What the DHIS2 and ALMA servers answer during one run of the job
    body; [None] (or [false]) is a request that is rejected. *)
Record Remote := mkRemote {
  organisationUnits_tree : string → option OuPayload;
  organisationUnits_one : string → option OrgUnit;
  indicatorGroup : option (list string);
  analytics : string → option string;
  (* POST session: the set-cookie header of the response, if any *)
  alma_session : option (option string);
  (* PUT scorecard/<scorecard>/upload/dhis *)
  alma_upload : Z → string → bool
}.

Definition axios_get {A} (answer : option A) : M A :=
  match answer with
  | Some data => ret data
  | None => throw "AxiosError"
  end.

(** [sendToAlma({ data, scorecard, name })] *)
Definition sendToAlma (net : Remote) (data : string) (scorecard : Z)
    (name : string) : M unit :=
  response <- axios_get (alma_session net) ;;
  match response with
  | Some headers =>
      try_catch
        (console_log ;;
         if alma_upload net scorecard data then ret tt else throw "AxiosError")
        (λ _, console_log)
  | None => ret tt
  end.

(** A JavaScript number: a binary64 value. *)
Definition number : Type := SpecFloat.spec_float.

(** The number a decimal integer literal, a counter or an array length
    denotes: the integer itself below 2^53 in magnitude. *)
Definition number_of_Z (z : Z) : number :=
  SpecFloat.binary_normalize 53 1024 z 0 false.

(** [x + y], [x * y] and [x / y] on numbers *)
Definition js_add : number → number → number := SpecFloat.SFadd 53 1024.

Definition js_mul : number → number → number := SpecFloat.SFmul 53 1024.

Definition js_div : number → number → number := SpecFloat.SFdiv 53 1024.

(** [Math.round(x)]: the integer nearest to [x], the greater one at a tie,
    that is the floor of [x + 1/2] taken exactly.  It is 0 at a zero; at
    an infinity or NaN, which a division by 0 alone could give here and
    the loops never compute (they run when [totalSteps] is at least 1),
    there is no integer, and the value is 0. *)
Definition Math_round (x : number) : Z :=
  match x with
  | SpecFloat.S754_finite s m e =>
      let n := if s then Z.neg m else Z.pos m in
      if 0 <=? e then n * 2 ^ e else (2 * n + 2 ^ (- e)) / 2 ^ (1 - e)
  | _ => 0
  end.

(** The organisation units of a run: [units.organisationUnits], whose
    [length] throws when the property is absent. *)
Definition fetch_units (net : Remote) (s : Schedule) : M (list OrgUnit) :=
  if includeChildren s then
    data <- axios_get (organisationUnits_tree net (ou s)) ;;
    match data with
    | OuObject u => ret [u]
    | OuCollection (Some us) => ret us
    | OuCollection None => throw "TypeError"
    end
  else
    data <- axios_get (organisationUnits_one net (ou s)) ;;
    ret [data].

Definition step_message (i totalSteps : Z) (name : string) : string :=
  "Completed step " +:+ pretty i +:+ " of " +:+ pretty totalSteps
    +:+ " (" +:+ name +:+ ")".

(** [queryDHIS2], first variant: the loop over the organisation units.
    The loop's own [id] (the unit's) hides the schedule's, so the UPDATE
    is keyed by the unit's id. *)
Fixpoint units_loop (net : Remote) (s : Schedule) (totalSteps : Z)
    (units : list OrgUnit) (i : Z) : M unit :=
  match units with
  | [] => ret tt
  | u :: rest =>
      console_log ;;
      let url := "analytics.json?dimension=dx:IN_GROUP-SWDeaw0RUyR&dimension=pe:"
                   +:+ pe s +:+ "&dimension=ou:" +:+ ou_id u in
      let progress :=
        Math_round
          (js_mul
             (js_add (number_of_Z i)
                (js_div (number_of_Z 1) (number_of_Z totalSteps)))
             (number_of_Z 100)) in
      try_catch
        (data <- axios_get (analytics net url) ;;
         sendToAlma net data (scorecard s) (ou_name u) ;;
         db_run (SqlProgress progress (step_message i totalSteps (ou_name u))
                   (ou_id u)))
        (λ _, console_log) ;;
      units_loop net s totalSteps rest (i + 1)
  end.

(** [queryDHIS2(schedule)], first variant *)
Definition queryDHIS2 (net : Remote) (s : Schedule) : M unit :=
  if decide (status s ≠ running) then
    jobId <- randomUUID ;;
    startTime <- new_Date ;;
    try_catch
      (db_run (SqlInsertExecution jobId (id s) startTime running) ;;
       db_run (SqlTaskStarted jobId (id s)) ;;
       db_run (SqlMessage "Fetching organisation units" (id s)))
      (λ _, console_log) ;;
    units <- fetch_units net s ;;
    let totalSteps := Z.of_nat (length units) in
    units_loop net s totalSteps units 1 ;;
    endTime <- new_Date ;;
    try_catch
      (db_run (SqlSealExecution endTime completed jobId) ;;
       db_run (SqlTaskCompleted endTime (id s)))
      (λ _, console_log)
  else ret tt.

(** Second variant: the organisation units request, which leaves
    [units.organisationUnits] a list or absent ([None]); the property is
    read, by [units.organisationUnits.length], only after the indicator
    group request, and reading the [length] of an absent property
    throws. *)
Definition fetch_payload (net : Remote) (s : Schedule)
    : M (option (list OrgUnit)) :=
  if includeChildren s then
    data <- axios_get (organisationUnits_tree net (ou s)) ;;
    match data with
    | OuObject u => ret (Some [u])
    | OuCollection us => ret us
    end
  else
    data <- axios_get (organisationUnits_one net (ou s)) ;;
    ret (Some [data]).

Definition organisationUnits_of (payload : option (list OrgUnit))
    : M (list OrgUnit) :=
  match payload with
  | Some us => ret us
  | None => throw "TypeError"
  end.

Definition NOT_FOR_PROFIT : list string := ["svd8pMum32y"; "LrvtF9Umvsh"].

Definition NOT_FOR_PROFIT_INDICATIONS : list string :=
  ["ofZGItap633"; "LbXgcyeBgZy"; "HF37g2iSiZB"; "VACcvy5d4vu"].

(** Second variant: the loop over the organisation units. *)
Fixpoint units_loop2 (net : Remote) (s : Schedule) (indicators : list string)
    (totalSteps : Z) (units : list OrgUnit) (i : Z) : M unit :=
  match units with
  | [] => ret tt
  | u :: rest =>
      let isNot4Profit :=
        bool_decide
          (0 < length (List.filter (λ a, bool_decide (a ∈ NOT_FOR_PROFIT))
                         (organisationUnitGroups u)))%nat in
      let availableIndicators :=
        if negb isNot4Profit && bool_decide (ou_level u = 5)
        then List.filter (λ x, bool_decide (x ∉ NOT_FOR_PROFIT_INDICATIONS))
               indicators
        else indicators in
      let url := "analytics.json?dimension=dx:"
                   +:+ String.concat ";" availableIndicators
                   +:+ "&dimension=pe:" +:+ pe s
                   +:+ "&dimension=ou:" +:+ ou_id u in
      try_catch
        (data <- axios_get (analytics net url) ;;
         sendToAlma net data (scorecard s) (ou_name u))
        (λ _,
           for_of indicators (λ indicator,
             let url := "analytics.json?dimension=dx:" +:+ indicator
                          +:+ "&dimension=pe:" +:+ pe s
                          +:+ "&dimension=ou:" +:+ ou_id u in
             try_catch
               (data2 <- axios_get (analytics net url) ;;
                sendToAlma net data2 (scorecard s) (ou_name u))
               (λ _, console_log))) ;;
      let progress :=
        Math_round
          (js_mul (js_div (number_of_Z i) (number_of_Z totalSteps))
             (number_of_Z 100)) in
      try_catch
        (db_run (SqlProgress progress (step_message i totalSteps (ou_name u))
                   (ou_id u)))
        (λ _, console_log) ;;
      units_loop2 net s indicators totalSteps rest (i + 1)
  end.

(** [queryDHIS2(schedule)], second variant *)
Definition queryDHIS2' (net : Remote) (s : Schedule) : M unit :=
  if decide (status s ≠ running) then
    jobId <- randomUUID ;;
    startTime <- new_Date ;;
    try_catch
      (db_run (SqlInsertExecution jobId (id s) startTime running) ;;
       db_run (SqlTaskStarted jobId (id s)) ;;
       db_run (SqlMessage "Fetching organisation units" (id s)))
      (λ _, console_log) ;;
    payload <- fetch_payload net s ;;
    indicators <- axios_get (indicatorGroup net) ;;
    units <- organisationUnits_of payload ;;
    let totalSteps := Z.of_nat (length units) in
    units_loop2 net s indicators totalSteps units 1 ;;
    endTime <- new_Date ;;
    try_catch
      (db_run (SqlSealExecution endTime completed jobId) ;;
       db_run (SqlTaskCompleted endTime (id s)))
      (λ _, console_log)
  else ret tt.

(** [runManually(id)]: reads the row, then runs the job body on it. *)
Definition runManually (func : Schedule → M unit) (i : string) : M unit :=
  λ w,
    match select_by_id i (db w) with
    | None => (Ret tt, w)
    | Some schedule => func schedule w
    end.

(** ** index.ts, the other routes *)

(** The statements of the stop, edit and delete routes; they are not
    recorded in the journal. *)
Inductive SqlMore :=
  (* UPDATE schedules SET isActive = 0, updatedAt = ?, status = 'idle'
     WHERE id = ? *)
  | SqlDeactivate (updated : Z) (i : string)
  (* UPDATE schedules set name = ?, cronExpression = ?, task = ?,
     updatedAt = ?, maxRetries = ?, retryDelay = ?, pe = ?, ou = ?,
     scorecard = ?, includeChildren = ? WHERE id = ? *)
  | SqlEdit (nm cron tsk : string) (updated : Z) (retries delay : Z)
      (period unit : string) (card : Z) (children : bool) (i : string)
  (* DELETE FROM schedules WHERE id = ? *)
  | SqlDelete (i : string).

Definition deactivate_row (updated : Z) (r : Schedule) : Schedule :=
  set_status idle (set_updatedAt updated (set_isActive false r)).

Definition edit_row (nm cron tsk : string) (updated : Z) (retries delay : Z)
    (period unit : string) (card : Z) (children : bool) (r : Schedule)
    : Schedule :=
  mkSchedule (id r) nm cron (isActive r) tsk (createdAt r) updated (lastRun r)
    (progress r) (status r) (lastStatus r) (currentJobId r) (nextRun r)
    retries delay (retryAttempts r) children period unit card (message r).

Definition exec_more (s : SqlMore) (d : Db) : Db :=
  match s with
  | SqlDeactivate updated i =>
      mkDb (update_where i (deactivate_row updated) (schedules d))
           (job_executions d)
  | SqlEdit nm cron tsk updated retries delay period unit card children i =>
      mkDb (update_where i
              (edit_row nm cron tsk updated retries delay period unit card
                 children)
              (schedules d))
           (job_executions d)
  | SqlDelete i =>
      mkDb (List.filter (λ r, negb (bool_decide (id r = i))) (schedules d))
           (job_executions d)
  end.

(** [db.run(sql, params)] for these statements *)
Definition db_run_more (s : SqlMore) : M unit :=
  λ w, match faults w with
       | true :: plan => (Throw "SQLiteError", with_db (db w) (journal w) plan w)
       | _ => (Ret tt, with_db (exec_more s (db w)) (journal w) (tail (faults w)) w)
       end.

Definition with_subscribers (m : gmap string (list nat)) (w : World) : World :=
  mkWorld (db w) (journal w) (faults w) (entropy w) (drawn w) (wallclock w)
    (readings w) (runningJobs w) (tasks w) m (delivered w).

(** [const job = runningJobs.get(id);
     if (job) { job.stop(); runningJobs.delete(id); }] *)
Definition disarm (i : string) : M unit :=
  λ w, match runningJobs w !! i with
       | Some job =>
           (Ret tt,
            with_timers (delete i (runningJobs w))
              (alter (λ t, mkTask (task_schedule t) false) job (tasks w)) w)
       | None => (Ret tt, w)
       end.

(** The body of [PUT /schedules/:id], a [Partial<Schedule>]: a property
    that is absent is [None]. *)
Record PartialSchedule := mkPartialSchedule {
  p_id : option string;
  p_name : option string;
  p_cronExpression : option string;
  p_isActive : option bool;
  p_task : option string;
  p_createdAt : option Z;
  p_updatedAt : option Z;
  p_lastRun : option (option Z);
  p_progress : option Z;
  p_status : option Status;
  p_lastStatus : option (option Status);
  p_currentJobId : option (option string);
  p_nextRun : option (option Z);
  p_maxRetries : option Z;
  p_retryDelay : option Z;
  p_retryAttempts : option Z;
  p_includeChildren : option bool;
  p_pe : option string;
  p_ou : option string;
  p_scorecard : option Z
}.

(** [{ ...schedule, ...currentSchedule }] *)
Definition merge (schedule : Schedule) (body : PartialSchedule) : Schedule :=
  mkSchedule
    (default (id schedule) (p_id body))
    (default (name schedule) (p_name body))
    (default (cronExpression schedule) (p_cronExpression body))
    (default (isActive schedule) (p_isActive body))
    (default (task schedule) (p_task body))
    (default (createdAt schedule) (p_createdAt body))
    (default (updatedAt schedule) (p_updatedAt body))
    (default (lastRun schedule) (p_lastRun body))
    (default (progress schedule) (p_progress body))
    (default (status schedule) (p_status body))
    (default (lastStatus schedule) (p_lastStatus body))
    (default (currentJobId schedule) (p_currentJobId body))
    (default (nextRun schedule) (p_nextRun body))
    (default (maxRetries schedule) (p_maxRetries body))
    (default (retryDelay schedule) (p_retryDelay body))
    (default (retryAttempts schedule) (p_retryAttempts body))
    (default (includeChildren schedule) (p_includeChildren body))
    (default (pe schedule) (p_pe body))
    (default (ou schedule) (p_ou body))
    (default (scorecard schedule) (p_scorecard body))
    (message schedule).

(** [c.json({ message })] and [c.json({ schedule })] *)
Definition json_message (m : string) : Response := mkResponse 200 None (Some m) None.

Definition json_view (s : Schedule) : Response := mkResponse 200 None None (Some s).

(** [rows.map(f)] for an [f] that reads the clock *)
Fixpoint map_M {A B} (f : A → M B) (xs : list A) : M (list B) :=
  match xs with
  | [] => ret []
  | x :: rest =>
      y <- f x ;;
      ys <- map_M f rest ;;
      ret (y :: ys)
  end.

Section Routes.

Variable lib : Imports.

(** [app.get("/schedules", ...)]: the [schedules] array of the answer *)
Definition get_schedules : M (list Schedule) :=
  λ w, map_M (scheduleFromRow lib) (schedules (db w)) w.

(** [app.get("/schedules/:id", ...)] *)
Definition get_schedule (i : string) : M Response :=
  λ w,
    match select_by_id i (db w) with
    | None => (Ret (json_error "Schedule not found" 404), w)
    | Some schedule =>
        (view <- scheduleFromRow lib schedule ;; ret (json_view view)) w
    end.

(** [await c.req.json()]; [None] is a body that is not JSON. *)
Definition req_json {A} (request : option A) : M A :=
  match request with
  | Some body => ret body
  | None => throw "SyntaxError"
  end.

(** [app.put("/schedules/:id", ...)]: the body is parsed before the row
    is looked up; neither a body that is not JSON nor a failing [db.run]
    is caught. *)
Definition put_schedule (i : string) (request : option PartialSchedule)
    : M Response :=
  currentSchedule <- req_json request ;;
  λ w,
    match select_by_id i (db w) with
    | None => (Ret (json_error "Schedule not found" 404), w)
    | Some schedule =>
        let merged := merge schedule currentSchedule in
        (now <- new_Date ;;
         console_log ;;
         db_run_more
           (SqlEdit (name merged) (cronExpression merged) (task merged) now
              (maxRetries merged) (retryDelay merged) (pe merged) (ou merged)
              (scorecard merged) (includeChildren merged) i) ;;
         view <- scheduleFromRow lib merged ;;
         ret (json_view view)) w
    end.

(** [app.post("/schedules/:id/stop", ...)] *)
Definition post_stop (i : string) : M Response :=
  λ w,
    match select_by_id i (db w) with
    | None => (Ret (json_error "Schedule not found" 404), w)
    | Some scheduleRow =>
        (schedule <- scheduleFromRow lib scheduleRow ;;
         if negb (isActive schedule)
         then ret (json_error "Schedule is not running" 400)
         else
           try_catch
             (disarm i ;;
              now <- new_Date ;;
              db_run_more (SqlDeactivate now i) ;;
              λ w',
                match select_by_id i (db w') with
                | None => (Ret (json_error "Schedule not found" 404), w')
                | Some updatedSchedule =>
                    (view <- scheduleFromRow lib updatedSchedule ;;
                     ret (json_schedule "Schedule stopped successfully" view 200)) w'
                end)
             (λ _, ret (json_error "Failed to stop schedule" 500))) w
    end.

(** [app.delete("/schedules/:id", ...)] *)
Definition delete_schedule (i : string) : M Response :=
  λ w,
    match select_by_id i (db w) with
    | None => (Ret (json_error "Schedule not found" 404), w)
    | Some schedule =>
        try_catch
          ((if isActive schedule then disarm i else ret tt) ;;
           db_run_more (SqlDelete i) ;;
           ret (json_message "Schedule deleted successfully"))
          (λ _, ret (json_error "Failed to delete schedule" 500)) w
    end.

End Routes.

(** [app.get("/schedules/:id/progress", ...)] for the connection [conn],
    whose [subscriber] closure is what the set holds: the route answers the
    event stream, registers the subscriber and writes the initial update
    to it. *)
Definition get_progress (conn : nat) (i : string) : M Response :=
  λ w,
    match select_by_id i (db w) with
    | None => (Ret (json_error "Schedule not found" 404), w)
    | Some schedule =>
        let subscribers := default [] (progressSubscribers w !! i) in
        let subscribers' :=
          if decide (conn ∈ subscribers) then subscribers
          else subscribers ++ [conn] in
        (t <- new_Date ;;
         λ w', (Ret (mkResponse 200 None None None),
                with_delivered
                  (delivered w'
                   ++ [(conn,
                        mkProgressUpdate i
                          (if bool_decide (progress schedule = 0) then 0
                           else progress schedule)
                          (status schedule) None t)]) w'))
          (with_subscribers (<[i := subscribers']> (progressSubscribers w)) w)
    end.

(** The [stream.onAbort] callback of the connection [conn] *)
Definition on_abort (conn : nat) (i : string) : M unit :=
  λ w,
    let m := progressSubscribers w in
    let m1 :=
      match m !! i with
      | Some subscribers =>
          <[i := List.filter (λ n, negb (bool_decide (n = conn))) subscribers]> m
      | None => m
      end in
    let m2 :=
      match m1 !! i with
      | Some [] => delete i m1
      | _ => m1
      end in
    (Ret tt, with_subscribers m2 w).

(** The two variants of the job body. *)
Inductive Variant := First | Second.

Definition job_body (v : Variant) : Remote → Schedule → M unit :=
  match v with
  | First => queryDHIS2
  | Second => queryDHIS2'
  end.

(** The progress value a statement stores, if it stores one. *)
Definition written_progress (s : Sql) : option Z :=
  match s with
  | SqlInterrupt p _ _ _ => Some p
  | SqlTaskStarted _ _ => Some 0
  | SqlProgress p _ _ => Some p
  | SqlTaskCompleted _ _ => Some 100
  | SqlInsertSchedule row => Some (progress row)
  | SqlActivate _ _ => Some 0
  | SqlInsertExecution _ _ _ _ | SqlMessage _ _ | SqlSealExecution _ _ _ => None
  end.

(** The run-state invariant of a schedule row: a current job id exactly
    when the status is [running]. *)
Definition run_state_ok (r : Schedule) : Prop :=
  currentJobId r ≠ None ↔ status r = running.

(** No coming [db.run] throws. *)
Definition no_faults (w : World) : Prop := Forall (λ b, b = false) (faults w).

(** The event [cleanupRunningJobs] broadcasts for a schedule. *)
Definition interruption (i : string) (t : Z) : ProgressUpdate :=
  mkProgressUpdate i 0 failed (Some "Task interrupted due to server restart") t.

(** ** Reasoning about [M]: predicates kept by a computation *)

Definition stable {A} (P : World → Prop) (m : M A) : Prop :=
  ∀ w, P w → P (snd (m w)).

(** A predicate on worlds that the bookkeeping of the primitives keeps,
    and that running a statement allowed by [ok] keeps. *)
Record frame (ok : Sql → Prop) (P : World → Prop) : Prop := mkFrame {
  frame_drawn : ∀ n w, P w → P (with_drawn n w);
  frame_readings : ∀ n w, P w → P (with_readings n w);
  frame_plan : ∀ plan w, P w → P (with_db (db w) (journal w) plan w);
  frame_exec : ∀ s plan w, ok s → P w →
    P (with_db (exec s (db w)) (journal w ++ [s]) plan w)
}.

(** *** The statements a run of the job body issues *)

Inductive job_stmt (v : Variant) (s : Schedule) : Sql → Prop :=
  | job_insert jobId start :
      job_stmt v s (SqlInsertExecution jobId (id s) start running)
  | job_started jobId : job_stmt v s (SqlTaskStarted jobId (id s))
  | job_message msg : job_stmt v s (SqlMessage msg (id s))
  | job_progress p msg i : job_stmt v s (SqlProgress p msg i)
  | job_seal finish jobId : job_stmt v s (SqlSealExecution finish completed jobId)
  | job_completed finish : job_stmt v s (SqlTaskCompleted finish (id s)).

(** Rows keep their place and their id; a row that is [failed] afterwards
    was [failed] before. *)
Definition not_failed_by (r0 r : Schedule) : Prop :=
  id r = id r0 ∧ (status r = failed → status r0 = failed).

(** One turn of the loop of [cleanupRunningJobs] for the row [job], when
    its write does not fail. *)
Definition interrupted (job : Schedule) (w w1 : World) : Prop :=
  ∃ t1 t2 t3,
    no_faults w1
    ∧ schedules (db w1)
      = update_where (id job) (interrupt_row 0 t1 t2) (schedules (db w))
    ∧ progressSubscribers w1 = progressSubscribers w
    ∧ delivered w1
      = delivered w
        ++ map (λ n, (n, interruption (id job) t3))
             (default [] (progressSubscribers w !! id job)).

(** A row after the loop over [rows]: same id, and failed at progress 0 if
    it was so already or if its id is the id of one of the [rows]. *)
Definition settled (rows : list Schedule) (r r' : Schedule) : Prop :=
  id r' = id r
  ∧ ((status r = failed ∧ progress r = 0) ∨ id r ∈ map id rows →
     status r' = failed ∧ progress r' = 0).

(** The object [scheduleFromRow] builds from a row, given its next run. *)
Definition view_of (next : option Z) (row : Schedule) : Schedule :=
  mkSchedule (id row) (name row) (cronExpression row) (isActive row)
    (task row) (createdAt row) (updatedAt row) (lastRun row) (progress row)
    (status row) (lastStatus row) (currentJobId row) next (maxRetries row)
    (retryDelay row) (retryAttempts row) (includeChildren row) (pe row)
    (ou row) (scorecard row) None.

(** [job.stop()] on a task *)
Definition stopped (t : Task) : Task := mkTask (task_schedule t) false.

(** A computation that returns normally from every world in [P], with a
    result and a world in [Q]. *)
Definition returns {A} (P : World → Prop) (m : M A) (Q : A → World → Prop)
    : Prop :=
  ∀ w, P w → ∃ a, fst (m w) = Ret a ∧ Q a (snd (m w)).

(** No entry of [progressSubscribers] is an empty set. *)
Definition no_empty_sets (m : gmap string (list nat)) : Prop :=
  ∀ i, m !! i ≠ Some [].

(** The row a creation request inserts. *)
Definition created_row (body : CreateBody) (w : World) : Schedule :=
  mkSchedule (entropy w (drawn w)) (default "" (b_name body))
    (default "" (b_cronExpression body)) false (default "" (b_task body))
    (wallclock w (readings w)) (wallclock w (readings w)) None 0 idle None
    None None (default 3 (b_maxRetries body)) (default 60 (b_retryDelay body))
    0 (b_includeChildren body) (b_pe body) (b_ou body) (b_scorecard body) None.

(** A creation request that passes the checks, when the id drawn is new
    and the INSERT succeeds. *)
Definition creatable (lib : Imports) (body : CreateBody) (w : World) : Prop :=
  falsy (b_name body) = false ∧ falsy (b_cronExpression body) = false
  ∧ falsy (b_task body) = false
  ∧ cron_validate lib (default "" (b_cronExpression body)) = true
  ∧ 0 ≤ default 3 (b_maxRetries body) ≤ 10
  ∧ 0 ≤ default 60 (b_retryDelay body) ≤ 3600
  ∧ head (faults w) ≠ Some true
  ∧ select_by_id (entropy w (drawn w)) (db w) = None.

(** One turn of the loop of [restoreActiveSchedules]. *)
Definition arm_row (lib : Imports) (scheduleRow : Schedule) : M unit :=
  schedule <- scheduleFromRow lib scheduleRow ;;
  _ <- startScheduleJob lib schedule ;;
  ret tt.

(** Every active row of the table has an expression that validates. *)
Definition armable (lib : Imports) (rows : list Schedule) : Prop :=
  Forall (λ r, cron_validate lib (cronExpression r) = true) rows.

(** A predicate that every [db.run] keeps, whether it throws or not. *)
Definition write_stable (P : World → Prop) : Prop :=
  ∀ st, stable P (db_run st).

(** The state in which a run of the job body leaves the rows of its
    schedule and its execution record when it completes. *)
Definition run_completed (s : Schedule) (jobId : string) (w : World) : Prop :=
  (∀ r, r ∈ schedules (db w) → id r = id s →
     status r = completed ∧ progress r = 100 ∧ currentJobId r = None
     ∧ lastStatus r = Some completed ∧ is_Some (lastRun r)
     ∧ message r = Some "Task completed successfully")
  ∧ (∃ e, e ∈ job_executions (db w) ∧ ex_id e = jobId)
  ∧ (∀ e, e ∈ job_executions (db w) → ex_id e = jobId →
       ex_status e = completed ∧ is_Some (ex_endTime e)).

(** The columns of a row that define the schedule, with its enabled flag
    and its timestamps of creation and update. *)
Definition same_definition (r0 r : Schedule) : Prop :=
  id r = id r0 ∧ name r = name r0 ∧ cronExpression r = cronExpression r0
  ∧ isActive r = isActive r0 ∧ task r = task r0
  ∧ createdAt r = createdAt r0 ∧ updatedAt r = updatedAt r0
  ∧ maxRetries r = maxRetries r0 ∧ retryDelay r = retryDelay r0
  ∧ includeChildren r = includeChildren r0 ∧ pe r = pe r0
  ∧ ou r = ou r0 ∧ scorecard r = scorecard r0.

(** The statements of a recovery over the rows [rows]. *)
Definition interrupt_stmt (rows : list Schedule) (st : Sql) : Prop :=
  ∃ p t1 t2 job, job ∈ rows ∧ st = SqlInterrupt p t1 t2 (id job).

(** A row that differs from another in status, progress, updatedAt and
    lastRun at most. *)
Definition run_state_apart (r0 r : Schedule) : Prop :=
  id r = id r0 ∧ name r = name r0 ∧ cronExpression r = cronExpression r0
  ∧ isActive r = isActive r0 ∧ task r = task r0
  ∧ createdAt r = createdAt r0 ∧ lastStatus r = lastStatus r0
  ∧ currentJobId r = currentJobId r0 ∧ nextRun r = nextRun r0
  ∧ maxRetries r = maxRetries r0 ∧ retryDelay r = retryDelay r0
  ∧ retryAttempts r = retryAttempts r0
  ∧ includeChildren r = includeChildren r0 ∧ pe r = pe r0 ∧ ou r = ou r0
  ∧ scorecard r = scorecard r0 ∧ message r = message r0.

(** What recovery may do to a row: nothing unless its id is the id of one
    of the [rows], and then only set status, progress, updatedAt and
    lastRun. *)
Definition repaired (rows : list Schedule) (r0 r : Schedule) : Prop :=
  (id r0 ∉ map id rows → r = r0)
  ∧ (r = r0 ∨ status r = failed)
  ∧ run_state_apart r0 r.

(** The numbering of the loops over the organisation units: [let i = 1]
    before the loop (here [i]), [i = i + 1] at the end of each turn. *)
Fixpoint steps_from (i : Z) (units : list OrgUnit) : list (Z * OrgUnit) :=
  match units with
  | [] => []
  | u :: rest => (i, u) :: steps_from (i + 1) rest
  end.

(** First variant: the analytics request of the unit and the session
    request to ALMA are both answered. *)
Definition reached (net : Remote) (s : Schedule) (u : OrgUnit) : bool :=
  bool_decide
    (is_Some
       (analytics net
          ("analytics.json?dimension=dx:IN_GROUP-SWDeaw0RUyR&dimension=pe:"
             +:+ pe s +:+ "&dimension=ou:" +:+ ou_id u)))
  && bool_decide (is_Some (alma_session net)).

(** The progress statement of a turn of the loop, in each variant. *)
Definition progress_stmt (v : Variant) (totalSteps : Z) (step : Z * OrgUnit)
    : Sql :=
  SqlProgress
    (match v with
     | First =>
         Math_round
           (js_mul
              (js_add (number_of_Z step.1)
                 (js_div (number_of_Z 1) (number_of_Z totalSteps)))
              (number_of_Z 100))
     | Second =>
         Math_round
           (js_mul (js_div (number_of_Z step.1) (number_of_Z totalSteps))
              (number_of_Z 100))
     end)
    (step_message step.1 totalSteps (ou_name step.2)) (ou_id step.2).

(** The statements of a run of the job body that passes the guard,
    receives its organisation units and has no write fail. *)
Definition run_statements (v : Variant) (net : Remote) (s : Schedule)
    (units : list OrgUnit) (w : World) : list Sql :=
  let jobId := entropy w (drawn w) in
  let totalSteps := Z.of_nat (length units) in
  [SqlInsertExecution jobId (id s) (wallclock w (readings w)) running;
   SqlTaskStarted jobId (id s);
   SqlMessage "Fetching organisation units" (id s)]
  ++ map (progress_stmt v totalSteps)
       (match v with
        | First =>
            List.filter (λ step, reached net s step.2) (steps_from 1 units)
        | Second => steps_from 1 units
        end)
  ++ [SqlSealExecution (wallclock w (S (readings w))) completed jobId;
      SqlTaskCompleted (wallclock w (S (readings w))) (id s)].

(** ** A concrete installation, for running the model *)

Module Demo.

(** An expression of five or six blank-separated fields validates and
    parses; its next run is a minute after the current date. *)
Fixpoint blanks (e : string) : nat :=
  match e with
  | EmptyString => 0%nat
  | String c rest =>
      ((if bool_decide (c = Ascii.Space) then 1 else 0) + blanks rest)%nat
  end.

Definition fields_ok (e : string) : bool :=
  bool_decide (blanks e = 4%nat) || bool_decide (blanks e = 5%nat).

Definition lib : Imports :=
  mkImports fields_ok
    (λ e, if fields_ok e then Some (λ today, Some (today + 60000)) else None)
    (ret tt).

Definition daily (st : Status) (active : bool) (job : option string) : Schedule :=
  mkSchedule "s1" "daily" "0 0 * * *" active "sync" 1000 1000 None 0 st None
    job None 3 60 0 false "LAST_MONTH" "akV6429SUqu" 7 None.

Definition boot (rows : list Schedule) (plan : list bool) : World :=
  mkWorld (mkDb rows []) [] plan (λ k, "uuid-" +:+ pretty k) 0
    (λ k, 5000 + Z.of_nat k) 0 ∅ [] ∅ [].

Definition kampala : OrgUnit := mkOrgUnit "ou1" "Kampala" 3 [].

(** DHIS2 is unreachable. *)
Definition offline : Remote :=
  mkRemote (λ _, None) (λ _, None) None (λ _, None) None (λ _ _, false).

(** DHIS2 answers with the single unit [kampala]; ALMA accepts uploads. *)
Definition online : Remote :=
  mkRemote (λ _, Some (OuObject kampala)) (λ _, Some kampala) (Some ["ind1"])
    (λ _, Some "{}") (Some (Some "session=1")) (λ _ _, true).

Definition creation (retries delay : option Z) : CreateBody :=
  mkCreateBody (Some "daily") (Some "0 0 * * *") (Some "sync") retries delay
    "LAST_MONTH" "akV6429SUqu" 7 false.

(** The subscriber [n] listens to the progress of schedule [i]. *)
Definition subscribed (i : string) (n : nat) (w : World) : World :=
  mkWorld (db w) (journal w) (faults w) (entropy w) (drawn w) (wallclock w)
    (readings w) (runningJobs w) (tasks w)
    (<[i := [n]]> (progressSubscribers w)) (delivered w).

(** A store with the idle schedule s1; the same after a start request;
    and after a first fire during which DHIS2 was unreachable. *)
Definition fresh : World := boot [daily idle false None] [].

Definition started : World := snd (post_start lib "s1" fresh).

Definition stranded : World := snd (fire (queryDHIS2 offline) 0 started).

(** What the start request answers on [fresh]. *)
Definition started_view : Schedule :=
  mkSchedule "s1" "daily" "0 0 * * *" true "sync" 1000 5000 None 0 idle None
    None (Some 65001) 3 60 0 false "LAST_MONTH" "akV6429SUqu" 7 None.

(** A row of the table that carries the id of the unit [kampala]. *)
Definition homonym : Schedule :=
  mkSchedule "ou1" "other" "0 6 * * *" false "sync" 1000 1000 None 0 idle None
    None None 3 60 0 false "LAST_MONTH" "akV6429SUqu" 7 None.

(** A store found at startup after a crash in the middle of a run, with a
    subscriber (which no startup can have) to observe what is published. *)
Definition crashed : World :=
  subscribed "s1" 4 (boot [daily running true (Some "uuid-0")] []).

End Demo.

(** Further stores and requests, for the routes, the subscriptions,
    startup and the runs. *)
Module Cases.

(** The row of s1 after the start request on [Demo.fresh]. *)
Definition armed : Schedule :=
  mkSchedule "s1" "daily" "0 0 * * *" true "sync" 1000 5000 None 0 idle None
    None None 3 60 0 false "LAST_MONTH" "akV6429SUqu" 7 None.

(** The same process state, the coming [db.run] throwing. *)
Definition failing (w : World) : World :=
  with_db (db w) (journal w) [true] w.

(** An edit that renames the schedule and sets its expression. *)
Definition patch (cron : string) : PartialSchedule :=
  mkPartialSchedule None (Some "nightly") (Some cron) None None None None None
    None None None None None None None None None None None None.

(** Two more active rows: one whose expression does not validate, one
    whose expression does. *)
Definition broken : Schedule :=
  mkSchedule "s2" "broken" "whenever" true "sync" 1000 1000 None 0 idle None
    None None 3 60 0 false "LAST_MONTH" "akV6429SUqu" 7 None.

Definition hourly : Schedule :=
  mkSchedule "s3" "hourly" "0 * * * *" true "sync" 1000 1000 None 0 idle None
    None None 3 60 0 false "LAST_MONTH" "akV6429SUqu" 7 None.

Definition mixed : World :=
  Demo.boot [Demo.daily idle true None; broken; hourly] [].

Definition entebbe : OrgUnit := mkOrgUnit "ou2" "Entebbe" 4 [].

(** DHIS2 answers the organisation units and the indicator group, and
    rejects every analytics request; ALMA rejects the session request. *)
Definition flaky : Remote :=
  mkRemote (λ _, Some (OuCollection (Some [Demo.kampala; entebbe])))
    (λ _, Some Demo.kampala) (Some ["ind1"]) (λ _, None) None (λ _ _, false).

(** DHIS2 answers the two units and the analytics of Entebbe only; ALMA
    accepts uploads. *)
Definition partial : Remote :=
  mkRemote (λ _, Some (OuCollection (Some [Demo.kampala; entebbe])))
    (λ _, Some Demo.kampala) (Some ["ind1"])
    (λ url,
       if bool_decide
            (url = "analytics.json?dimension=dx:IN_GROUP-SWDeaw0RUyR&dimension=pe:LAST_MONTH&dimension=ou:ou2")
       then Some "{}" else None)
    (Some (Some "session=1")) (λ _ _, true).

(** Schedule s1 with its descendants included. *)
Definition tree : Schedule :=
  mkSchedule "s1" "daily" "0 0 * * *" false "sync" 1000 1000 None 0 idle None
    None None 3 60 0 true "LAST_MONTH" "akV6429SUqu" 7 None.

End Cases.

(** ** Reasoning about [M] *)

Lemma stable_ret {A} P (a : A) : stable P (ret a).
Proof. intros w H. exact H. Qed.

Lemma stable_throw {A} P e : stable P (@throw A e).
Proof. intros w H. exact H. Qed.

Lemma stable_bind {A B} P (m : M A) (k : A → M B) :
  stable P m → (∀ a, stable P (k a)) → stable P (bind m k).
Proof.
  intros Hm Hk w H. unfold bind.
  specialize (Hm w H). destruct (m w) as [[a|e] w1]; simpl in *.
  - apply Hk, Hm.
  - exact Hm.
Qed.

Lemma stable_try_catch {A} P (m : M A) h :
  stable P m → (∀ e, stable P (h e)) → stable P (try_catch m h).
Proof.
  intros Hm Hh w H. unfold try_catch.
  specialize (Hm w H). destruct (m w) as [[a|e] w1]; simpl in *.
  - exact Hm.
  - apply Hh, Hm.
Qed.

Lemma stable_for_of {A} P (xs : list A) body :
  (∀ x, stable P (body x)) → stable P (for_of xs body).
Proof.
  intros Hb. induction xs as [|x xs IH]; simpl.
  - apply stable_ret.
  - apply stable_bind; [apply Hb | intros _; exact IH].
Qed.

Lemma stable_randomUUID ok P : frame ok P → stable P randomUUID.
Proof. intros F w H. apply (frame_drawn _ _ F), H. Qed.

Lemma stable_new_Date ok P : frame ok P → stable P new_Date.
Proof. intros F w H. apply (frame_readings _ _ F), H. Qed.

Lemma stable_db_run ok P s : frame ok P → ok s → stable P (db_run s).
Proof.
  intros F Hs w H. unfold db_run.
  destruct (faults w) as [|[] plan]; simpl.
  - apply (frame_exec _ _ F); assumption.
  - apply (frame_plan _ _ F), H.
  - apply (frame_exec _ _ F); assumption.
Qed.

Lemma stable_axios_get {A} P (answer : option A) : stable P (axios_get answer).
Proof. destruct answer; [apply stable_ret | apply stable_throw]. Qed.

Lemma stable_sendToAlma P net data sc nm : stable P (sendToAlma net data sc nm).
Proof.
  unfold sendToAlma. apply stable_bind; [apply stable_axios_get |].
  intros [headers|]; [| apply stable_ret].
  apply stable_try_catch; [| intros; apply stable_ret].
  apply stable_bind; [apply stable_ret | intros _].
  destruct (alma_upload net sc data); [apply stable_ret | apply stable_throw].
Qed.

Lemma stable_fetch_payload P net s : stable P (fetch_payload net s).
Proof.
  unfold fetch_payload. destruct (includeChildren s).
  - apply stable_bind; [apply stable_axios_get |].
    intros [u|us]; apply stable_ret.
  - apply stable_bind; [apply stable_axios_get | intros; apply stable_ret].
Qed.

Lemma stable_organisationUnits_of P payload :
  stable P (organisationUnits_of payload).
Proof. destruct payload; [apply stable_ret | apply stable_throw]. Qed.

Lemma stable_fetch_units P net s : stable P (fetch_units net s).
Proof.
  unfold fetch_units. destruct (includeChildren s).
  - apply stable_bind; [apply stable_axios_get |].
    intros [u|[us|]]; [apply stable_ret | apply stable_ret | apply stable_throw].
  - apply stable_bind; [apply stable_axios_get | intros; apply stable_ret].
Qed.

(** *** The job body keeps what its statements keep *)

Lemma stable_units_loop P net s total units i :
  frame (job_stmt First s) P → stable P (units_loop net s total units i).
Proof.
  intros F. revert i. induction units as [|u rest IH]; intros i; simpl.
  - apply stable_ret.
  - apply stable_bind; [apply stable_ret | intros _].
    apply stable_bind; [| intros _; apply IH].
    apply stable_try_catch; [| intros; apply stable_ret].
    apply stable_bind; [apply stable_axios_get | intros data].
    apply stable_bind; [apply stable_sendToAlma | intros _].
    eapply stable_db_run; [exact F |]. constructor.
Qed.

Lemma stable_units_loop2 P net s inds total units i :
  frame (job_stmt Second s) P →
  stable P (units_loop2 net s inds total units i).
Proof.
  intros F. revert i. induction units as [|u rest IH]; intros i; simpl.
  - apply stable_ret.
  - apply stable_bind; [| intros _].
    { apply stable_try_catch.
      - apply stable_bind; [apply stable_axios_get | intros; apply stable_sendToAlma].
      - intros _. apply stable_for_of. intros ind.
        apply stable_try_catch; [| intros; apply stable_ret].
        apply stable_bind; [apply stable_axios_get | intros; apply stable_sendToAlma]. }
    apply stable_bind; [| intros _; apply IH].
    apply stable_try_catch; [| intros; apply stable_ret].
    eapply stable_db_run; [exact F |]. constructor.
Qed.

(** The rules above, applied by the shape of the computation. *)
Ltac stable_step F :=
  lazymatch goal with
  | |- ∀ _, _ => intro
  | |- stable _ (bind _ _) => apply stable_bind
  | |- stable _ (try_catch _ _) => apply stable_try_catch
  | |- stable _ (ret _) => apply stable_ret
  | |- stable _ console_log => apply stable_ret
  | |- stable _ (throw _) => apply stable_throw
  | |- stable _ (axios_get _) => apply stable_axios_get
  | |- stable _ (sendToAlma _ _ _ _) => apply stable_sendToAlma
  | |- stable _ (fetch_units _ _) => apply stable_fetch_units
  | |- stable _ (fetch_payload _ _) => apply stable_fetch_payload
  | |- stable _ (organisationUnits_of _) => apply stable_organisationUnits_of
  | |- stable _ new_Date => eapply stable_new_Date, F
  | |- stable _ randomUUID => eapply stable_randomUUID, F
  | |- stable _ (db_run _) => eapply stable_db_run; [exact F | constructor]
  | |- stable _ (units_loop _ _ _ _ _) => apply stable_units_loop, F
  | |- stable _ (units_loop2 _ _ _ _ _ _) => apply stable_units_loop2, F
  end.

Ltac stable_steps F := repeat stable_step F.

(** Whatever the servers answer and whichever writes fail, a run of the
    job body keeps every predicate that its six statements keep. *)
Lemma stable_job_body v P net s :
  frame (job_stmt v s) P → stable P (job_body v net s).
Proof.
  intros F. destruct v; simpl; [unfold queryDHIS2 | unfold queryDHIS2'];
    (destruct (decide (status s ≠ running)); [| apply stable_ret]);
    stable_steps F.
Qed.

(** *** What a run of the job body leaves alone *)

Lemma frame_timers ok R T S D :
  frame ok (λ w, runningJobs w = R ∧ tasks w = T
                 ∧ progressSubscribers w = S ∧ delivered w = D).
Proof. split; intros; assumption. Qed.

Lemma job_body_timers v net s w :
  let w' := snd (job_body v net s w) in
  runningJobs w' = runningJobs w ∧ tasks w' = tasks w
  ∧ progressSubscribers w' = progressSubscribers w ∧ delivered w' = delivered w.
Proof.
  apply (stable_job_body v _ net s (frame_timers _ _ _ _ _) w). auto.
Qed.

(** The journal only grows, by statements of the job body. *)
Lemma frame_journal ok (J : list Sql) :
  frame ok (λ w, ∃ js, journal w = J ++ js ∧ Forall ok js).
Proof.
  split; try (intros; assumption).
  intros st plan w Hst (js & Hj & Hok). exists (js ++ [st]). simpl. split.
  - rewrite Hj. symmetry. apply app_assoc.
  - apply Forall_app. split; [exact Hok | repeat constructor; exact Hst].
Qed.

Lemma job_body_journal v net s w :
  ∃ js, journal (snd (job_body v net s w)) = journal w ++ js
        ∧ Forall (job_stmt v s) js.
Proof.
  apply (stable_job_body v _ net s (frame_journal _ (journal w)) w).
  exists []. split; [symmetry; apply app_nil_r | constructor].
Qed.

Lemma update_where_related (R : Schedule → Schedule → Prop) i f rows0 rows :
  (∀ r0 r, R r0 r → R r0 (f r)) →
  Forall2 R rows0 rows → Forall2 R rows0 (update_where i f rows).
Proof.
  intros Hf H. unfold update_where. induction H; simpl; constructor; auto.
  destruct (decide (id y = i)); auto.
Qed.

Lemma frame_not_failed v s (L : list Schedule) (E : list Execution) :
  frame (job_stmt v s)
    (λ w, Forall2 not_failed_by L (schedules (db w))
          ∧ ∀ k e, job_executions (db w) !! k = Some e →
                   ex_status e = failed → E !! k = Some e).
Proof.
  split; try (intros; assumption).
  intros st plan w Hst [Hrows Hex].
  destruct Hst; simpl; (split; [| try exact Hex]);
    try exact Hrows;
    try (apply update_where_related; [| exact Hrows];
         intros r0 r [Hid Hst]; split; simpl; [exact Hid | discriminate || exact Hst]).
  - intros k e Hk Hf. apply lookup_app_Some in Hk as [Hk|[_ Hk]]; [eauto |].
    apply list_lookup_singleton_Some in Hk as [_ <-]. discriminate.
  - intros k e Hk Hf. unfold update_execution_where in Hk.
    rewrite list_lookup_fmap in Hk.
    destruct (job_executions (db w) !! k) as [e0|] eqn:Hk0; [| discriminate].
    simpl in Hk. destruct (decide (ex_id e0 = jobId)).
    + injection Hk as <-. discriminate.
    + injection Hk as <-. eauto.
Qed.

Lemma Forall2_not_failed_refl rows : Forall2 not_failed_by rows rows.
Proof. induction rows; constructor; [split; auto | assumption]. Qed.

Lemma job_body_marks_nothing_failed v net s w :
  let w' := snd (job_body v net s w) in
  (∀ k r', schedules (db w') !! k = Some r' → status r' = failed →
     ∃ r, schedules (db w) !! k = Some r ∧ id r = id r' ∧ status r = failed)
  ∧ (∀ k e, job_executions (db w') !! k = Some e → ex_status e = failed →
       job_executions (db w) !! k = Some e).
Proof.
  destruct (stable_job_body v _ net s
              (frame_not_failed v s (schedules (db w)) (job_executions (db w))) w)
    as [Hrows Hex].
  { split; [apply Forall2_not_failed_refl | auto]. }
  split; [| exact Hex].
  intros k r' Hk Hf.
  destruct (Forall2_lookup_r _ _ _ _ _ Hrows Hk) as (r & Hr & Hid & Hst).
  exists r. auto.
Qed.

(** The two status transitions of the job body keep the run-state
    invariant of every row. *)
Lemma frame_run_state v s :
  frame (job_stmt v s) (λ w, Forall run_state_ok (schedules (db w))).
Proof.
  split; try (intros; assumption).
  intros st plan w Hst H.
  destruct Hst; simpl; try exact H;
    unfold update_where; apply Forall_fmap; apply (Forall_impl _ _ _ H);
    intros r Hr; simpl; destruct (decide (id r = _)); try exact Hr;
    unfold run_state_ok in *; simpl; try exact Hr; split; congruence.
Qed.

Lemma job_body_keeps_run_state v net s w :
  Forall run_state_ok (schedules (db w)) →
  Forall run_state_ok (schedules (db (snd (job_body v net s w)))).
Proof. apply (stable_job_body v _ net s (frame_run_state v s) w). Qed.

(** The guard of the job body: handed a schedule object whose status is
    [running], it does nothing. *)
Lemma job_body_guard v net s w :
  status s = running → job_body v net s w = (Ret tt, w).
Proof.
  intros H. destruct v; simpl; [unfold queryDHIS2 | unfold queryDHIS2'];
    (destruct (decide (status s ≠ running)); [contradiction | reflexivity]).
Qed.

(** Past the guard, and unless its first write fails, a run begins by
    inserting an execution record, whatever the store says about the
    schedule. *)
Lemma post_bind {A B} (Q : World → Prop) (m : M A) (k : A → M B) w :
  Q (snd (m w)) → (∀ a, stable Q (k a)) → Q (snd (bind m k w)).
Proof.
  intros Hm Hk. unfold bind. destruct (m w) as [[a|e] w1]; simpl in *.
  - apply Hk, Hm.
  - exact Hm.
Qed.

Lemma post_try_catch {A} (Q : World → Prop) (m : M A) h w :
  Q (snd (m w)) → (∀ e, stable Q (h e)) → Q (snd (try_catch m h w)).
Proof.
  intros Hm Hh. unfold try_catch. destruct (m w) as [[a|e] w1]; simpl in *.
  - exact Hm.
  - apply Hh, Hm.
Qed.

Lemma job_body_first_statement v net s w :
  status s ≠ running → head (faults w) ≠ Some true →
  ∃ js, journal (snd (job_body v net s w))
        = journal w
          ++ SqlInsertExecution (entropy w (drawn w)) (id s)
               (wallclock w (readings w)) running :: js.
Proof.
  intros Hst Hplan.
  set (first := SqlInsertExecution (entropy w (drawn w)) (id s)
                  (wallclock w (readings w)) running).
  set (Q := λ w' : World,
         ∃ js, journal w' = (journal w ++ [first]) ++ js
               ∧ Forall (job_stmt v s) js).
  assert (F : frame (job_stmt v s) Q) by apply frame_journal.
  cut (Q (snd (job_body v net s w))).
  { intros (js & Hj & _). exists js. rewrite Hj, <- app_assoc. reflexivity. }
  assert (Hfirst : ∀ n m, Q (snd (db_run first (with_readings n (with_drawn m w))))).
  { intros n m. unfold db_run. simpl.
    destruct (faults w) as [|[] plan]; [| exfalso; apply Hplan; reflexivity |];
      simpl; exists []; (split; [rewrite app_nil_r; reflexivity | constructor]). }
  destruct v; simpl; [unfold queryDHIS2 | unfold queryDHIS2'];
    (destruct (decide (status s ≠ running)); [| contradiction]);
    unfold bind at 1; unfold randomUUID at 1; cbv beta iota;
    unfold bind at 1; unfold new_Date at 1; cbv beta iota;
    (apply (post_bind Q); [| stable_steps F]);
    (apply (post_try_catch Q); [| stable_steps F]);
    (apply (post_bind Q); [| stable_steps F]);
    apply Hfirst.
Qed.

(** A fire hands the job body the object the timer was armed with: when
    that object is not 'running' the run begins, whatever the persisted
    status of the schedule. *)
Lemma fire_runs_on_snapshot v net job t w :
  tasks w !! job = Some t → task_started t = true →
  status (task_schedule t) ≠ running → head (faults w) ≠ Some true →
  ∃ js, journal (snd (fire (job_body v net) job w))
        = journal w
          ++ SqlInsertExecution (entropy w (drawn w)) (id (task_schedule t))
               (wallclock w (readings w)) running :: js.
Proof.
  intros Hjob Hstarted Hst Hplan.
  destruct (job_body_first_statement v net (task_schedule t) w Hst Hplan)
    as (js & Hj).
  exists js. rewrite <- Hj. unfold fire. rewrite Hjob, Hstarted.
  unfold bind, try_catch, console_log, ret.
  destruct (job_body v net (task_schedule t) w) as [[[]|e] w1]; reflexivity.
Qed.

(** ** The request handlers *)

Section Handlers.

Variable lib : Imports.

(** [scheduleFromRow] returns an object with the row's columns and only
    reads the clock. *)
Lemma scheduleFromRow_run row w :
  ∃ s n, scheduleFromRow lib row w = (Ret s, with_readings n w)
         ∧ id s = id row ∧ isActive s = isActive row
         ∧ cronExpression s = cronExpression row ∧ status s = status row.
Proof.
  unfold scheduleFromRow, getNextRunTime, bind. destruct w.
  destruct (isActive row) eqn:Ha; [destruct (parseExpression lib _) |]; simpl;
    eexists _, _; (split; [reflexivity | rewrite ?Ha; repeat split]).
Qed.

Lemma select_by_id_update i f rows ex :
  (∀ r, id (f r) = id r) →
  select_by_id i (mkDb (update_where i f rows) ex)
  = f <$> select_by_id i (mkDb rows ex).
Proof.
  intros Hf. unfold select_by_id, update_where. simpl.
  induction rows as [|r rows IH]; simpl; [reflexivity |].
  destruct (decide (id r = i)) as [Hr|Hr].
  - rewrite Hf. rewrite !bool_decide_eq_true_2 by exact Hr. reflexivity.
  - rewrite !bool_decide_eq_false_2 by exact Hr. exact IH.
Qed.

(** A start request for a schedule whose persisted [isActive] is set is
    rejected, and neither arms a timer nor writes to the store. *)
Lemma post_start_active i row w :
  select_by_id i (db w) = Some row → isActive row = true →
  ∃ w', post_start lib i w
        = (Ret (json_error "Schedule is already running" 400), w')
        ∧ db w' = db w ∧ runningJobs w' = runningJobs w ∧ tasks w' = tasks w.
Proof.
  intros Hsel Hact. unfold post_start. rewrite Hsel.
  destruct (scheduleFromRow_run row w) as (s & n & Hrun & _ & Ha & _).
  unfold bind at 1. rewrite Hrun, Ha, Hact.
  eexists. split; [reflexivity |]. simpl. auto.
Qed.

(** C10. In the start-request handler the timer is put into the
    running-jobs registry before the store write that sets isActive = 1:
    when that write throws, the handler answers 500 "Failed to start
    schedule", the new timer stays armed under the schedule's id, and the
    store is as it was, so the persisted row still has isActive = 0. *)
Theorem start_write_failure_leaves_timer i row plan w :
  select_by_id i (db w) = Some row →
  isActive row = false →
  cron_validate lib (cronExpression row) = true →
  faults w = true :: plan →
  ∃ w' t,
    post_start lib i w = (Ret (json_error "Failed to start schedule" 500), w')
    ∧ runningJobs w' !! i = Some (length (tasks w))
    ∧ tasks w' = tasks w ++ [t]
    ∧ task_started t = true ∧ id (task_schedule t) = i
    ∧ db w' = db w
    ∧ select_by_id i (db w') = Some row.
Proof.
  intros Hsel Hact Hcron Hplan. unfold post_start. rewrite Hsel.
  destruct (scheduleFromRow_run row w) as (s & n & Hrun & Hid & Ha & Hc & _).
  unfold bind at 1. rewrite Hrun, Ha, Hact.
  unfold try_catch, bind, startScheduleJob, new_Date, db_run. simpl.
  rewrite Hc, Hcron. simpl. rewrite Hplan. simpl.
  assert (Hi : id row = i).
  { pose proof Hsel as Hs. unfold select_by_id in Hs.
    apply find_some in Hs as [_ H]. apply bool_decide_eq_true_1 in H. exact H. }
  eexists _, _. split; [reflexivity |]. simpl.
  rewrite Hid, Hi, lookup_insert_eq. repeat split; simpl; auto; congruence.
Qed.

Lemma select_after_activate t i d :
  select_by_id i (exec (SqlActivate t i) d) = activate_row t <$> select_by_id i d.
Proof. simpl. rewrite select_by_id_update; [destruct d |]; reflexivity. Qed.

(** What a start request that answers 200 has done. *)
Lemma post_start_success i w r1 w1 :
  post_start lib i w = (Ret r1, w1) → http_status r1 = 200%nat →
  ∃ row now t,
    select_by_id i (db w) = Some row ∧ isActive row = false
    ∧ db w1 = exec (SqlActivate now i) (db w)
    ∧ runningJobs w1 = <[i := length (tasks w)]> (runningJobs w)
    ∧ tasks w1 = tasks w ++ [t]
    ∧ task_started t = true ∧ id (task_schedule t) = i.
Proof.
  unfold post_start. intros H Hok.
  destruct (select_by_id i (db w)) as [row|] eqn:Hsel;
    [| injection H as <- <-; discriminate].
  assert (Hi : id row = i).
  { pose proof Hsel as Hs. unfold select_by_id in Hs.
    apply find_some in Hs as [_ Hs]. apply bool_decide_eq_true_1 in Hs. exact Hs. }
  destruct (scheduleFromRow_run row w) as (s & n & Hrun & Hid & Ha & Hc & _).
  unfold bind at 1 in H. rewrite Hrun, Ha in H.
  destruct (isActive row) eqn:Hact; [injection H as <- <-; discriminate |].
  unfold try_catch, bind, startScheduleJob, new_Date, db_run in H. simpl in H.
  destruct (cron_validate lib (cronExpression s));
    [| injection H as <- <-; discriminate].
  simpl in H.
  assert (Hsel' : ∀ t, select_by_id i (exec (SqlActivate t i) (db w))
                       = Some (activate_row t row)).
  { intros t. rewrite select_after_activate, Hsel. reflexivity. }
  simpl in Hsel'.
  destruct (faults w) as [|[] plan]; simpl in H;
    try (injection H as <- <-; discriminate);
    rewrite Hsel' in H;
    match type of H with
    | context [scheduleFromRow lib ?r ?w0] =>
        destruct (scheduleFromRow_run r w0) as (s2 & n2 & Hrun2 & _);
        rewrite Hrun2 in H
    end;
    injection H as <- <-;
    exists row, (wallclock w n), (mkTask s true); simpl;
    rewrite Hid, Hi; repeat split; auto.
Qed.

Lemma registry_single (m : gmap string nat) i job :
  m !! i = Some job → size (filter (λ kv, kv.1 = i) m) = 1%nat.
Proof.
  intros H.
  assert (Hf : filter (λ kv : string * nat, kv.1 = i) m = {[i := job]}).
  { apply map_eq. intros k. destruct (decide (k = i)) as [->|Hk].
    - rewrite lookup_singleton_eq. apply map_lookup_filter_Some. auto.
    - rewrite lookup_singleton_ne by auto.
      apply map_lookup_filter_None. right. intros x _. exact Hk. }
  rewrite Hf. apply map_size_singleton.
Qed.

(** C7. Two start requests for the same schedule with no stop between
    them, the first of which started it (answered 200): the second is
    rejected with 400 "Schedule is already running" and changes neither the
    store nor the timers; afterwards the registry holds exactly one entry
    for the id, the started timer armed by the first request, which is the
    only timer the two requests created. *)
Theorem second_start_rejected i w r1 w1 r2 w2 :
  post_start lib i w = (Ret r1, w1) → http_status r1 = 200%nat →
  post_start lib i w1 = (r2, w2) →
  r2 = Ret (json_error "Schedule is already running" 400)
  ∧ db w2 = db w1 ∧ runningJobs w2 = runningJobs w1 ∧ tasks w2 = tasks w1
  ∧ size (filter (λ kv, kv.1 = i) (runningJobs w2)) = 1%nat
  ∧ length (tasks w2) = S (length (tasks w))
  ∧ ∃ job t, runningJobs w2 !! i = Some job ∧ tasks w2 !! job = Some t
             ∧ task_started t = true ∧ id (task_schedule t) = i.
Proof.
  intros H1 Hok H2.
  destruct (post_start_success i w r1 w1 H1 Hok)
    as (row & now & t & Hsel & Hact & Hdb & Hreg & Htasks & Hst & Hid).
  destruct (post_start_active i (activate_row now row) w1)
    as (w2' & Hrej & Hdb2 & Hreg2 & Htasks2).
  { rewrite Hdb, select_after_activate, Hsel. reflexivity. }
  { reflexivity. }
  rewrite Hrej in H2. injection H2 as <- <-.
  assert (Hlook : runningJobs w2' !! i = Some (length (tasks w))).
  { rewrite Hreg2, Hreg. apply lookup_insert_eq. }
  repeat split; auto.
  - eapply registry_single, Hlook.
  - rewrite Htasks2, Htasks, length_app. simpl. lia.
  - exists (length (tasks w)), t. repeat split; auto.
    rewrite Htasks2, Htasks. apply list_lookup_middle. reflexivity.
Qed.

(** C4 (as amended). [startScheduleJob] makes no check of the registry:
    for a recurrence expression that validates, and whether or not the id
    already has a timer, it succeeds, creates and starts a new timer and
    binds the id to it, so that the registry holds one entry for the id;
    the rejection "Schedule is already running" is made by the
    start-request handler, from the persisted isActive flag, without
    touching the timers. *)
Theorem startScheduleJob_replaces s w :
  cron_validate lib (cronExpression s) = true →
  let w' := snd (startScheduleJob lib s w) in
  fst (startScheduleJob lib s w) = Ret (length (tasks w))
  ∧ tasks w' = tasks w ++ [mkTask s true]
  ∧ runningJobs w' = <[id s := length (tasks w)]> (runningJobs w)
  ∧ size (filter (λ kv, kv.1 = id s) (runningJobs w')) = 1%nat
  ∧ db w' = db w
  ∧ ∀ row w0, select_by_id (id s) (db w0) = Some row → isActive row = true →
      ∃ w0', post_start lib (id s) w0
             = (Ret (json_error "Schedule is already running" 400), w0')
             ∧ runningJobs w0' = runningJobs w0 ∧ tasks w0' = tasks w0.
Proof.
  intros Hcron. unfold startScheduleJob. rewrite Hcron. simpl.
  repeat split; auto.
  - eapply registry_single, lookup_insert_eq.
  - intros row w0 Hsel Hact.
    destruct (post_start_active (id s) row w0 Hsel Hact) as (w0' & H & _ & Hr & Ht).
    eauto.
Qed.

Lemma select_inserted row d :
  is_Some (select_by_id (id row) (exec (SqlInsertSchedule row) d)).
Proof.
  unfold select_by_id. simpl.
  destruct (find _ (schedules d ++ [row])) as [r|] eqn:Hf; [eauto |].
  assert (Hrow : bool_decide (id row = id row) = false).
  { apply (find_none _ _ Hf row). apply in_or_app. right. left. reflexivity. }
  rewrite bool_decide_eq_true_2 in Hrow by reflexivity. discriminate.
Qed.

(** C8. Creating a schedule is rejected with status 400, and the store
    left as it was, whenever name, recurrence expression or task is
    missing, or maxRetries (3 when absent) is outside 0..10, or retryDelay
    (60 when absent) is outside 0..3600; a request with the three fields
    present, an expression that validates and both retry fields in range
    (maxRetries = 10 and retryDelay = 3600 included) is answered 201, with
    the new row appended as idle, not active and at progress 0, provided
    the INSERT itself does not fail. *)
Theorem create_validation body w :
  ((falsy (b_name body) || falsy (b_cronExpression body) || falsy (b_task body)
      = true
    ∨ ¬ (0 ≤ default 3 (b_maxRetries body) ≤ 10)
    ∨ ¬ (0 ≤ default 60 (b_retryDelay body) ≤ 3600)) →
   ∃ e, post_schedules lib (Some body) w = (Ret (json_error e 400), w))
  ∧ (falsy (b_name body) = false → falsy (b_cronExpression body) = false →
     falsy (b_task body) = false →
     cron_validate lib (default "" (b_cronExpression body)) = true →
     0 ≤ default 3 (b_maxRetries body) ≤ 10 →
     0 ≤ default 60 (b_retryDelay body) ≤ 3600 →
     head (faults w) ≠ Some true →
     ∃ s w' row,
       post_schedules lib (Some body) w
       = (Ret (json_schedule "Schedule created successfully" s 201), w')
       ∧ schedules (db w') = schedules (db w) ++ [row]
       ∧ status row = idle ∧ isActive row = false ∧ progress row = 0
       ∧ maxRetries row = default 3 (b_maxRetries body)
       ∧ retryDelay row = default 60 (b_retryDelay body)).
Proof.
  split.
  - intros Hbad. unfold post_schedules, try_catch, isValidCronExpression.
    destruct (falsy (b_name body) || falsy (b_cronExpression body)
              || falsy (b_task body)) eqn:E1; [eexists; reflexivity |].
    destruct (negb (cron_validate lib _)); [eexists; reflexivity |].
    destruct ((default 3 (b_maxRetries body) <? 0)
              || (default 3 (b_maxRetries body) >? 10)) eqn:E3;
      [eexists; reflexivity |].
    destruct ((default 60 (b_retryDelay body) <? 0)
              || (default 60 (b_retryDelay body) >? 3600)) eqn:E4;
      [eexists; reflexivity |].
    exfalso. apply orb_false_elim in E3 as [E3 E3'], E4 as [E4 E4'].
    rewrite Z.gtb_ltb in E3', E4'. apply Z.ltb_ge in E3, E3', E4, E4'.
    destruct Hbad as [H|[H|H]]; [discriminate | apply H; lia | apply H; lia].
  - intros Hn Hc Ht Hv Hm Hd Hplan.
    unfold post_schedules, try_catch, isValidCronExpression.
    rewrite Hn, Hc, Ht, Hv. simpl.
    assert (E3 : (default 3 (b_maxRetries body) <? 0)
                 || (default 3 (b_maxRetries body) >? 10) = false).
    { rewrite Z.gtb_ltb. apply orb_false_intro; apply Z.ltb_ge; lia. }
    assert (E4 : (default 60 (b_retryDelay body) <? 0)
                 || (default 60 (b_retryDelay body) >? 3600) = false).
    { rewrite Z.gtb_ltb. apply orb_false_intro; apply Z.ltb_ge; lia. }
    rewrite E3, E4. unfold bind, randomUUID, new_Date, db_run. simpl.
    set (row := mkSchedule _ _ _ _ _ _ _ _ _ _ _ _ _ _ _ _ _ _ _ _ _).
    destruct (select_inserted row (db w)) as [r Hr]. simpl in Hr.
    destruct (faults w) as [|[] plan]; simpl in Hplan |- *;
      try congruence; rewrite Hr;
      match goal with
      | |- context [scheduleFromRow lib ?r ?w0] =>
          destruct (scheduleFromRow_run r w0) as (s & n & Hrun & _);
          rewrite Hrun
      end;
      exists s; eexists; exists row; (split; [reflexivity |]);
      simpl; repeat split; reflexivity.
Qed.

End Handlers.

(** ** Recovery *)

Lemma interrupt_loop (body : Schedule → M unit) :
  (∀ job w, no_faults w →
     fst (body job w) = Ret tt ∧ interrupted job w (snd (body job w))) →
  ∀ rows w, no_faults w →
    let res := for_of rows body w in
    fst res = Ret tt
    ∧ progressSubscribers (snd res) = progressSubscribers w
    ∧ Forall2 (settled rows) (schedules (db w)) (schedules (db (snd res)))
    ∧ (∀ x, x ∈ delivered w → x ∈ delivered (snd res))
    ∧ (∀ job subs n, job ∈ rows →
         progressSubscribers w !! id job = Some subs → n ∈ subs →
         ∃ t, (n, interruption (id job) t) ∈ delivered (snd res)).
Proof.
  intros Hbody rows. induction rows as [|job rest IH]; intros w Hw; simpl.
  - repeat split; auto.
    + induction (schedules (db w)); constructor; auto.
      split; [reflexivity |]. intros [H|H]; [exact H |].
      apply elem_of_nil in H. contradiction.
    + intros job subs n H. apply elem_of_nil in H. contradiction.
  - destruct (Hbody job w Hw) as (Hret & t1 & t2 & t3 & Hw1 & Hrows & Hsubs & Hout).
    unfold bind. destruct (body job w) as [[[]|e] w1]; simpl in *; [| discriminate].
    destruct (IH w1 Hw1) as (Hr & Hs & Hf & Hmono & Hev).
    repeat split.
    + exact Hr.
    + rewrite Hs. exact Hsubs.
    + rewrite Hrows in Hf. unfold update_where in Hf.
      apply (proj1 (Forall2_fmap_l _ (settled rest) (schedules (db w)) _)) in Hf.
      apply (Forall2_impl _ _ _ _ Hf).
      intros r r' [Hid Hst]. simpl in Hid, Hst.
      destruct (decide (id r = id job)) as [Heq|Hne]; simpl in Hid, Hst;
        (split; [exact Hid |]); intros Hpre; apply Hst.
      * left. split; reflexivity.
      * destruct Hpre as [Hpre|Hpre]; [left; exact Hpre |].
        apply elem_of_cons in Hpre as [Hpre|Hpre]; [contradiction | right; exact Hpre].
    + intros x Hx. apply Hmono. rewrite Hout. apply elem_of_app. left. exact Hx.
    + intros job' subs n Hin Hlook Hn.
      apply elem_of_cons in Hin as [->|Hin].
      * exists t3. apply Hmono. rewrite Hout, Hlook. simpl.
        apply elem_of_app. right.
        apply (list_elem_of_fmap_2 (λ n, (n, interruption (id job) t3))). exact Hn.
      * apply (Hev job' subs n Hin); [rewrite Hsubs; exact Hlook | exact Hn].
Qed.

Lemma no_faults_tail w plan : no_faults w → faults w = false :: plan →
  Forall (λ b, b = false) plan.
Proof. unfold no_faults. intros H E. rewrite E in H. inversion H. assumption. Qed.

(** The recovery step, when none of its writes fails. *)
Lemma cleanupRunningJobs_effect w :
  no_faults w →
  let w' := snd (cleanupRunningJobs w) in
  fst (cleanupRunningJobs w) = Ret tt
  ∧ (∀ k r, schedules (db w) !! k = Some r → status r = running →
       ∃ r', schedules (db w') !! k = Some r' ∧ id r' = id r
             ∧ status r' = failed ∧ progress r' = 0)
  ∧ (∀ r subs n, r ∈ schedules (db w) → status r = running →
       progressSubscribers w !! id r = Some subs → n ∈ subs →
       ∃ t, (n, interruption (id r) t) ∈ delivered w').
Proof.
  intros Hw. unfold cleanupRunningJobs.
  assert (Hrun : ∀ r, r ∈ schedules (db w) → status r = running →
                      r ∈ select_by_status running (db w)).
  { intros r Hin Hst. unfold select_by_status. apply list_elem_of_In.
    apply filter_In. split; [apply list_elem_of_In, Hin |].
    apply bool_decide_eq_true_2, Hst. }
  match goal with
  | |- context [for_of ?l ?body w] =>
      assert (Hbody : ∀ job w, no_faults w →
                fst (body job w) = Ret tt ∧ interrupted job w (snd (body job w)));
      [| destruct (interrupt_loop body Hbody l w Hw)
           as (Hret & Hsubs & Hrows & _ & Hev)]
  end.
  { clear. intros job w Hw. unfold bind, new_Date, db_run, broadcastProgress.
    simpl. unfold interrupted.
    destruct (faults w) as [|[] plan] eqn:Hplan; simpl.
    - split; [destruct (progressSubscribers w !! id job); reflexivity |].
      eexists _, _, _.
      destruct (progressSubscribers w !! id job); simpl;
        (split; [constructor |]); repeat split; rewrite ?app_nil_r; reflexivity.
    - unfold no_faults in Hw. rewrite Hplan in Hw. inversion Hw. discriminate.
    - pose proof (no_faults_tail w plan Hw Hplan) as Hp.
      split; [destruct (progressSubscribers w !! id job); reflexivity |].
      eexists _, _, _.
      destruct (progressSubscribers w !! id job); simpl;
        (split; [exact Hp |]); repeat split; rewrite ?app_nil_r; reflexivity. }
  split; [exact Hret |]. split.
  - intros k r Hk Hst.
    destruct (Forall2_lookup_l _ _ _ _ _ Hrows Hk) as (r' & Hk' & Hid & Hset).
    exists r'. split; [exact Hk' |]. split; [exact Hid |].
    apply Hset. right. apply list_elem_of_fmap_2, Hrun; [| exact Hst].
    apply list_elem_of_lookup. eauto.
  - intros r subs n Hin Hst Hlook Hn. apply (Hev r subs n); auto.
Qed.

(** The repair statement is the only statement of the recovery step, and
    it leaves the current job id of every row as it is. *)
Lemma frame_job_id (L : list (option string)) :
  frame (λ s, ∃ p t1 t2 i, s = SqlInterrupt p t1 t2 i)
    (λ w, currentJobId <$> schedules (db w) = L).
Proof.
  split; try (intros; assumption).
  intros s plan w (p & t1 & t2 & i & ->) H. simpl. rewrite <- H.
  unfold update_where. rewrite <- list_fmap_compose.
  apply list_fmap_ext. intros k r _. simpl.
  destruct (decide (id r = i)); reflexivity.
Qed.

Lemma cleanupRunningJobs_keeps_currentJobId w :
  currentJobId <$> schedules (db (snd (cleanupRunningJobs w)))
  = currentJobId <$> schedules (db w).
Proof.
  pose proof (frame_job_id (currentJobId <$> schedules (db w))) as F.
  unfold cleanupRunningJobs.
  apply stable_for_of; [| reflexivity]. intros job.
  apply stable_bind; [eapply stable_new_Date, F | intros t1].
  apply stable_bind; [eapply stable_new_Date, F | intros t2].
  apply stable_bind;
    [eapply stable_db_run; [exact F | do 4 eexists; reflexivity] | intros _].
  apply stable_bind; [eapply stable_new_Date, F | intros t3].
  intros w0 H0. unfold broadcastProgress.
  destruct (progressSubscribers w0 !! _); exact H0.
Qed.

(** Hence the repair breaks the run-state invariant of every row it
    repairs: a row that was 'running' with its job id is 'failed' with the
    same job id afterwards. *)
Lemma cleanupRunningJobs_breaks_run_state w k r :
  no_faults w → schedules (db w) !! k = Some r →
  status r = running → run_state_ok r →
  ∃ r', schedules (db (snd (cleanupRunningJobs w))) !! k = Some r'
        ∧ id r' = id r ∧ status r' = failed
        ∧ currentJobId r' = currentJobId r ∧ ¬ run_state_ok r'.
Proof.
  intros Hw Hk Hst Hok.
  destruct (cleanupRunningJobs_effect w Hw) as (_ & Hrows & _).
  destruct (Hrows k r Hk Hst) as (r' & Hk' & Hid & Hst' & _).
  assert (Hjob : currentJobId r' = currentJobId r).
  { pose proof (cleanupRunningJobs_keeps_currentJobId w) as H.
    apply (f_equal (λ l, l !! k)) in H. rewrite !list_lookup_fmap in H.
    rewrite Hk, Hk' in H. simpl in H. congruence. }
  exists r'. repeat split; auto.
  intros [Hbad _]. destruct Hok as [_ Hok].
  rewrite Hjob, Hst' in Hbad. specialize (Hbad (Hok Hst)). discriminate.
Qed.

Section Startup.

Variable lib : Imports.

(** Re-arming the active schedules writes nothing to the store and
    publishes nothing. *)
Lemma restoreActiveSchedules_store D J O :
  stable (λ w, db w = D ∧ journal w = J ∧ delivered w = O)
    (restoreActiveSchedules lib).
Proof.
  intros w H. unfold restoreActiveSchedules.
  apply stable_for_of; [| exact H]. intros row.
  apply stable_bind.
  - intros w0 H0. destruct (scheduleFromRow_run lib row w0) as (s & n & Hrun & _).
    rewrite Hrun. exact H0.
  - intros s. apply stable_bind; [| intros; apply stable_ret].
    intros w0 H0. unfold startScheduleJob.
    destruct (cron_validate lib (cronExpression s)); exact H0.
Qed.

(** C2 (as amended). Whenever the recovery step [cleanupRunningJobs] is
    run and none of its store writes fails, it returns normally, every
    schedule whose persisted status is 'running' has its status forced to
    'failed' and its progress set to 0, and the interruption event is
    delivered to every subscriber registered for that schedule before
    recovery.  Process startup does not run it: beyond
    [initializeDatabase], [initializeSystem] only re-arms the active
    schedules, and leaves the store, the journal and the subscribers'
    streams as [initializeDatabase] left them. *)
Theorem recovery_when_run w :
  no_faults w →
  let w' := snd (cleanupRunningJobs w) in
  fst (cleanupRunningJobs w) = Ret tt
  ∧ (∀ k r, schedules (db w) !! k = Some r → status r = running →
       ∃ r', schedules (db w') !! k = Some r' ∧ id r' = id r
             ∧ status r' = failed ∧ progress r' = 0)
  ∧ (∀ r subs n, r ∈ schedules (db w) → status r = running →
       progressSubscribers w !! id r = Some subs → n ∈ subs →
       ∃ t, (n, interruption (id r) t) ∈ delivered w')
  ∧ db (snd (initializeSystem lib w)) = db (snd (initializeDatabase lib w))
  ∧ journal (snd (initializeSystem lib w))
    = journal (snd (initializeDatabase lib w))
  ∧ delivered (snd (initializeSystem lib w))
    = delivered (snd (initializeDatabase lib w)).
Proof.
  intros Hw. destruct (cleanupRunningJobs_effect w Hw) as (Hret & Hrows & Hev).
  split; [exact Hret |]. split; [exact Hrows |]. split; [exact Hev |].
  unfold initializeSystem, bind.
  destruct (initializeDatabase lib w) as [[[]|e] w0]; simpl; [| auto].
  apply (restoreActiveSchedules_store (db w0) (journal w0) (delivered w0) w0).
  auto.
Qed.

End Startup.

(** ** The job body's guard and the next run time *)

(** [runManually] reads the row before it runs the job body, so there the
    guard sees the persisted status. *)
Lemma runManually_guard v net i row w :
  select_by_id i (db w) = Some row → status row = running →
  runManually (job_body v net) i w = (Ret tt, w).
Proof.
  intros Hsel Hst. unfold runManually. rewrite Hsel.
  apply job_body_guard, Hst.
Qed.

(** [getNextRunTime] is null for an expression cron-parser cannot parse,
    and what cron-parser's iterator gives otherwise. *)
Lemma getNextRunTime_unparsable lib e w :
  parseExpression lib e = None → getNextRunTime lib e w = (Ret None, w).
Proof. intros H. unfold getNextRunTime. rewrite H. reflexivity. Qed.

Lemma getNextRunTime_parsed lib e interval w :
  parseExpression lib e = Some interval →
  fst (getNextRunTime lib e w) = Ret (interval (wallclock w (readings w))).
Proof. intros H. unfold getNextRunTime. rewrite H. reflexivity. Qed.

(** ** Runs of the model *)

Ltac run := vm_compute; reflexivity.
Ltac conjs := repeat lazymatch goal with |- _ ∧ _ => apply conj end.

(** C1. A run that DHIS2 interrupts leaves schedule s1 'running' with
    current job id "uuid-0", in accordance with the invariant; the repair
    of [cleanupRunningJobs] then sets the status to 'failed' and keeps the
    job id, so that afterwards a current job id is present although the
    status is not 'running'. *)
Example cleanupRunningJobs_keeps_job_id :
  Forall run_state_ok (schedules (db Demo.stranded))
  ∧ status <$> schedules (db Demo.stranded) = [running]
  ∧ status <$> schedules (db (snd (cleanupRunningJobs Demo.stranded))) = [failed]
  ∧ currentJobId <$> schedules (db (snd (cleanupRunningJobs Demo.stranded)))
    = [Some "uuid-0"]
  ∧ ¬ Forall run_state_ok (schedules (db (snd (cleanupRunningJobs Demo.stranded)))).
Proof.
  conjs; try run.
  - vm_compute. constructor; [| constructor].
    split; [intros _; reflexivity | intros _ E; discriminate E].
  - intros H. vm_compute in H. apply Forall_inv in H. cbv beta iota in H.
    destruct H as [H _].
    assert (E : failed = running) by (apply H; intros E; discriminate E).
    discriminate E.
Qed.

(** C2, counterexample. A store found at startup with schedule s1
    'running': [initializeSystem] returns normally, re-arms s1 and leaves
    it 'running'; nothing is published. *)
Example initializeSystem_skips_recovery :
  status <$> schedules (db Demo.crashed) = [running]
  ∧ progressSubscribers Demo.crashed !! "s1" = Some [4%nat]
  ∧ fst (initializeSystem Demo.lib Demo.crashed) = Ret tt
  ∧ status <$> schedules (db (snd (initializeSystem Demo.lib Demo.crashed)))
    = [running]
  ∧ runningJobs (snd (initializeSystem Demo.lib Demo.crashed)) !! "s1"
    = Some 0%nat
  ∧ delivered (snd (initializeSystem Demo.lib Demo.crashed)) = [].
Proof. conjs; run. Qed.

(** The recovery step run on the store found after a crash, with one
    subscriber listening. *)
Lemma recovery_when_run_witness :
  no_faults Demo.crashed
  ∧ fst (cleanupRunningJobs Demo.crashed) = Ret tt
  ∧ (∃ r', schedules (db (snd (cleanupRunningJobs Demo.crashed))) !! 0%nat
           = Some r'
           ∧ id r' = "s1" ∧ status r' = failed ∧ progress r' = 0)
  ∧ (∃ t, (4%nat, interruption "s1" t)
          ∈ delivered (snd (cleanupRunningJobs Demo.crashed))).
Proof.
  assert (Hw : no_faults Demo.crashed) by constructor.
  destruct (recovery_when_run Demo.lib Demo.crashed Hw) as (Hret & Hrows & Hev & _).
  split; [exact Hw |]. split; [exact Hret |]. split.
  - apply (Hrows 0%nat (Demo.daily running true (Some "uuid-0")));
      vm_compute; reflexivity.
  - apply (Hev (Demo.daily running true (Some "uuid-0")) [4%nat] 4%nat).
    + apply list_elem_of_here.
    + reflexivity.
    + vm_compute; reflexivity.
    + apply list_elem_of_here.
Defined.

(** C3, counterexample. The first fire of the timer of s1 while DHIS2 is
    unreachable: the job body raises, and after the fire the schedule is
    still 'running' with the message of the step that failed, and the
    execution record is still 'running' with no end time. *)
Example fire_failure_not_recorded :
  tasks Demo.started !! 0%nat = Some (mkTask (Demo.daily idle false None) true)
  ∧ fst (queryDHIS2 Demo.offline (Demo.daily idle false None) Demo.started)
    = Throw "AxiosError"
  ∧ fst (fire (queryDHIS2 Demo.offline) 0 Demo.started) = Ret tt
  ∧ status <$> schedules (db Demo.stranded) = [running]
  ∧ message <$> schedules (db Demo.stranded)
    = [Some "Fetching organisation units"]
  ∧ job_executions (db Demo.stranded)
    = [mkExecution "uuid-0" "s1" 5002 None running].
Proof. conjs; run. Qed.

(** C4, counterexample. Schedule s1 already has timer 0 in the registry;
    [startScheduleJob] for s1 returns normally with a new timer 1, binds
    s1 to it, and leaves timer 0 started. *)
Example startScheduleJob_rearms :
  runningJobs Demo.started !! "s1" = Some 0%nat
  ∧ fst (startScheduleJob Demo.lib (Demo.daily idle false None) Demo.started)
    = Ret 1%nat
  ∧ runningJobs
      (snd (startScheduleJob Demo.lib (Demo.daily idle false None) Demo.started))
    !! "s1" = Some 1%nat
  ∧ task_started
    <$> tasks (snd (startScheduleJob Demo.lib (Demo.daily idle false None)
                      Demo.started))
    = [true; true].
Proof. conjs; run. Qed.

(** Arming s1 again while its timer is in the registry. *)
Lemma startScheduleJob_replaces_witness :
  cron_validate Demo.lib (cronExpression (Demo.daily idle false None)) = true
  ∧ fst (startScheduleJob Demo.lib (Demo.daily idle false None) Demo.started)
    = Ret (length (tasks Demo.started))
  ∧ size (filter (λ kv, kv.1 = "s1")
            (runningJobs (snd (startScheduleJob Demo.lib
                                 (Demo.daily idle false None) Demo.started))))
    = 1%nat.
Proof.
  assert (H : cron_validate Demo.lib (cronExpression (Demo.daily idle false None))
              = true) by run.
  destruct (startScheduleJob_replaces Demo.lib (Demo.daily idle false None)
              Demo.started H) as (Hret & _ & _ & Hone & _).
  conjs; assumption.
Defined.

(** C5. After the interrupted first run the persisted status of s1 is
    'running', while the schedule object its timer closed over still says
    'idle'; the next fire starts a second run: it inserts a second
    execution record, rewrites the run state and goes on to the downstream
    work. *)
Example second_fire_runs_while_running :
  status <$> schedules (db Demo.stranded) = [running]
  ∧ status ∘ task_schedule <$> tasks Demo.stranded = [idle]
  ∧ journal (snd (fire (queryDHIS2 Demo.online) 0 Demo.stranded))
    = journal Demo.stranded
      ++ [SqlInsertExecution "uuid-1" "s1" 5003 running;
          SqlTaskStarted "uuid-1" "s1";
          SqlMessage "Fetching organisation units" "s1";
          SqlProgress 200 "Completed step 1 of 1 (Kampala)" "ou1";
          SqlSealExecution 5004 completed "uuid-1";
          SqlTaskCompleted 5004 "s1"]
  ∧ ex_id <$> job_executions
                (db (snd (fire (queryDHIS2 Demo.online) 0 Demo.stranded)))
    = ["uuid-0"; "uuid-1"]
  ∧ ex_id <$> job_executions
                (db (snd (fire (queryDHIS2' Demo.online) 0 Demo.stranded)))
    = ["uuid-0"; "uuid-1"].
Proof. conjs; run. Qed.

(** Two start requests for s1 in a row. *)
Lemma second_start_rejected_witness :
  post_start Demo.lib "s1" Demo.fresh
  = (Ret (json_schedule "Schedule started successfully" Demo.started_view 200),
     Demo.started)
  ∧ fst (post_start Demo.lib "s1" Demo.started)
    = Ret (json_error "Schedule is already running" 400)
  ∧ size (filter (λ kv, kv.1 = "s1")
            (runningJobs (snd (post_start Demo.lib "s1" Demo.started))))
    = 1%nat
  ∧ length (tasks (snd (post_start Demo.lib "s1" Demo.started))) = 1%nat.
Proof.
  assert (H1 : post_start Demo.lib "s1" Demo.fresh
               = (Ret (json_schedule "Schedule started successfully"
                         Demo.started_view 200), Demo.started)) by run.
  destruct (second_start_rejected Demo.lib "s1" Demo.fresh _ _
              (fst (post_start Demo.lib "s1" Demo.started))
              (snd (post_start Demo.lib "s1" Demo.started))
              H1 eq_refl (surjective_pairing _))
    as (Hrej & _ & _ & _ & Hone & Hlen & _).
  conjs; assumption.
Defined.

(** The boundary cases: maxRetries = 11 is rejected; maxRetries = 10 with
    retryDelay = 3600 is accepted. *)
Lemma create_validation_witness :
  ¬ (0 ≤ default 3 (b_maxRetries (Demo.creation (Some 11) None)) ≤ 10)
  ∧ (∃ e, post_schedules Demo.lib (Some (Demo.creation (Some 11) None))
            Demo.fresh
          = (Ret (json_error e 400), Demo.fresh))
  ∧ (∃ s w' row,
       post_schedules Demo.lib (Some (Demo.creation (Some 10) (Some 3600)))
         Demo.fresh
       = (Ret (json_schedule "Schedule created successfully" s 201), w')
       ∧ schedules (db w') = schedules (db Demo.fresh) ++ [row]
       ∧ maxRetries row = 10 ∧ retryDelay row = 3600).
Proof.
  assert (Hbad : ¬ (0 ≤ default 3 (b_maxRetries (Demo.creation (Some 11) None))
                    ≤ 10)) by (simpl; lia).
  split; [exact Hbad |]. split.
  - apply (proj1 (create_validation Demo.lib (Demo.creation (Some 11) None)
                    Demo.fresh)).
    right. left. exact Hbad.
  - destruct (proj2 (create_validation Demo.lib
                       (Demo.creation (Some 10) (Some 3600)) Demo.fresh))
      as (s & w' & row & Hpost & Hrows & _ & _ & _ & Hm & Hd);
      try reflexivity; try (simpl; lia); try (simpl; discriminate).
    exists s, w', row. conjs; assumption.
Defined.

(** C9. A run of the first variant over a single organisation unit:
    the only step of the loop computes Math.round((1 + 1 / 1) * 100) and
    runs the UPDATE with progress = 200. *)
Example first_variant_progress_200 :
  journal (snd (queryDHIS2 Demo.online (Demo.daily idle true None)
                  (Demo.boot [Demo.daily idle true None] [])))
  = [SqlInsertExecution "uuid-0" "s1" 5000 running;
     SqlTaskStarted "uuid-0" "s1";
     SqlMessage "Fetching organisation units" "s1";
     SqlProgress 200 "Completed step 1 of 1 (Kampala)" "ou1";
     SqlSealExecution 5001 completed "uuid-0";
     SqlTaskCompleted 5001 "s1"]
  ∧ written_progress (SqlProgress 200 "Completed step 1 of 1 (Kampala)" "ou1")
    = Some 200
  ∧ ¬ (0 ≤ 200 ≤ 100).
Proof. split; [run | split; [reflexivity | lia]]. Qed.

(** The UPDATE of the loop is keyed by the organisation unit's id: when a
    row of the table carries that id, it is that row which ends with the
    progress 200, next to the schedule that was run. *)
Example first_variant_progress_lands :
  (λ r, (id r, progress r))
  <$> schedules
        (db (snd (queryDHIS2 Demo.online (Demo.daily idle true None)
                    (Demo.boot [Demo.daily idle true None; Demo.homonym] []))))
  = [("s1", 100); ("ou1", 200)].
Proof. run. Qed.

(** A start request for s1 whose store write throws. *)
Lemma start_write_failure_leaves_timer_witness :
  select_by_id "s1" (db (Demo.boot [Demo.daily idle false None] [true]))
  = Some (Demo.daily idle false None)
  ∧ faults (Demo.boot [Demo.daily idle false None] [true]) = [true]
  ∧ ∃ w' t,
      post_start Demo.lib "s1" (Demo.boot [Demo.daily idle false None] [true])
      = (Ret (json_error "Failed to start schedule" 500), w')
      ∧ runningJobs w' !! "s1" = Some 0%nat
      ∧ tasks w' = [t] ∧ task_started t = true
      ∧ select_by_id "s1" (db w') = Some (Demo.daily idle false None).
Proof.
  assert (H1 : select_by_id "s1" (db (Demo.boot [Demo.daily idle false None] [true]))
               = Some (Demo.daily idle false None)) by run.
  destruct (start_write_failure_leaves_timer Demo.lib "s1"
              (Demo.daily idle false None) []
              (Demo.boot [Demo.daily idle false None] [true])
              H1 eq_refl eq_refl eq_refl)
    as (w' & t & Hpost & Hreg & Htasks & Hst & _ & _ & Hsel).
  split; [exact H1 |]. split; [reflexivity |].
  exists w', t. conjs; assumption.
Defined.

(** * The other routes *)

Lemma select_by_id_Some i d row : select_by_id i d = Some row → id row = i.
Proof.
  unfold select_by_id. intros H. apply find_some in H as [_ H].
  apply bool_decide_eq_true_1 in H. exact H.
Qed.

Lemma select_by_id_None i d r :
  select_by_id i d = None → r ∈ schedules d → id r ≠ i.
Proof.
  unfold select_by_id. intros H Hin Hid.
  pose proof (find_none _ _ H r (proj1 (list_elem_of_In _ _) Hin)) as Hr.
  simpl in Hr. rewrite bool_decide_eq_true_2 in Hr by exact Hid. discriminate.
Qed.

Lemma select_after_deactivate t i d :
  select_by_id i (exec_more (SqlDeactivate t i) d)
  = deactivate_row t <$> select_by_id i d.
Proof. simpl. rewrite select_by_id_update; [destruct d |]; reflexivity. Qed.

Lemma select_after_edit nm cron tsk t m dl per un card ch i d :
  select_by_id i (exec_more (SqlEdit nm cron tsk t m dl per un card ch i) d)
  = edit_row nm cron tsk t m dl per un card ch <$> select_by_id i d.
Proof. simpl. rewrite select_by_id_update; [destruct d |]; reflexivity. Qed.

Lemma select_after_delete i j d :
  select_by_id j (exec_more (SqlDelete i) d)
  = if decide (j = i) then None else select_by_id j d.
Proof.
  unfold select_by_id. simpl. induction (schedules d) as [|r rows IH]; simpl.
  - destruct (decide (j = i)); reflexivity.
  - destruct (decide (id r = i)) as [Hr|Hr].
    + rewrite (bool_decide_eq_true_2 (id r = i)) by exact Hr. simpl.
      rewrite IH. destruct (decide (j = i)) as [Hj|Hj]; [reflexivity |].
      rewrite bool_decide_eq_false_2 by congruence. reflexivity.
    + rewrite (bool_decide_eq_false_2 (id r = i)) by exact Hr. simpl.
      rewrite IH. destruct (decide (j = i)) as [Hj|Hj]; [| reflexivity].
      rewrite bool_decide_eq_false_2 by congruence. reflexivity.
Qed.

Lemma deactivate_activate t1 t2 row :
  isActive row = false →
  deactivate_row t2 (activate_row t1 row)
  = set_progress 0 (set_status idle (set_updatedAt t2 (set_updatedAt t1 row))).
Proof. destruct row; simpl; intros ->; reflexivity. Qed.

Section MoreRoutes.

Variable lib : Imports.

Lemma scheduleFromRow_view row w :
  ∃ next n, scheduleFromRow lib row w = (Ret (view_of next row), with_readings n w).
Proof.
  unfold scheduleFromRow, getNextRunTime, bind, view_of. destruct w.
  destruct (isActive row) eqn:Ha; [destruct (parseExpression lib _) |]; simpl;
    eexists _, _; reflexivity.
Qed.

Lemma scheduleFromRow_inactive row w :
  isActive row = false → scheduleFromRow lib row w = (Ret (view_of None row), w).
Proof.
  intros H. unfold scheduleFromRow, bind, view_of. rewrite H. reflexivity.
Qed.

(** X1. Every route addressed to an id that no row carries answers 404
    "Schedule not found" and leaves the whole process state as it is; for
    the edit route this is so when the body is JSON: the body is parsed
    before the id is looked up, and a body that is not JSON makes the
    handler throw, here as for every id. *)
Theorem unknown_id_not_found i w body conn :
  select_by_id i (db w) = None →
  get_schedule lib i w = (Ret (json_error "Schedule not found" 404), w)
  ∧ put_schedule lib i (Some body) w
    = (Ret (json_error "Schedule not found" 404), w)
  ∧ put_schedule lib i None w = (Throw "SyntaxError", w)
  ∧ post_start lib i w = (Ret (json_error "Schedule not found" 404), w)
  ∧ post_stop lib i w = (Ret (json_error "Schedule not found" 404), w)
  ∧ delete_schedule i w = (Ret (json_error "Schedule not found" 404), w)
  ∧ get_progress conn i w = (Ret (json_error "Schedule not found" 404), w).
Proof.
  intros H.
  unfold get_schedule, put_schedule, req_json, post_start, post_stop,
    delete_schedule, get_progress, bind, ret, throw.
  rewrite H. repeat split; reflexivity.
Qed.

(** X2. Stopping a schedule whose persisted isActive is 0 is rejected with
    400 "Schedule is not running"; nothing is written, no timer is touched
    and not even the clock is read. *)
Theorem stop_inactive_rejected i row w :
  select_by_id i (db w) = Some row → isActive row = false →
  post_stop lib i w = (Ret (json_error "Schedule is not running" 400), w).
Proof.
  intros Hsel Hact. unfold post_stop. rewrite Hsel. unfold bind at 1.
  rewrite (scheduleFromRow_inactive row w Hact). simpl. rewrite Hact.
  reflexivity.
Qed.

(** What a stop request does to an active schedule when its write
    succeeds. *)
Lemma post_stop_effect i row w :
  select_by_id i (db w) = Some row → isActive row = true →
  head (faults w) ≠ Some true →
  ∃ now next w',
    post_stop lib i w
    = (Ret (json_schedule "Schedule stopped successfully"
              (view_of next (deactivate_row now row)) 200), w')
    ∧ db w' = exec_more (SqlDeactivate now i) (db w)
    ∧ runningJobs w' = delete i (runningJobs w)
    ∧ tasks w'
      = match runningJobs w !! i with
        | Some job => alter stopped job (tasks w)
        | None => tasks w
        end
    ∧ faults w' = tail (faults w)
    ∧ journal w' = journal w
    ∧ progressSubscribers w' = progressSubscribers w
    ∧ delivered w' = delivered w.
Proof.
  intros Hsel Hact Hplan. unfold post_stop. rewrite Hsel.
  destruct (scheduleFromRow_view row w) as (nx & n & Hrun).
  unfold bind at 1. rewrite Hrun. simpl. rewrite Hact. simpl.
  unfold try_catch, bind, disarm, new_Date, db_run_more. simpl.
  assert (Hsel' : ∀ t, select_by_id i (exec_more (SqlDeactivate t i) (db w))
                       = Some (deactivate_row t row)).
  { intros t. rewrite select_after_deactivate, Hsel. reflexivity. }
  simpl in Hsel'.
  destruct (runningJobs w !! i) as [job|] eqn:Hreg; simpl;
    (destruct (faults w) as [|[] plan]; simpl in Hplan |- *;
       [| congruence |]);
    rewrite Hsel';
    match goal with
    | |- context [scheduleFromRow lib ?r ?w0] =>
        destruct (scheduleFromRow_view r w0) as (nx2 & n2 & Hrun2);
        rewrite Hrun2
    end;
    simpl; eexists _, _, _; (split; [reflexivity |]); simpl;
    repeat split; try reflexivity.
  all: symmetry; apply delete_id; exact Hreg.
Qed.

(** What a start request does to an inactive schedule whose expression
    validates, when its write succeeds. *)
Lemma post_start_effect i row w :
  select_by_id i (db w) = Some row → isActive row = false →
  cron_validate lib (cronExpression row) = true →
  head (faults w) ≠ Some true →
  ∃ now next w',
    post_start lib i w
    = (Ret (json_schedule "Schedule started successfully"
              (view_of next (activate_row now row)) 200), w')
    ∧ db w' = exec (SqlActivate now i) (db w)
    ∧ runningJobs w' = <[i := length (tasks w)]> (runningJobs w)
    ∧ tasks w' = tasks w ++ [mkTask (view_of None row) true]
    ∧ faults w' = tail (faults w)
    ∧ progressSubscribers w' = progressSubscribers w
    ∧ delivered w' = delivered w.
Proof.
  intros Hsel Hact Hcron Hplan. unfold post_start. rewrite Hsel.
  pose proof (select_by_id_Some _ _ _ Hsel) as Hid.
  unfold bind at 1. rewrite (scheduleFromRow_inactive row w Hact). simpl.
  rewrite Hact.
  unfold try_catch, bind, startScheduleJob, new_Date, db_run. simpl.
  rewrite Hcron. simpl.
  assert (Hsel' : ∀ t, select_by_id i (exec (SqlActivate t i) (db w))
                       = Some (activate_row t row)).
  { intros t. rewrite select_after_activate, Hsel. reflexivity. }
  simpl in Hsel'.
  destruct (faults w) as [|[] plan]; simpl in Hplan |- *; [| congruence |];
    rewrite Hsel';
    match goal with
    | |- context [scheduleFromRow lib ?r ?w0] =>
        destruct (scheduleFromRow_view r w0) as (nx2 & n2 & Hrun2);
        rewrite Hrun2
    end;
    simpl; eexists _, _, _; (split; [reflexivity |]); simpl;
    rewrite Hid; repeat split; reflexivity.
Qed.

(** X3. Stopping an active schedule (its write succeeding) answers 200;
    the id is no longer in the registry and the timer it was bound to is
    stopped; the row gets isActive = 0 and status 'idle'.  Progress,
    current job id and last run of the row, and the job_executions table,
    are left as they are: a run in flight is neither cancelled nor
    recorded. *)
Theorem stop_active_disarms i row w :
  select_by_id i (db w) = Some row → isActive row = true →
  head (faults w) ≠ Some true →
  ∃ view row' w',
    post_stop lib i w
    = (Ret (json_schedule "Schedule stopped successfully" view 200), w')
    ∧ runningJobs w' !! i = None
    ∧ (∀ job t, runningJobs w !! i = Some job → tasks w !! job = Some t →
         tasks w' !! job = Some (stopped t))
    ∧ select_by_id i (db w') = Some row'
    ∧ isActive row' = false ∧ status row' = idle
    ∧ progress row' = progress row ∧ currentJobId row' = currentJobId row
    ∧ lastRun row' = lastRun row
    ∧ job_executions (db w') = job_executions (db w)
    ∧ isActive view = false ∧ status view = idle.
Proof.
  intros Hsel Hact Hplan.
  destruct (post_stop_effect i row w Hsel Hact Hplan)
    as (now & next & w' & Hpost & Hdb & Hreg & Htasks & _).
  exists (view_of next (deactivate_row now row)), (deactivate_row now row), w'.
  split; [exact Hpost |]. split; [rewrite Hreg; apply lookup_delete_eq |].
  split.
  { intros job t Hjob Ht. rewrite Htasks, Hjob.
    rewrite list_lookup_alter_eq, Ht. reflexivity. }
  split; [rewrite Hdb, select_after_deactivate, Hsel; reflexivity |].
  rewrite Hdb. repeat split; reflexivity.
Qed.

(** X4. When the write of a stop request throws, the handler answers 500
    "Failed to stop schedule" although the timer is already stopped and
    out of the registry; the row keeps isActive = 1, so a start request
    that follows is rejected as already running while no timer is armed. *)
Theorem stop_write_failure_disarms i row plan w :
  select_by_id i (db w) = Some row → isActive row = true →
  faults w = true :: plan →
  ∃ w',
    post_stop lib i w = (Ret (json_error "Failed to stop schedule" 500), w')
    ∧ runningJobs w' !! i = None
    ∧ (∀ job t, runningJobs w !! i = Some job → tasks w !! job = Some t →
         tasks w' !! job = Some (stopped t))
    ∧ db w' = db w
    ∧ fst (post_start lib i w')
      = Ret (json_error "Schedule is already running" 400).
Proof.
  intros Hsel Hact Hplan. unfold post_stop. rewrite Hsel.
  destruct (scheduleFromRow_view row w) as (nx & n & Hrun).
  unfold bind at 1. rewrite Hrun. simpl. rewrite Hact. simpl.
  unfold try_catch, bind, disarm, new_Date, db_run_more. simpl.
  destruct (runningJobs w !! i) as [job|] eqn:Hreg; simpl; rewrite Hplan; simpl;
    eexists; (split; [reflexivity |]); simpl.
  - split; [apply lookup_delete_eq |]. split.
    { intros job' t Hjob Ht. injection Hjob as <-.
      rewrite list_lookup_alter_eq, Ht. reflexivity. }
    split; [reflexivity |].
    match goal with
    | |- fst (post_start lib i ?w0) = _ =>
        destruct (post_start_active lib i row w0) as (w2 & Hrej & _);
        [exact Hsel | exact Hact | rewrite Hrej; reflexivity]
    end.
  - split; [exact Hreg |]. split; [intros job t Hjob; discriminate Hjob |].
    split; [reflexivity |].
    match goal with
    | |- fst (post_start lib i ?w0) = _ =>
        destruct (post_start_active lib i row w0) as (w2 & Hrej & _);
        [exact Hsel | exact Hact | rewrite Hrej; reflexivity]
    end.
Qed.

(** X5. Start then stop, with no write failing, on an inactive schedule
    that has no timer: both requests answer 200; the registry is back to
    what it was and the one timer that was created is stopped; the row is
    not active, 'idle', at progress 0, whatever its status and progress
    were, with its other columns but updatedAt kept. *)
Theorem start_stop_round_trip i row w :
  select_by_id i (db w) = Some row → isActive row = false →
  cron_validate lib (cronExpression row) = true →
  no_faults w → runningJobs w !! i = None →
  ∃ r1 w1 r2 w2 t1 t2,
    post_start lib i w = (Ret r1, w1) ∧ http_status r1 = 200%nat
    ∧ post_stop lib i w1 = (Ret r2, w2) ∧ http_status r2 = 200%nat
    ∧ runningJobs w2 = runningJobs w
    ∧ tasks w2 = tasks w ++ [mkTask (view_of None row) false]
    ∧ select_by_id i (db w2)
      = Some (set_progress 0
                (set_status idle (set_updatedAt t2 (set_updatedAt t1 row)))).
Proof.
  intros Hsel Hact Hcron Hw Hreg.
  assert (Hplan : head (faults w) ≠ Some true).
  { unfold no_faults in Hw. destruct (faults w) as [|b plan]; simpl; [discriminate |].
    inversion Hw; subst. discriminate. }
  destruct (post_start_effect i row w Hsel Hact Hcron Hplan)
    as (t1 & nx1 & w1 & Hstart & Hdb1 & Hreg1 & Htasks1 & Hf1 & _).
  assert (Hsel1 : select_by_id i (db w1) = Some (activate_row t1 row)).
  { rewrite Hdb1, select_after_activate, Hsel. reflexivity. }
  assert (Hplan1 : head (faults w1) ≠ Some true).
  { rewrite Hf1. unfold no_faults in Hw.
    destruct (faults w) as [|b [|b' plan]]; simpl; try discriminate.
    inversion Hw as [|? ? _ Hw']; inversion Hw'; subst. discriminate. }
  destruct (post_stop_effect i _ w1 Hsel1 eq_refl Hplan1)
    as (t2 & nx2 & w2 & Hstop & Hdb2 & Hreg2 & Htasks2 & _).
  eexists _, w1, _, w2, t1, t2.
  split; [exact Hstart |]. split; [reflexivity |].
  split; [exact Hstop |]. split; [reflexivity |].
  split.
  { rewrite Hreg2, Hreg1. rewrite delete_insert_id by exact Hreg. reflexivity. }
  split.
  { rewrite Htasks2, Hreg1, lookup_insert_eq, Htasks1.
    rewrite alter_app_r_alt by lia. rewrite Nat.sub_diag. reflexivity. }
  rewrite Hdb2, select_after_deactivate, Hsel1. simpl.
  rewrite (deactivate_activate t1 t2 row Hact). reflexivity.
Qed.

(** X6. Deleting an existing schedule (its write succeeding) answers 200
    "Schedule deleted successfully": no row carries the id any more, so a
    read of it answers 404; the rows of the other ids and the
    job_executions table are as before.  The timer is looked up only when
    the row says isActive: then the id leaves the registry; otherwise the
    registry and the timers are not touched. *)
Theorem delete_removes_schedule i row w :
  select_by_id i (db w) = Some row → head (faults w) ≠ Some true →
  ∃ w',
    delete_schedule i w = (Ret (json_message "Schedule deleted successfully"), w')
    ∧ select_by_id i (db w') = None
    ∧ (∀ j, j ≠ i → select_by_id j (db w') = select_by_id j (db w))
    ∧ job_executions (db w') = job_executions (db w)
    ∧ (isActive row = true → runningJobs w' = delete i (runningJobs w))
    ∧ (isActive row = false →
       runningJobs w' = runningJobs w ∧ tasks w' = tasks w)
    ∧ get_schedule lib i w' = (Ret (json_error "Schedule not found" 404), w').
Proof.
  intros Hsel Hplan. unfold delete_schedule. rewrite Hsel.
  assert (Hgone : ∀ d, select_by_id i (exec_more (SqlDelete i) d) = None).
  { intros d. rewrite select_after_delete. destruct (decide (i = i)); congruence. }
  assert (Hkeep : ∀ d j, j ≠ i →
            select_by_id j (exec_more (SqlDelete i) d) = select_by_id j d).
  { intros d j Hj. rewrite select_after_delete.
    destruct (decide (j = i)); congruence. }
  assert (Hread : ∀ w0, select_by_id i (db w0) = None →
            get_schedule lib i w0 = (Ret (json_error "Schedule not found" 404), w0)).
  { intros w0 H0. unfold get_schedule. rewrite H0. reflexivity. }
  unfold try_catch, bind, disarm, db_run_more.
  destruct (isActive row); [destruct (runningJobs w !! i) as [job|] eqn:Hreg |];
    simpl;
    (destruct (faults w) as [|[] plan]; simpl in Hplan |- *; [| congruence |]);
    eexists; (split; [reflexivity |]); simpl;
    (split; [apply Hgone |]); (split; [intros j Hj; apply (Hkeep (db w) j Hj) |]);
    (split; [reflexivity |]).
  1, 2: split; [reflexivity | split; [discriminate | apply Hread, Hgone]].
  1, 2: split; [intros _; symmetry; apply delete_id, Hreg
               | split; [discriminate | apply Hread, Hgone]].
  1, 2: split; [discriminate | split; [auto | apply Hread, Hgone]].
Qed.

(** X7. Once an active schedule is deleted, the timer it was bound to is
    stopped, even when the DELETE itself throws: whatever job body it was
    armed with, a later fire of it does nothing. *)
Theorem delete_active_silences_timer i row job t func w :
  select_by_id i (db w) = Some row → isActive row = true →
  runningJobs w !! i = Some job → tasks w !! job = Some t →
  fire func job (snd (delete_schedule i w))
  = (Ret tt, snd (delete_schedule i w)).
Proof.
  intros Hsel Hact Hreg Ht. unfold delete_schedule. rewrite Hsel, Hact.
  unfold try_catch, bind, disarm, db_run_more. rewrite Hreg. simpl.
  destruct (faults w) as [|[] plan]; simpl; unfold fire; simpl;
    rewrite list_lookup_alter_eq, Ht; reflexivity.
Qed.

Lemma select_by_id_update_other i j f rows ex :
  j ≠ i → (∀ r, id (f r) = id r) →
  select_by_id j (mkDb (update_where i f rows) ex)
  = select_by_id j (mkDb rows ex).
Proof.
  intros Hj Hf. unfold select_by_id, update_where. simpl.
  induction rows as [|r rows IH]; simpl; [reflexivity |].
  destruct (decide (id r = i)) as [Hr|Hr].
  - rewrite Hf. rewrite !bool_decide_eq_false_2 by congruence. exact IH.
  - destruct (bool_decide (id r = j)); [reflexivity | exact IH].
Qed.

(** What an edit does, when its write succeeds. *)
Lemma edit_stores_unchecked_aux i row body w :
  select_by_id i (db w) = Some row → head (faults w) ≠ Some true →
  ∃ now next w',
    put_schedule lib i (Some body) w
    = (Ret (json_view (view_of next (merge row body))), w')
    ∧ db w'
      = exec_more
          (SqlEdit (name (merge row body)) (cronExpression (merge row body))
             (task (merge row body)) now (maxRetries (merge row body))
             (retryDelay (merge row body)) (pe (merge row body))
             (ou (merge row body)) (scorecard (merge row body))
             (includeChildren (merge row body)) i) (db w)
    ∧ select_by_id i (db w')
      = Some (edit_row (name (merge row body)) (cronExpression (merge row body))
                (task (merge row body)) now (maxRetries (merge row body))
                (retryDelay (merge row body)) (pe (merge row body))
                (ou (merge row body)) (scorecard (merge row body))
                (includeChildren (merge row body)) row)
    ∧ runningJobs w' = runningJobs w ∧ tasks w' = tasks w.
Proof.
  intros Hsel Hplan. unfold put_schedule, req_json.
  unfold bind at 1, ret at 1. cbv beta iota. rewrite Hsel.
  unfold bind, new_Date, console_log, ret, db_run_more. simpl.
  set (m := merge row body).
  assert (Hsel' : ∀ t,
            select_by_id i
              (exec_more
                 (SqlEdit (name m) (cronExpression m) (task m) t (maxRetries m)
                    (retryDelay m) (pe m) (ou m) (scorecard m)
                    (includeChildren m) i) (db w))
            = Some (edit_row (name m) (cronExpression m) (task m) t
                      (maxRetries m) (retryDelay m) (pe m) (ou m)
                      (scorecard m) (includeChildren m) row)).
  { intros t. rewrite select_after_edit, Hsel. reflexivity. }
  destruct (faults w) as [|[] plan]; simpl in Hplan |- *; [| congruence |];
    match goal with
    | |- context [scheduleFromRow lib ?r ?w0] =>
        destruct (scheduleFromRow_view r w0) as (nx & n & Hrun);
        rewrite Hrun
    end;
    simpl; eexists _, _, _; (split; [reflexivity |]);
    (split; [reflexivity |]);
    (split; [apply Hsel' |]); simpl; split; reflexivity.
Qed.

(** X8. An edit of an existing schedule whose body is JSON (its write
    succeeding) is never refused: the recurrence expression and the retry
    values of the body are stored without the checks of creation.  The
    stored row is the old row with the nine definition columns of the
    UPDATE set to the merged values and updatedAt set to the current
    date: every other column (id, isActive, createdAt, lastRun, progress,
    status, lastStatus, current job id, nextRun, retryAttempts, message)
    is kept whatever the body says; the rows of other ids, the job_executions table and the
    timers are not touched, and the answer is built from the merged
    object, not from the stored row.  A body that is not JSON makes the
    handler throw before anything is read. *)
Theorem edit_stores_unchecked i row body w :
  select_by_id i (db w) = Some row → head (faults w) ≠ Some true →
  (∃ now next w',
     put_schedule lib i (Some body) w
     = (Ret (json_view (view_of next (merge row body))), w')
     ∧ select_by_id i (db w')
       = Some (mkSchedule (id row)
                 (default (name row) (p_name body))
                 (default (cronExpression row) (p_cronExpression body))
                 (isActive row)
                 (default (task row) (p_task body))
                 (createdAt row) now (lastRun row) (progress row) (status row)
                 (lastStatus row) (currentJobId row) (nextRun row)
                 (default (maxRetries row) (p_maxRetries body))
                 (default (retryDelay row) (p_retryDelay body))
                 (retryAttempts row)
                 (default (includeChildren row) (p_includeChildren body))
                 (default (pe row) (p_pe body))
                 (default (ou row) (p_ou body))
                 (default (scorecard row) (p_scorecard body))
                 (message row))
     ∧ (∀ j, j ≠ i → select_by_id j (db w') = select_by_id j (db w))
     ∧ job_executions (db w') = job_executions (db w)
     ∧ runningJobs w' = runningJobs w ∧ tasks w' = tasks w)
  ∧ put_schedule lib i None w = (Throw "SyntaxError", w).
Proof.
  intros Hsel Hplan. split; [| reflexivity].
  destruct (edit_stores_unchecked_aux i row body w Hsel Hplan)
    as (now & next & w' & Hput & Hdb & Hsel' & Hreg & Htasks).
  exists now, next, w'. split; [exact Hput |]. split; [exact Hsel' |].
  split; [| rewrite Hdb; auto].
  intros j Hj. rewrite Hdb. simpl. destruct (db w) as [rows ex]. simpl.
  apply select_by_id_update_other; [exact Hj | reflexivity].
Qed.

(** X9. An inactive schedule edited to a recurrence expression that does
    not validate can no longer be started: the start request answers 500
    "Failed to start schedule", arms no timer and leaves the row as the
    edit left it. *)
Theorem edit_invalid_then_start_fails i row body e w :
  select_by_id i (db w) = Some row → isActive row = false →
  p_cronExpression body = Some e → cron_validate lib e = false →
  head (faults w) ≠ Some true →
  ∃ r1 w1 w2,
    put_schedule lib i (Some body) w = (Ret r1, w1) ∧ http_status r1 = 200%nat
    ∧ post_start lib i w1
      = (Ret (json_error "Failed to start schedule" 500), w2)
    ∧ runningJobs w2 = runningJobs w ∧ tasks w2 = tasks w
    ∧ db w2 = db w1.
Proof.
  intros Hsel Hact He Hbad Hplan.
  destruct (edit_stores_unchecked_aux i row body w Hsel Hplan)
    as (now & next & w1 & Hput & _ & Hsel1 & Hreg & Htasks).
  eexists _, w1, _. split; [exact Hput |]. split; [reflexivity |].
  unfold post_start. rewrite Hsel1. unfold bind at 1.
  rewrite scheduleFromRow_inactive by exact Hact. simpl. rewrite Hact.
  unfold try_catch, bind at 1, startScheduleJob. simpl.
  rewrite He. simpl. rewrite Hbad. simpl.
  split; [reflexivity |]. auto.
Qed.

Lemma select_inserted_fresh row d :
  select_by_id (id row) d = None →
  select_by_id (id row) (exec (SqlInsertSchedule row) d) = Some row.
Proof.
  unfold select_by_id. simpl. intros H.
  induction (schedules d) as [|r rows IH]; simpl in *.
  - rewrite bool_decide_eq_true_2 by reflexivity. reflexivity.
  - destruct (bool_decide (id r = id row)); [discriminate | auto].
Qed.

Lemma select_inserted_other row j d :
  j ≠ id row →
  select_by_id j (exec (SqlInsertSchedule row) d) = select_by_id j d.
Proof.
  unfold select_by_id. simpl. intros H.
  induction (schedules d) as [|r rows IH]; simpl.
  - rewrite bool_decide_eq_false_2 by congruence. reflexivity.
  - destruct (bool_decide (id r = j)); [reflexivity | exact IH].
Qed.

Lemma post_schedules_effect body w :
  creatable lib body w →
  ∃ w',
    post_schedules lib (Some body) w
    = (Ret (json_schedule "Schedule created successfully" (created_row body w)
              201), w')
    ∧ db w' = exec (SqlInsertSchedule (created_row body w)) (db w)
    ∧ runningJobs w' = runningJobs w ∧ tasks w' = tasks w
    ∧ faults w' = tail (faults w).
Proof.
  intros (Hn & Hc & Ht & Hv & Hm & Hd & Hplan & Hfresh).
  unfold post_schedules, try_catch, isValidCronExpression.
  rewrite Hn, Hc, Ht, Hv. simpl.
  assert (E3 : (default 3 (b_maxRetries body) <? 0)
               || (default 3 (b_maxRetries body) >? 10) = false).
  { rewrite Z.gtb_ltb. apply orb_false_intro; apply Z.ltb_ge; lia. }
  assert (E4 : (default 60 (b_retryDelay body) <? 0)
               || (default 60 (b_retryDelay body) >? 3600) = false).
  { rewrite Z.gtb_ltb. apply orb_false_intro; apply Z.ltb_ge; lia. }
  rewrite E3, E4. unfold bind, randomUUID, new_Date, db_run. simpl.
  fold (created_row body w).
  pose proof (select_inserted_fresh (created_row body w) (db w) Hfresh) as Hr.
  simpl in Hr.
  destruct (faults w) as [|[] plan]; simpl in Hplan |- *; [| congruence |];
    rewrite Hr; rewrite scheduleFromRow_inactive by reflexivity;
    eexists; (split; [reflexivity |]); simpl; repeat split; reflexivity.
Qed.

(** X10. Create, then read: when a creation is accepted (the id drawn
    being new), reading the id of the answer gives 200 with the very
    schedule the creation answered: idle, not active, progress 0, no next
    run, the retry values defaulted to 3 and 60 when absent. *)
Theorem create_get_round_trip body w :
  creatable lib body w →
  ∃ s w',
    post_schedules lib (Some body) w
    = (Ret (json_schedule "Schedule created successfully" s 201), w')
    ∧ get_schedule lib (id s) w' = (Ret (json_view s), w')
    ∧ status s = idle ∧ isActive s = false ∧ progress s = 0
    ∧ nextRun s = None
    ∧ maxRetries s = default 3 (b_maxRetries body)
    ∧ retryDelay s = default 60 (b_retryDelay body).
Proof.
  intros Hok. pose proof Hok as (_ & _ & _ & _ & _ & _ & _ & Hfresh).
  destruct (post_schedules_effect body w Hok) as (w' & Hpost & Hdb & _).
  exists (created_row body w), w'. split; [exact Hpost |]. split.
  - unfold get_schedule. rewrite Hdb.
    rewrite (select_inserted_fresh (created_row body w) (db w) Hfresh).
    unfold bind. rewrite scheduleFromRow_inactive by reflexivity. reflexivity.
  - repeat split; reflexivity.
Qed.

(** X11. Create, then start, with no write failing: the start request
    answers 200 with the schedule active, 'idle' and at progress 0, and
    the registry binds the new id to the one timer that was armed, which
    closed over the schedule as created. *)
Theorem create_then_start body w :
  creatable lib body w → no_faults w →
  ∃ s w1 view w2,
    post_schedules lib (Some body) w
    = (Ret (json_schedule "Schedule created successfully" s 201), w1)
    ∧ post_start lib (id s) w1
      = (Ret (json_schedule "Schedule started successfully" view 200), w2)
    ∧ isActive view = true ∧ status view = idle ∧ progress view = 0
    ∧ id view = id s
    ∧ runningJobs w2 !! id s = Some (length (tasks w))
    ∧ tasks w2 = tasks w ++ [mkTask s true].
Proof.
  intros Hok Hw. pose proof Hok as (_ & _ & _ & Hv & _ & _ & _ & Hfresh).
  destruct (post_schedules_effect body w Hok) as (w1 & Hpost & Hdb & Hreg & Htasks & Hf).
  assert (Hsel : select_by_id (id (created_row body w)) (db w1)
                 = Some (created_row body w)).
  { rewrite Hdb. apply (select_inserted_fresh (created_row body w) (db w) Hfresh). }
  assert (Hplan : head (faults w1) ≠ Some true).
  { rewrite Hf. unfold no_faults in Hw.
    destruct (faults w) as [|b [|b' plan]]; simpl; try discriminate.
    inversion Hw as [|? ? _ Hw']; inversion Hw'; subst. discriminate. }
  destruct (post_start_effect _ _ w1 Hsel eq_refl Hv Hplan)
    as (now & next & w2 & Hstart & _ & Hreg2 & Htasks2 & _).
  eexists (created_row body w), w1, _, w2. split; [exact Hpost |].
  split; [exact Hstart |]. simpl.
  rewrite Hreg2, Htasks2, Htasks, lookup_insert_eq. repeat split; reflexivity.
Qed.

Lemma map_M_views rows w :
  ∃ views n,
    map_M (scheduleFromRow lib) rows w = (Ret views, with_readings n w)
    ∧ Forall2 (λ row view, ∃ next, view = view_of next row
                                   ∧ (isActive row = false → next = None))
        rows views.
Proof.
  revert w. induction rows as [|row rows IH]; intros w; simpl.
  - exists [], (readings w). destruct w. split; [reflexivity | constructor].
  - unfold bind at 1.
    assert (Hrow : ∃ next n,
              scheduleFromRow lib row w = (Ret (view_of next row), with_readings n w)
              ∧ (isActive row = false → next = None)).
    { destruct (isActive row) eqn:Ha.
      - destruct (scheduleFromRow_view row w) as (nx & n & H).
        exists nx, n. split; [exact H | discriminate].
      - exists None, (readings w). rewrite scheduleFromRow_inactive by exact Ha.
        destruct w. split; [reflexivity | reflexivity]. }
    destruct Hrow as (nx & n & Hrun & Hnx). rewrite Hrun.
    destruct (IH (with_readings n w)) as (views & n' & Hrest & Hall).
    unfold bind. rewrite Hrest. simpl.
    exists (view_of nx row :: views), n'. split; [reflexivity |].
    constructor; [exists nx; auto | exact Hall].
Qed.

(** X12. Listing the schedules never fails, whatever cron-parser does with
    the stored expressions: it answers one object per row, in table order,
    with the columns of the row, and with no next run for a row that is
    not active; it only reads the clock. *)
Theorem list_gives_every_row w :
  ∃ views n,
    get_schedules lib w = (Ret views, with_readings n w)
    ∧ length views = length (schedules (db w))
    ∧ ∀ k row, schedules (db w) !! k = Some row →
        ∃ next, views !! k = Some (view_of next row)
                ∧ (isActive row = false → next = None).
Proof.
  destruct (map_M_views (schedules (db w)) w) as (views & n & Hrun & Hall).
  exists views, n. split; [exact Hrun |]. split.
  - symmetry. apply (Forall2_length _ _ _ Hall).
  - intros k row Hk.
    destruct (Forall2_lookup_l _ _ _ _ _ Hall Hk) as (view & Hv & next & -> & Hn).
    exists next. auto.
Qed.

End MoreRoutes.

(** * Progress subscriptions *)

Lemma without_absent (conn : nat) (l : list nat) :
  conn ∉ l → List.filter (λ n, negb (bool_decide (n = conn))) l = l.
Proof.
  induction l as [|n l IH]; intros H; simpl; [reflexivity |].
  apply not_elem_of_cons in H as [Hn Hl].
  rewrite bool_decide_eq_false_2 by congruence. simpl. rewrite IH by exact Hl.
  reflexivity.
Qed.

Lemma without_gone (conn : nat) (l : list nat) :
  conn ∉ List.filter (λ n, negb (bool_decide (n = conn))) l.
Proof.
  intros H. apply list_elem_of_In, filter_In in H as [_ H].
  rewrite bool_decide_eq_true_2 in H by reflexivity. discriminate.
Qed.

Lemma without_added (conn : nat) (l : list nat) :
  conn ∉ l → List.filter (λ n, negb (bool_decide (n = conn))) (l ++ [conn]) = l.
Proof.
  intros H. rewrite List.filter_app, without_absent by exact H. simpl.
  rewrite bool_decide_eq_true_2 by reflexivity. simpl. apply app_nil_r.
Qed.

(** What subscribing does. *)
Lemma get_progress_effect conn i row w :
  select_by_id i (db w) = Some row →
  let subscribers := default [] (progressSubscribers w !! i) in
  ∃ w',
    get_progress conn i w = (Ret (mkResponse 200 None None None), w')
    ∧ progressSubscribers w'
      = <[i := if decide (conn ∈ subscribers) then subscribers
               else subscribers ++ [conn]]> (progressSubscribers w)
    ∧ delivered w'
      = delivered w
        ++ [(conn, mkProgressUpdate i (progress row) (status row) None
                     (wallclock w (readings w)))]
    ∧ db w' = db w ∧ runningJobs w' = runningJobs w ∧ tasks w' = tasks w
    ∧ faults w' = faults w.
Proof.
  intros Hsel. unfold get_progress. rewrite Hsel.
  unfold bind, new_Date. simpl. eexists. split; [reflexivity |]. simpl.
  assert (Hp : (if bool_decide (progress row = 0) then 0 else progress row)
               = progress row).
  { destruct (bool_decide_reflect (progress row = 0)); congruence. }
  rewrite Hp. repeat split; reflexivity.
Qed.

(** X13. Subscribing to the progress of an existing schedule answers the
    stream, writes to the new subscriber, and to nobody else, one initial
    event carrying the persisted progress and status of the row, and adds
    the subscriber to the set of that schedule, after those already
    there; the sets of the other schedules and the store are untouched. *)
Theorem subscribe_initial_event conn i row w :
  select_by_id i (db w) = Some row →
  ∃ w' subscribers',
    get_progress conn i w = (Ret (mkResponse 200 None None None), w')
    ∧ delivered w'
      = delivered w
        ++ [(conn, mkProgressUpdate i (progress row) (status row) None
                     (wallclock w (readings w)))]
    ∧ progressSubscribers w' !! i = Some subscribers'
    ∧ conn ∈ subscribers'
    ∧ (∀ n, n ∈ default [] (progressSubscribers w !! i) → n ∈ subscribers')
    ∧ (∀ n, n ∈ subscribers' →
         n = conn ∨ n ∈ default [] (progressSubscribers w !! i))
    ∧ (∀ j, j ≠ i → progressSubscribers w' !! j = progressSubscribers w !! j)
    ∧ db w' = db w.
Proof.
  intros Hsel.
  destruct (get_progress_effect conn i row w Hsel)
    as (w' & Hrun & Hsubs & Hout & Hdb & _).
  eexists w', _. split; [exact Hrun |]. split; [exact Hout |].
  split; [rewrite Hsubs; apply lookup_insert_eq |].
  destruct (decide (conn ∈ default [] (progressSubscribers w !! i))) as [Hin|Hin].
  - repeat split; auto.
    intros j Hj. rewrite Hsubs. apply lookup_insert_ne. congruence.
  - split; [apply elem_of_app; right; apply list_elem_of_here |].
    split; [intros n Hn; apply elem_of_app; left; exact Hn |].
    split.
    { intros n Hn. apply elem_of_app in Hn as [Hn|Hn]; [right; exact Hn |].
      apply list_elem_of_singleton in Hn. left. exact Hn. }
    split; [| exact Hdb].
    intros j Hj. rewrite Hsubs. apply lookup_insert_ne. congruence.
Qed.

(** X14. After a connection subscribed to a schedule, an event published
    for that schedule is delivered to it, and an event published for
    another schedule, to which it had not subscribed, is not: what the
    connection has received stays as it was. *)
Theorem subscriber_gets_own_schedule_only conn i row u w :
  select_by_id i (db w) = Some row →
  let w1 := snd (get_progress conn i w) in
  (pu_scheduleId u = i → (conn, u) ∈ delivered (snd (broadcastProgress u w1)))
  ∧ (pu_scheduleId u ≠ i →
     conn ∉ default [] (progressSubscribers w !! pu_scheduleId u) →
     ∀ x, (conn, x) ∈ delivered (snd (broadcastProgress u w1)) →
          (conn, x) ∈ delivered w1).
Proof.
  intros Hsel.
  destruct (get_progress_effect conn i row w Hsel)
    as (w1 & Hrun & Hsubs & Hout & _).
  rewrite Hrun. simpl. split.
  - intros Hu. unfold broadcastProgress. rewrite Hu, Hsubs, lookup_insert_eq.
    simpl. apply elem_of_app. right.
    apply (list_elem_of_fmap_2 (λ n, (n, u))).
    destruct (decide (conn ∈ default [] (progressSubscribers w !! i)));
      [assumption | apply elem_of_app; right; apply list_elem_of_here].
  - intros Hu Hnot x Hx. unfold broadcastProgress in Hx.
    rewrite Hsubs, lookup_insert_ne in Hx by congruence.
    destruct (progressSubscribers w !! pu_scheduleId u) as [l|]; simpl in *;
      [| exact Hx].
    apply elem_of_app in Hx as [Hx|Hx]; [exact Hx |].
    apply list_elem_of_fmap in Hx as (n & Heq & Hn). injection Heq as <- _.
    contradiction.
Qed.

(** What the abort callback leaves in the map. *)
Lemma on_abort_effect conn i w :
  on_abort conn i w
  = (Ret tt,
     with_subscribers
       (match progressSubscribers w !! i with
        | Some l =>
            match List.filter (λ n, negb (bool_decide (n = conn))) l with
            | [] => delete i (progressSubscribers w)
            | l' => <[i := l']> (progressSubscribers w)
            end
        | None => progressSubscribers w
        end) w).
Proof.
  unfold on_abort. destruct (progressSubscribers w !! i) as [l|] eqn:Hl.
  - rewrite lookup_insert_eq.
    destruct (List.filter _ l) as [|n l']; [| reflexivity].
    rewrite delete_insert_eq. reflexivity.
  - rewrite Hl. reflexivity.
Qed.

(** X15. Subscribe, then abort: when no entry of the map is an empty set
    and the connection was not yet subscribed to the schedule, the
    subscribers map is exactly what it was; the entry that was created for
    a first subscriber is removed with it. *)
Theorem subscribe_abort_round_trip conn i row w :
  select_by_id i (db w) = Some row →
  no_empty_sets (progressSubscribers w) →
  conn ∉ default [] (progressSubscribers w !! i) →
  progressSubscribers (snd (on_abort conn i (snd (get_progress conn i w))))
  = progressSubscribers w.
Proof.
  intros Hsel Hne Hnot.
  destruct (get_progress_effect conn i row w Hsel)
    as (w1 & Hrun & Hsubs & _).
  rewrite Hrun, on_abort_effect. simpl. rewrite Hsubs, lookup_insert_eq.
  destruct (decide (conn ∈ default [] (progressSubscribers w !! i)))
    as [Hin|Hin]; [contradiction |].
  rewrite without_added by exact Hnot.
  destruct (progressSubscribers w !! i) as [l|] eqn:Hl; simpl.
  - destruct l as [|n l]; [exfalso; exact (Hne i Hl) |].
    rewrite insert_insert_eq. apply insert_id. exact Hl.
  - rewrite delete_insert_eq. apply delete_id. exact Hl.
Qed.

(** X16. The abort callback is idempotent, and after it the connection is
    out of the set of the schedule: events published for the schedule no
    longer reach it. *)
Theorem abort_unsubscribes conn i u w :
  let w1 := snd (on_abort conn i w) in
  on_abort conn i w1 = (Ret tt, w1)
  ∧ (conn ∉ default [] (progressSubscribers w1 !! i))
  ∧ (pu_scheduleId u = i →
     ∀ x, (conn, x) ∈ delivered (snd (broadcastProgress u w1)) →
          (conn, x) ∈ delivered w).
Proof.
  cbv zeta. rewrite (on_abort_effect conn i w). cbn [snd].
  set (m := match progressSubscribers w !! i with
            | Some l =>
                match List.filter (λ n, negb (bool_decide (n = conn))) l with
                | [] => delete i (progressSubscribers w)
                | l' => <[i := l']> (progressSubscribers w)
                end
            | None => progressSubscribers w
            end).
  assert (Hm : (conn ∉ default [] (m !! i))
               ∧ (∀ l, m !! i = Some l →
                    List.filter (λ n, negb (bool_decide (n = conn))) l = l
                    ∧ l ≠ [])).
  { subst m. destruct (progressSubscribers w !! i) as [l|] eqn:Hl.
    - pose proof (without_gone conn l) as Hgone.
      destruct (List.filter _ l) as [|n l'] eqn:Hf.
      + rewrite lookup_delete_eq. simpl. split; [apply not_elem_of_nil |].
        intros l0 H0. discriminate H0.
      + rewrite lookup_insert_eq. simpl. split; [exact Hgone |].
        intros l0 H0. injection H0 as <-.
        split; [apply without_absent, Hgone | discriminate].
    - rewrite Hl. simpl. split; [apply not_elem_of_nil |].
      intros l0 H0. discriminate H0. }
  destruct Hm as [Hnot Hfix].
  split; [| split; [exact Hnot |]].
  - rewrite on_abort_effect. simpl.
    destruct (m !! i) as [l|] eqn:Hl; [| destruct w; reflexivity].
    destruct (Hfix l eq_refl) as [Hf Hne]. rewrite Hf.
    destruct l as [|n l]; [contradiction |].
    rewrite insert_id by exact Hl. destruct w; reflexivity.
  - intros Hu x Hx. unfold broadcastProgress in Hx. simpl in Hx. rewrite Hu in Hx.
    destruct (m !! i) as [l|]; simpl in *; [| exact Hx].
    apply elem_of_app in Hx as [Hx|Hx]; [exact Hx |].
    apply list_elem_of_fmap in Hx as (n & Heq & Hn). injection Heq as <- _.
    contradiction.
Qed.

(** X17. No subscribe or abort ever leaves an empty set in the map: if no
    entry was an empty set before, none is after. *)
Theorem subscriptions_never_empty conn i w :
  no_empty_sets (progressSubscribers w) →
  no_empty_sets (progressSubscribers (snd (get_progress conn i w)))
  ∧ no_empty_sets (progressSubscribers (snd (on_abort conn i w))).
Proof.
  intros Hne. split.
  - destruct (select_by_id i (db w)) as [row|] eqn:Hsel.
    + destruct (get_progress_effect conn i row w Hsel) as (w1 & Hrun & Hsubs & _).
      rewrite Hrun. simpl. rewrite Hsubs. intros j Hj.
      destruct (decide (j = i)) as [->|Hji].
      * rewrite lookup_insert_eq in Hj.
        destruct (decide (conn ∈ default [] (progressSubscribers w !! i)))
          as [Hin|Hin].
        -- injection Hj as Hj. rewrite Hj in Hin.
           apply elem_of_nil in Hin. exact Hin.
        -- injection Hj as Hj. apply app_eq_nil in Hj as [_ Hj]. discriminate.
      * rewrite lookup_insert_ne in Hj by congruence. exact (Hne j Hj).
    + unfold get_progress. rewrite Hsel. exact Hne.
  - rewrite on_abort_effect. simpl. intros j Hj.
    destruct (progressSubscribers w !! i) as [l|] eqn:Hl; [| exact (Hne j Hj)].
    destruct (List.filter _ l) as [|n l'] eqn:Hf.
    + destruct (decide (j = i)) as [->|Hji].
      * rewrite lookup_delete_eq in Hj. discriminate.
      * rewrite lookup_delete_ne in Hj by congruence. exact (Hne j Hj).
    + destruct (decide (j = i)) as [->|Hji].
      * rewrite lookup_insert_eq in Hj. discriminate.
      * rewrite lookup_insert_ne in Hj by congruence. exact (Hne j Hj).
Qed.

(** * Startup: re-arming the active schedules *)

Section Restore.

Variable lib : Imports.

Lemma restoreActiveSchedules_loop w :
  restoreActiveSchedules lib w = for_of (select_active (db w)) (arm_row lib) w.
Proof. reflexivity. Qed.

Lemma arm_row_valid row w :
  cron_validate lib (cronExpression row) = true →
  ∃ next n,
    arm_row lib row w
    = (Ret tt,
       with_timers (<[id row := length (tasks w)]> (runningJobs w))
         (tasks w ++ [mkTask (view_of next row) true]) (with_readings n w)).
Proof.
  intros Hv. unfold arm_row.
  destruct (scheduleFromRow_view lib row w) as (nx & n & Hrun).
  unfold bind at 1. rewrite Hrun. unfold bind, startScheduleJob. simpl.
  rewrite Hv. eexists _, _. reflexivity.
Qed.

Lemma arm_row_invalid row w :
  cron_validate lib (cronExpression row) = false →
  ∃ n, arm_row lib row w = (Throw "invalid cron expression", with_readings n w).
Proof.
  intros Hv. unfold arm_row.
  destruct (scheduleFromRow_view lib row w) as (nx & n & Hrun).
  unfold bind at 1. rewrite Hrun. unfold bind, startScheduleJob. simpl.
  rewrite Hv. eexists. reflexivity.
Qed.

(** The loop over rows whose expressions validate. *)
Lemma arm_loop rows w :
  armable lib rows →
  ∃ ts w',
    for_of rows (arm_row lib) w = (Ret tt, w')
    ∧ tasks w' = tasks w ++ ts
    ∧ Forall2 (λ r t, ∃ next, t = mkTask (view_of next r) true) rows ts
    ∧ (NoDup (map id rows) →
       ∀ k r, rows !! k = Some r →
         runningJobs w' !! id r = Some (length (tasks w) + k)%nat)
    ∧ (∀ i, i ∉ map id rows → runningJobs w' !! i = runningJobs w !! i)
    ∧ (∀ i, i ∈ map id rows → is_Some (runningJobs w' !! i))
    ∧ db w' = db w ∧ faults w' = faults w.
Proof.
  intros Hok. revert w. induction Hok as [|r rows Hr Hrows IH]; intros w; simpl.
  - exists [], w. rewrite app_nil_r.
    split; [reflexivity |]. split; [reflexivity |]. split; [constructor |].
    split; [intros _ k r Hk; rewrite lookup_nil in Hk; discriminate Hk |].
    split; [reflexivity |].
    split; [intros i Hi; apply elem_of_nil in Hi; contradiction | auto].
  - destruct (arm_row_valid r w Hr) as (nx & n & Hrun).
    unfold bind. rewrite Hrun.
    match goal with
    | |- context [for_of rows (arm_row lib) ?w1] =>
        destruct (IH w1)
          as (ts & w' & Hloop & Htasks & Hall & Hreg & Hrest & Hsome & Hdb & Hf)
    end.
    simpl in *.
    exists (mkTask (view_of nx r) true :: ts), w'.
    split; [exact Hloop |].
    split; [rewrite Htasks, <- app_assoc; reflexivity |].
    split; [constructor; [eexists; reflexivity | exact Hall] |].
    split; [| split; [| split; [| auto]]].
    + intros Hnd k r' Hk. apply NoDup_cons in Hnd as [Hnew Hnd].
      destruct k as [|k]; simpl in Hk.
      * injection Hk as <-. rewrite (Hrest (id r) Hnew), lookup_insert_eq.
        f_equal. lia.
      * rewrite (Hreg Hnd k r' Hk), length_app. simpl. f_equal. lia.
    + intros i Hi. apply not_elem_of_cons in Hi as [Hne Hi].
      rewrite (Hrest i Hi). apply lookup_insert_ne. congruence.
    + intros i Hi. destruct (decide (i ∈ map id rows)) as [Hin|Hnot];
        [apply Hsome, Hin |].
      apply elem_of_cons in Hi as [->|Hi]; [| contradiction].
      rewrite (Hrest (id r) Hnot), lookup_insert_eq. eauto.
Qed.

Lemma for_of_app {A} (xs ys : list A) body w :
  for_of (xs ++ ys) body w = bind (for_of xs body) (λ _, for_of ys body) w.
Proof.
  revert w. induction xs as [|x xs IH]; intros w; simpl.
  - reflexivity.
  - unfold bind. destruct (body x w) as [[[]|e] w1]; [| reflexivity].
    rewrite IH. reflexivity.
Qed.

Lemma select_active_elem r d :
  r ∈ select_active d ↔ r ∈ schedules d ∧ isActive r = true.
Proof.
  unfold select_active. rewrite !list_elem_of_In, filter_In. reflexivity.
Qed.

(** X18. When the expressions of all the active rows validate and their
    ids are distinct, [restoreActiveSchedules] returns normally, writes
    nothing, and creates one started timer per active row, in table order,
    each closing over the columns of its row as they are at startup; the
    registry binds the id of each active row to its timer, and the ids
    of no active row are left as they were. *)
Theorem restore_arms_active w :
  armable lib (select_active (db w)) →
  NoDup (map id (select_active (db w))) →
  ∃ w',
    restoreActiveSchedules lib w = (Ret tt, w')
    ∧ db w' = db w
    ∧ length (tasks w')
      = (length (tasks w) + length (select_active (db w)))%nat
    ∧ (∀ k r, select_active (db w) !! k = Some r →
         runningJobs w' !! id r = Some (length (tasks w) + k)%nat
         ∧ ∃ next, tasks w' !! (length (tasks w) + k)%nat
                   = Some (mkTask (view_of next r) true))
    ∧ (∀ i, (∀ r, r ∈ schedules (db w) → id r = i → isActive r = false) →
         runningJobs w' !! i = runningJobs w !! i).
Proof.
  intros Hok Hnd. rewrite restoreActiveSchedules_loop.
  destruct (arm_loop (select_active (db w)) w Hok)
    as (ts & w' & Hloop & Htasks & Hall & Hreg & Hrest & _ & Hdb & _).
  exists w'. split; [exact Hloop |]. split; [exact Hdb |].
  split; [rewrite Htasks, length_app, <- (Forall2_length _ _ _ Hall); reflexivity |].
  split.
  - intros k r Hk. split; [apply (Hreg Hnd k r Hk) |].
    destruct (Forall2_lookup_l _ _ _ _ _ Hall Hk) as (t & Ht & next & ->).
    exists next. rewrite Htasks, lookup_app_r by lia.
    replace (length (tasks w) + k - length (tasks w))%nat with k by lia.
    exact Ht.
  - intros i Hi. apply Hrest. intros Hin.
    apply list_elem_of_fmap in Hin as (r & -> & Hr).
    apply select_active_elem in Hr as [Hr Ha].
    rewrite (Hi r Hr eq_refl) in Ha. discriminate.
Qed.

(** X19. The loop of [restoreActiveSchedules] is not isolated per
    schedule: at the first active row whose expression does not validate
    the function throws, having armed the active rows before it; the
    active rows after it get no timer. *)
Theorem restore_stops_at_invalid front bad back w :
  select_active (db w) = front ++ bad :: back →
  armable lib front → cron_validate lib (cronExpression bad) = false →
  ∃ w',
    restoreActiveSchedules lib w = (Throw "invalid cron expression", w')
    ∧ length (tasks w') = (length (tasks w) + length front)%nat
    ∧ (∀ i, i ∉ map id front → runningJobs w' !! i = runningJobs w !! i).
Proof.
  intros Hrows Hok Hbad. rewrite restoreActiveSchedules_loop, Hrows, for_of_app.
  destruct (arm_loop front w Hok)
    as (ts & w1 & Hloop & Htasks & Hall & _ & Hrest & _).
  unfold bind at 1. rewrite Hloop. simpl.
  destruct (arm_row_invalid bad w1 Hbad) as (n & Hthrow).
  unfold bind. rewrite Hthrow. eexists. split; [reflexivity |]. simpl.
  split; [rewrite Htasks, length_app, <- (Forall2_length _ _ _ Hall); reflexivity |].
  exact Hrest.
Qed.

(** X20. A schedule found active and 'running' at startup is re-armed with
    that status in the object its timer closes over: the guard of the job
    body then refuses every fire of this timer, in whatever state the
    process is by then, so the schedule never runs again until it is
    stopped and started. *)
Theorem restored_running_never_runs k r w :
  armable lib (select_active (db w)) →
  select_active (db w) !! k = Some r → status r = running →
  ∃ t,
    tasks (snd (restoreActiveSchedules lib w)) !! (length (tasks w) + k)%nat
    = Some t
    ∧ id (task_schedule t) = id r ∧ task_started t = true
    ∧ ∀ v net w2,
        tasks w2 !! (length (tasks w) + k)%nat = Some t →
        fire (job_body v net) (length (tasks w) + k) w2 = (Ret tt, w2).
Proof.
  intros Hok Hk Hst. rewrite restoreActiveSchedules_loop.
  destruct (arm_loop (select_active (db w)) w Hok)
    as (ts & w' & Hloop & Htasks & Hall & _).
  rewrite Hloop. simpl.
  destruct (Forall2_lookup_l _ _ _ _ _ Hall Hk) as (t & Ht & next & ->).
  exists (mkTask (view_of next r) true). split.
  { rewrite Htasks, lookup_app_r by lia.
    replace (length (tasks w) + k - length (tasks w))%nat with k by lia.
    exact Ht. }
  split; [reflexivity |]. split; [reflexivity |].
  intros v net w2 H2. unfold fire. rewrite H2. simpl.
  unfold bind, console_log, ret, try_catch.
  rewrite (job_body_guard v net (view_of next r) w2 Hst). reflexivity.
Qed.

End Restore.

(** * Runs of the job body *)

(** ** Computations that return *)

Lemma returns_ret {A} (P : World → Prop) (a : A) (Q : A → World → Prop) :
  (∀ w, P w → Q a w) → returns P (ret a) Q.
Proof. intros H w Hw. exists a. split; [reflexivity | apply H, Hw]. Qed.

Lemma returns_bind {A B} P (m : M A) R (k : A → M B) Q :
  returns P m R → (∀ a, returns (R a) (k a) Q) → returns P (bind m k) Q.
Proof.
  intros Hm Hk w Hw. destruct (Hm w Hw) as (a & Ha & HR).
  unfold bind. destruct (m w) as [o w1]. simpl in *. rewrite Ha.
  apply (Hk a w1 HR).
Qed.

Lemma returns_weaken {A} (P P' : World → Prop) (m : M A)
    (Q Q' : A → World → Prop) :
  returns P m Q → (∀ w, P' w → P w) → (∀ a w, Q a w → Q' a w) →
  returns P' m Q'.
Proof.
  intros H HP HQ w Hw. destruct (H w (HP w Hw)) as (a & Ha & Hq). eauto.
Qed.

(** A [try] whose handler returns, returns. *)
Lemma returns_try_catch {A} P (m : M A) h :
  stable P m → (∀ e, returns P (h e) (λ _, P)) →
  returns P (try_catch m h) (λ _, P).
Proof.
  intros Hm Hh w Hw. specialize (Hm w Hw). unfold try_catch.
  destruct (m w) as [[a|e] w1]; simpl in *.
  - exists a. auto.
  - apply (Hh e w1 Hm).
Qed.

Lemma returns_log P : returns P console_log (λ _, P).
Proof. apply returns_ret. auto. Qed.

Lemma returns_for_of {A} P (xs : list A) body :
  (∀ x, returns P (body x) (λ _, P)) → returns P (for_of xs body) (λ _, P).
Proof.
  intros Hb. induction xs as [|x xs IH]; simpl.
  - apply returns_ret. auto.
  - eapply returns_bind; [apply Hb | intros ?; exact IH].
Qed.

Lemma stable_remote_step P net url card nm :
  stable P (bind (axios_get (analytics net url))
              (λ data, sendToAlma net data card nm)).
Proof.
  apply stable_bind; [apply stable_axios_get | intros; apply stable_sendToAlma].
Qed.

(** Neither loop over the organisation units ever throws: a unit whose
    requests or whose write fail is logged and skipped. *)
Lemma units_loop_returns P net s totalSteps units i :
  write_stable P → returns P (units_loop net s totalSteps units i) (λ _, P).
Proof.
  intros HP. revert i. induction units as [|u rest IH]; intros i; simpl.
  - apply returns_ret. auto.
  - eapply returns_bind; [apply returns_log | intros ?].
    eapply returns_bind; [| intros ?; apply IH].
    apply returns_try_catch; [| intros; apply returns_log].
    apply stable_bind; [apply stable_axios_get | intros data].
    apply stable_bind; [apply stable_sendToAlma | intros _]. apply HP.
Qed.

Lemma units_loop2_returns P net s inds totalSteps units i :
  write_stable P →
  returns P (units_loop2 net s inds totalSteps units i) (λ _, P).
Proof.
  intros HP. revert i. induction units as [|u rest IH]; intros i; simpl.
  - apply returns_ret. auto.
  - eapply returns_bind.
    { apply returns_try_catch; [apply stable_remote_step |].
      intros _. apply returns_for_of. intros ind.
      apply returns_try_catch; [apply stable_remote_step |].
      intros; apply returns_log. }
    intros ?. eapply returns_bind; [| intros ?; apply IH].
    apply returns_try_catch; [apply HP | intros; apply returns_log].
Qed.

Lemma db_run_ok st w :
  head (faults w) ≠ Some true →
  db_run st w
  = (Ret tt, with_db (exec st (db w)) (journal w ++ [st]) (tail (faults w)) w).
Proof.
  intros H. unfold db_run. destruct (faults w) as [|[] plan]; simpl in *;
    congruence.
Qed.

Lemma no_faults_head w : no_faults w → head (faults w) ≠ Some true.
Proof.
  unfold no_faults. intros H. destruct (faults w) as [|b plan]; simpl;
    [discriminate |]. inversion H; subst. discriminate.
Qed.

Lemma no_faults_tail_faults w w' :
  no_faults w → faults w' = tail (faults w) → no_faults w'.
Proof.
  unfold no_faults. intros H ->. destruct (faults w) as [|b plan]; simpl;
    [constructor | inversion H; assumption].
Qed.

Lemma write_stable_no_faults : write_stable no_faults.
Proof.
  intros st w H. unfold db_run.
  destruct (faults w) as [|[] plan] eqn:E; simpl;
    apply (no_faults_tail_faults w); auto; simpl; rewrite E; reflexivity.
Qed.

Lemma fetch_units_world net s w w0 :
  fetch_units net s w0 = (fst (fetch_units net s w), w0).
Proof.
  unfold fetch_units, bind, axios_get, ret, throw.
  destruct (includeChildren s).
  - destruct (organisationUnits_tree net (ou s)) as [[u|[us|]]|]; reflexivity.
  - destruct (organisationUnits_one net (ou s)); reflexivity.
Qed.

Lemma fetch_payload_world net s w w0 :
  fetch_payload net s w0 = (fst (fetch_payload net s w), w0).
Proof.
  unfold fetch_payload, bind, axios_get, ret, throw.
  destruct (includeChildren s).
  - destruct (organisationUnits_tree net (ou s)) as [[u|us]|]; reflexivity.
  - destruct (organisationUnits_one net (ou s)); reflexivity.
Qed.

(** The first variant reads [units.organisationUnits.length] right after
    the request. *)
Lemma fetch_units_payload net s w :
  fst (fetch_units net s w)
  = match fst (fetch_payload net s w) with
    | Ret (Some us) => Ret us
    | Ret None => Throw "TypeError"
    | Throw e => Throw e
    end.
Proof.
  unfold fetch_units, fetch_payload, bind, axios_get, ret, throw.
  destruct (includeChildren s).
  - destruct (organisationUnits_tree net (ou s)) as [[u|[us|]]|]; reflexivity.
  - destruct (organisationUnits_one net (ou s)); reflexivity.
Qed.

Lemma fetch_payload_units net s w units :
  fst (fetch_units net s w) = Ret units →
  fst (fetch_payload net s w) = Ret (Some units).
Proof.
  rewrite fetch_units_payload.
  destruct (fst (fetch_payload net s w)) as [[us|]|e]; congruence.
Qed.

(** The rest of a run once the organisation units are known: the loop,
    then the two final writes. *)
Lemma has_execution_stable jobId :
  write_stable (λ w, no_faults w
                     ∧ ∃ e, e ∈ job_executions (db w) ∧ ex_id e = jobId).
Proof.
  intros st w [Hw (e & He & Hid)]. split; [apply write_stable_no_faults, Hw |].
  unfold db_run. destruct (faults w) as [|[] plan]; simpl; eauto;
    destruct st; simpl; eauto.
  all: try (exists e; split; [apply elem_of_app; left; exact He | exact Hid]).
  all: unfold update_execution_where;
    destruct (decide (ex_id e = jobId0)) as [Hj|Hj];
    [ exists (seal_row finish st e); split; [| exact Hid];
      apply list_elem_of_fmap; exists e; split; [| exact He];
      destruct (decide (ex_id e = jobId0)); [reflexivity | contradiction]
    | exists e; split; [| exact Hid];
      apply list_elem_of_fmap; exists e; split; [| exact He];
      destruct (decide (ex_id e = jobId0)); [contradiction | reflexivity] ].
Qed.

Lemma final_writes s jobId finish w :
  no_faults w → (∃ e, e ∈ job_executions (db w) ∧ ex_id e = jobId) →
  ∃ w',
    try_catch
      (bind (db_run (SqlSealExecution finish completed jobId))
         (λ _, db_run (SqlTaskCompleted finish (id s))))
      (λ _, console_log) w
    = (Ret tt, w')
    ∧ run_completed s jobId w'.
Proof.
  intros Hw (e & He & Hid). unfold try_catch, bind.
  rewrite db_run_ok by apply no_faults_head, Hw.
  rewrite db_run_ok.
  2: { apply no_faults_head, (no_faults_tail_faults w); [exact Hw | reflexivity]. }
  eexists. split; [reflexivity |]. simpl. split; [| split].
  - intros r Hr Hrid. unfold update_where in Hr.
    apply list_elem_of_fmap in Hr as (r0 & -> & _).
    destruct (decide (id r0 = id s)) as [E|E]; [| contradiction].
    simpl. repeat split; eauto.
  - exists (seal_row finish completed e). split; [| exact Hid].
    unfold update_execution_where. apply list_elem_of_fmap. exists e.
    split; [| exact He].
    destruct (decide (ex_id e = jobId)); [reflexivity | contradiction].
  - intros x Hx Hxid. unfold update_execution_where in Hx.
    apply list_elem_of_fmap in Hx as (x0 & -> & _).
    destruct (decide (ex_id x0 = jobId)) as [E|E]; [| contradiction].
    simpl. eauto.
Qed.

Lemma first_writes s jobId start w :
  no_faults w →
  ∃ w',
    try_catch
      (bind (db_run (SqlInsertExecution jobId (id s) start running))
         (λ _, bind (db_run (SqlTaskStarted jobId (id s)))
                 (λ _, db_run (SqlMessage "Fetching organisation units" (id s)))))
      (λ _, console_log) w
    = (Ret tt, w')
    ∧ no_faults w'
    ∧ ∃ e, e ∈ job_executions (db w') ∧ ex_id e = jobId.
Proof.
  intros Hw. unfold try_catch, bind.
  assert (H1 : no_faults
                 (with_db (exec (SqlInsertExecution jobId (id s) start running) (db w))
                    (journal w ++ [SqlInsertExecution jobId (id s) start running])
                    (tail (faults w)) w))
    by (apply (no_faults_tail_faults w); [exact Hw | reflexivity]).
  rewrite db_run_ok by apply no_faults_head, Hw.
  rewrite db_run_ok by apply no_faults_head, H1.
  match goal with
  | |- context [db_run ?st ?w2] =>
      assert (H2 : no_faults w2)
        by (apply (no_faults_tail_faults _ _ H1); reflexivity);
      rewrite (db_run_ok st w2) by apply no_faults_head, H2
  end.
  eexists. split; [reflexivity |]. split.
  - apply (no_faults_tail_faults _ _ H2). reflexivity.
  - simpl. eexists. split; [apply elem_of_app; right; apply list_elem_of_here |].
    reflexivity.
Qed.

(** X21. A run is reported as completed whatever happens to its units:
    when the guard passes, no store write fails and the organisation
    units request (and, in the second variant, the indicator group
    request) succeeds, the job body returns normally and leaves every row
    of its schedule 'completed' at progress 100 with no current job id,
    and its execution record sealed 'completed' with an end time, even if
    every analytics request and every upload to ALMA was rejected. *)
Theorem run_completes_despite_failures v net s units w :
  status s ≠ running → no_faults w →
  fst (fetch_units net s w) = Ret units →
  (v = Second → indicatorGroup net ≠ None) →
  ∃ w',
    job_body v net s w = (Ret tt, w')
    ∧ run_completed s (entropy w (drawn w)) w'.
Proof.
  intros Hst Hw Hunits Hinds.
  set (jobId := entropy w (drawn w)).
  set (P := λ w0 : World,
         no_faults w0 ∧ ∃ e, e ∈ job_executions (db w0) ∧ ex_id e = jobId).
  assert (HP : write_stable P) by apply has_execution_stable.
  assert (Hend : ∀ w0, P w0 →
            ∃ w',
              bind new_Date
                (λ endTime,
                   try_catch
                     (bind (db_run (SqlSealExecution endTime completed jobId))
                        (λ _, db_run (SqlTaskCompleted endTime (id s))))
                     (λ _, console_log)) w0
              = (Ret tt, w')
              ∧ run_completed s jobId w').
  { intros w0 [Hw0 Hex]. unfold bind at 1, new_Date at 1. cbv beta iota.
    apply final_writes; [exact Hw0 | exact Hex]. }
  destruct v; simpl; [unfold queryDHIS2 | unfold queryDHIS2'];
    (destruct (decide (status s ≠ running)); [| contradiction]);
    unfold bind at 1; unfold randomUUID at 1; cbv beta iota;
    unfold bind at 1; unfold new_Date at 1; cbv beta iota;
    match goal with
    | |- context [bind (try_catch (bind (db_run (SqlInsertExecution _ _ ?start _)) _) _)
                    _ ?w2] =>
        destruct (first_writes s jobId start w2)
          as (w3 & H3 & Hw3 & Hex3); [exact Hw |]
    end;
    unfold bind at 1; fold jobId; rewrite H3;
    unfold bind at 1.
  - rewrite (fetch_units_world net s w w3), Hunits. cbv zeta.
    destruct (units_loop_returns P net s (Z.of_nat (length units)) units 1 HP w3)
      as ([] & Hret & HP4); [split; assumption |].
    unfold bind at 1.
    destruct (units_loop net s (Z.of_nat (length units)) units 1 w3) as [o w4].
    simpl in Hret, HP4. rewrite Hret. apply Hend, HP4.
  - rewrite (fetch_payload_world net s w w3),
      (fetch_payload_units net s w units Hunits).
    destruct (indicatorGroup net) as [inds|] eqn:Hi;
      [| exfalso; apply (Hinds eq_refl); reflexivity].
    unfold bind at 1. simpl axios_get. unfold ret at 1. cbv beta iota.
    unfold bind at 1. simpl organisationUnits_of. unfold ret at 1.
    cbv beta iota zeta.
    destruct (units_loop2_returns P net s inds (Z.of_nat (length units)) units 1
                HP w3) as ([] & Hret & HP4); [split; assumption |].
    unfold bind at 1.
    destruct (units_loop2 net s inds (Z.of_nat (length units)) units 1 w3)
      as [o w4].
    simpl in Hret, HP4. rewrite Hret. apply Hend, HP4.
Qed.

Lemma try_log_returns (m : M unit) w :
  ∃ w', try_catch m (λ _, console_log) w = (Ret tt, w').
Proof.
  unfold try_catch, console_log, ret.
  destruct (m w) as [[[]|e] w1]; eexists; reflexivity.
Qed.

Lemma write_stable_True : write_stable (λ _, True).
Proof. intros st w _. exact I. Qed.

(** The outcome of a run that passes the guard is decided by the
    organisation units request and, in the second variant, the indicator
    group request alone; the error is that of the first step to fail, in
    the order of the source. *)
Lemma job_body_outcome v net s w :
  status s ≠ running →
  fst (job_body v net s w)
  = match v with
    | First =>
        match fst (fetch_units net s w) with
        | Throw e => Throw e
        | Ret _ => Ret tt
        end
    | Second =>
        match fst (fetch_payload net s w) with
        | Throw e => Throw e
        | Ret payload =>
            match indicatorGroup net with
            | None => Throw "AxiosError"
            | Some _ =>
                match payload with
                | None => Throw "TypeError"
                | Some _ => Ret tt
                end
            end
        end
    end.
Proof.
  intros Hst.
  assert (Hend : ∀ jobId w0,
            fst (bind new_Date
                   (λ endTime,
                      try_catch
                        (bind (db_run (SqlSealExecution endTime completed jobId))
                           (λ _, db_run (SqlTaskCompleted endTime (id s))))
                        (λ _, console_log)) w0)
            = Ret tt).
  { intros jobId w0. unfold bind at 1, new_Date at 1. cbv beta iota.
    match goal with
    | |- context [try_catch ?m _ ?w1] =>
        destruct (try_log_returns m w1) as (w' & ->)
    end. reflexivity. }
  destruct v; simpl job_body; [unfold queryDHIS2 | unfold queryDHIS2'];
    (destruct (decide (status s ≠ running)); [| contradiction]);
    unfold bind at 1; unfold randomUUID at 1; cbv beta iota;
    unfold bind at 1; unfold new_Date at 1; cbv beta iota;
    unfold bind at 1;
    match goal with
    | |- context [try_catch ?m _ ?w2] =>
        destruct (try_log_returns m w2) as (w3 & ->)
    end;
    unfold bind at 1.
  - rewrite (fetch_units_world net s w w3).
    destruct (fst (fetch_units net s w)) as [units|e]; [| reflexivity].
    cbv zeta.
    destruct (units_loop_returns (λ _, True) net s (Z.of_nat (length units))
                units 1 write_stable_True w3 I) as ([] & Hret & _).
    unfold bind at 1.
    destruct (units_loop net s (Z.of_nat (length units)) units 1 w3) as [o w4].
    simpl in Hret. rewrite Hret. apply Hend.
  - rewrite (fetch_payload_world net s w w3).
    destruct (fst (fetch_payload net s w)) as [payload|e]; [| reflexivity].
    unfold bind at 1.
    destruct (indicatorGroup net) as [inds|]; [| reflexivity].
    simpl axios_get. unfold ret at 1. cbv beta iota.
    unfold bind at 1.
    destruct payload as [units|]; [| reflexivity].
    simpl organisationUnits_of. unfold ret at 1. cbv beta iota zeta.
    destruct (units_loop2_returns (λ _, True) net s inds
                (Z.of_nat (length units)) units 1 write_stable_True w3 I)
      as ([] & Hret & _).
    unfold bind at 1.
    destruct (units_loop2 net s inds (Z.of_nat (length units)) units 1 w3)
      as [o w4].
    simpl in Hret. rewrite Hret. apply Hend.
Qed.

(** ** A timer fire whose job body raises *)

(** A run that raises has done nothing after its opening writes. *)
Lemma job_body_raised v net s e w :
  fst (job_body v net s w) = Throw e →
  snd (job_body v net s w)
  = snd (try_catch
           (bind (db_run (SqlInsertExecution (entropy w (drawn w)) (id s)
                            (wallclock w (readings w)) running))
              (λ _, bind (db_run (SqlTaskStarted (entropy w (drawn w)) (id s)))
                      (λ _, db_run (SqlMessage "Fetching organisation units"
                                      (id s)))))
           (λ _, console_log)
           (with_readings (S (readings w)) (with_drawn (S (drawn w)) w))).
Proof.
  intros Hthrow.
  assert (Hst : status s ≠ running).
  { intros Hst. rewrite (job_body_guard v net s w Hst) in Hthrow. discriminate. }
  pose proof (job_body_outcome v net s w Hst) as Hout. rewrite Hthrow in Hout.
  destruct v; simpl job_body; [unfold queryDHIS2 | unfold queryDHIS2'];
    (destruct (decide (status s ≠ running)); [| contradiction]);
    unfold bind at 1; unfold randomUUID at 1; cbv beta iota;
    unfold bind at 1; unfold new_Date at 1; cbv beta iota;
    unfold bind at 1;
    lazymatch goal with
    | |- context [try_catch ?m ?h ?w2] =>
        transitivity (snd (try_catch m h w2)); [| reflexivity];
        destruct (try_log_returns m w2) as (w3 & Htry); rewrite Htry
    end;
    unfold bind at 1.
  - rewrite (fetch_units_world net s w w3).
    destruct (fst (fetch_units net s w)); [discriminate Hout | reflexivity].
  - rewrite (fetch_payload_world net s w w3).
    destruct (fst (fetch_payload net s w)) as [payload|e0]; [| reflexivity].
    unfold bind at 1. destruct (indicatorGroup net); [| reflexivity].
    simpl axios_get. unfold ret at 1. cbv beta iota. unfold bind at 1.
    destruct payload; [discriminate Hout | reflexivity].
Qed.

(** The store after the opening writes of a run, none of them failing. *)
Lemma first_writes_state s jobId start w :
  no_faults w →
  let w' :=
    snd (try_catch
           (bind (db_run (SqlInsertExecution jobId (id s) start running))
              (λ _, bind (db_run (SqlTaskStarted jobId (id s)))
                      (λ _, db_run (SqlMessage "Fetching organisation units"
                                      (id s)))))
           (λ _, console_log) w) in
  (∀ r, r ∈ schedules (db w') → id r = id s →
     status r = running ∧ currentJobId r = Some jobId)
  ∧ mkExecution jobId (id s) start None running ∈ job_executions (db w').
Proof.
  intros Hw. cbv zeta. unfold try_catch, bind.
  rewrite db_run_ok by apply no_faults_head, Hw.
  match goal with
  | |- context [db_run _ ?w1] =>
      assert (H1 : no_faults w1)
        by (apply (no_faults_tail_faults w); [exact Hw | reflexivity]);
      rewrite (db_run_ok _ w1) by apply no_faults_head, H1
  end.
  match goal with
  | |- context [db_run _ ?w2] =>
      assert (H2 : no_faults w2)
        by (apply (no_faults_tail_faults _ _ H1); reflexivity);
      rewrite (db_run_ok _ w2) by apply no_faults_head, H2
  end.
  simpl. split.
  - intros r Hr Hid. unfold update_where in Hr.
    apply list_elem_of_fmap in Hr as (r1 & -> & Hr1).
    apply list_elem_of_fmap in Hr1 as (r0 & -> & _).
    destruct (decide (id r0 = id s)) as [E|E]; simpl in *.
    + destruct (decide (id r0 = id s)); [simpl; auto | contradiction].
    + destruct (decide (id r0 = id s)); [contradiction | simpl in Hid; contradiction].
  - apply elem_of_app. right. apply list_elem_of_here.
Qed.

(** C3 (as amended). When the job body raises an error during a timer
    fire, the callback catches it and only logs it: the fire returns
    normally and the timer and the registry are as before, so the error
    never propagates.  The store is left exactly as the job body left it:
    the fire marks no schedule 'failed' and seals no execution record as
    'failed' (a row that is 'failed' afterwards was so before the fire).
    When none of the writes of the run failed, every row of the schedule
    is left 'running' with the job id of the run, and the execution
    record of the run is left 'running' without an end time; when the
    first write of the run threw, the store is as it was before the
    fire. *)
Theorem fire_swallows_failure v net job t e w :
  tasks w !! job = Some t → task_started t = true →
  fst (job_body v net (task_schedule t) w) = Throw e →
  let w' := snd (fire (job_body v net) job w) in
  fire (job_body v net) job w
  = (Ret tt, snd (job_body v net (task_schedule t) w))
  ∧ runningJobs w' = runningJobs w ∧ tasks w' = tasks w
  ∧ (∀ k r', schedules (db w') !! k = Some r' → status r' = failed →
       ∃ r, schedules (db w) !! k = Some r ∧ id r = id r' ∧ status r = failed)
  ∧ (∀ k x, job_executions (db w') !! k = Some x → ex_status x = failed →
       job_executions (db w) !! k = Some x)
  ∧ (no_faults w →
     (∀ r, r ∈ schedules (db w') → id r = id (task_schedule t) →
        status r = running ∧ currentJobId r = Some (entropy w (drawn w)))
     ∧ mkExecution (entropy w (drawn w)) (id (task_schedule t))
         (wallclock w (readings w)) None running
       ∈ job_executions (db w'))
  ∧ (head (faults w) = Some true → db w' = db w).
Proof.
  intros Hjob Hstarted Hthrow.
  assert (Hfire : fire (job_body v net) job w
                  = (Ret tt, snd (job_body v net (task_schedule t) w))).
  { unfold fire. rewrite Hjob, Hstarted. unfold bind, try_catch, console_log, ret.
    destruct (job_body v net (task_schedule t) w) as [[[]|e'] w1]; reflexivity. }
  simpl. rewrite Hfire. simpl. split; [reflexivity |].
  destruct (job_body_timers v net (task_schedule t) w) as (Hr & Ht & _).
  destruct (job_body_marks_nothing_failed v net (task_schedule t) w) as [Hs Hx].
  split; [exact Hr |]. split; [exact Ht |]. split; [exact Hs |].
  split; [exact Hx |].
  rewrite (job_body_raised v net (task_schedule t) e w Hthrow). split.
  - intros Hw.
    apply (first_writes_state (task_schedule t) (entropy w (drawn w))
             (wallclock w (readings w))
             (with_readings (S (readings w)) (with_drawn (S (drawn w)) w))).
    exact Hw.
  - intros Hplan. unfold try_catch, bind, db_run. simpl.
    destruct (faults w) as [|[] plan]; try discriminate Hplan. reflexivity.
Qed.

(** X22. When a run of the job body raises.  It returns normally exactly
    when the guard refuses it, or the organisation units request gives the
    units and, in the second variant, the indicator group request is
    answered: no store write, analytics request or upload that fails makes
    it raise.  Otherwise it raises the error of the first step that fails,
    in the order of the source: in the first variant the organisation
    units request, then the read of [organisationUnits.length]; in the
    second variant the organisation units request, then the indicator
    group request, and only then the read of the length. *)
Theorem run_raises_only_on_fetch v net s w :
  (fst (job_body v net s w) = Ret tt
   ↔ status s = running
     ∨ ((∃ units, fst (fetch_units net s w) = Ret units)
        ∧ (v = Second → indicatorGroup net ≠ None)))
  ∧ (status s ≠ running →
     (∀ e, fst (fetch_units net s w) = Throw e →
        fst (job_body First net s w) = Throw e)
     ∧ (∀ e, fst (fetch_payload net s w) = Throw e →
          fst (job_body Second net s w) = Throw e)
     ∧ (∀ payload, fst (fetch_payload net s w) = Ret payload →
          indicatorGroup net = None →
          fst (job_body Second net s w) = Throw "AxiosError")
     ∧ (fst (fetch_payload net s w) = Ret None →
        indicatorGroup net ≠ None →
        fst (job_body Second net s w) = Throw "TypeError")).
Proof.
  split.
  - destruct (decide (status s = running)) as [Hst|Hst].
    { rewrite (job_body_guard v net s w Hst). split; auto. }
    rewrite (job_body_outcome v net s w Hst), fetch_units_payload.
    destruct v.
    + destruct (fst (fetch_payload net s w)) as [[units|]|e]; split;
        try discriminate; try (intros [?|[(? & ?) _]]; congruence).
      intros _. right. split; [eauto | discriminate].
    + destruct (fst (fetch_payload net s w)) as [[units|]|e];
        destruct (indicatorGroup net) as [inds|]; split;
        try discriminate;
        try (intros [?|[(? & ?) Hi]]; try congruence;
             exfalso; apply (Hi eq_refl); reflexivity).
      intros _. right. split; [eauto | intros _; discriminate].
  - intros Hst. split; [| split; [| split]].
    + intros e He. rewrite (job_body_outcome First net s w Hst), He. reflexivity.
    + intros e He. rewrite (job_body_outcome Second net s w Hst), He. reflexivity.
    + intros payload Hp Hi.
      rewrite (job_body_outcome Second net s w Hst), Hp, Hi. reflexivity.
    + intros Hp Hi. rewrite (job_body_outcome Second net s w Hst), Hp.
      destruct (indicatorGroup net); [reflexivity | contradiction].
Qed.

Lemma Forall2_diag {A} (R : A → A → Prop) (l : list A) :
  (∀ x, R x x) → Forall2 R l l.
Proof. intros H. induction l; constructor; auto. Qed.

Lemma frame_definition v s (L : list Schedule) :
  frame (job_stmt v s)
    (λ w, Forall2 same_definition L (schedules (db w))).
Proof.
  split; try (intros; assumption).
  intros st plan w Hst H. destruct Hst; simpl; try exact H;
    (apply update_where_related; [| exact H]);
    intros r0 r Hr; unfold same_definition in *; simpl; exact Hr.
Qed.

(** X23. A run of the job body never adds, removes or reorders rows of
    the schedules table, and never changes the definition of a schedule:
    id, name, recurrence expression, enabled flag, task, retry policy, job
    parameters, and the timestamps of creation and update of every row
    are as before, whatever the run did. *)
Theorem run_keeps_definitions v net s w :
  let w' := snd (job_body v net s w) in
  length (schedules (db w')) = length (schedules (db w))
  ∧ ∀ k r, schedules (db w) !! k = Some r →
      ∃ r', schedules (db w') !! k = Some r' ∧ same_definition r r'.
Proof.
  pose proof (stable_job_body v _ net s (frame_definition v s (schedules (db w))) w)
    as H.
  simpl in H. simpl.
  assert (H0 : Forall2 same_definition (schedules (db w)) (schedules (db w))).
  { apply Forall2_diag. intros x. unfold same_definition. repeat split. }
  specialize (H H0). split.
  - symmetry. apply (Forall2_length _ _ _ H).
  - intros k r Hk. destruct (Forall2_lookup_l _ _ _ _ _ H Hk) as (r' & Hk' & Hr).
    exists r'. split; [exact Hk' | exact Hr].
Qed.

(** * Recovery, continued *)

Lemma stable_for_of_elem {A} P (xs : list A) body :
  (∀ x, x ∈ xs → stable P (body x)) → stable P (for_of xs body).
Proof.
  induction xs as [|x xs IH]; intros Hb; simpl.
  - apply stable_ret.
  - apply stable_bind; [apply Hb, list_elem_of_here | intros _].
    apply IH. intros y Hy. apply Hb, list_elem_of_further, Hy.
Qed.

(** Recovery keeps every predicate that its repair statements and the
    delivery of events keep. *)
Lemma stable_cleanupRunningJobs P w :
  frame (interrupt_stmt (select_by_status running (db w))) P →
  (∀ out w0, P w0 → P (with_delivered out w0)) →
  P w → P (snd (cleanupRunningJobs w)).
Proof.
  intros F Hout. unfold cleanupRunningJobs.
  apply stable_for_of_elem. intros job Hjob.
  apply stable_bind; [eapply stable_new_Date, F | intros t1].
  apply stable_bind; [eapply stable_new_Date, F | intros t2].
  apply stable_bind;
    [eapply stable_db_run; [exact F | exists 0, t1, t2, job; auto] | intros _].
  apply stable_bind; [eapply stable_new_Date, F | intros t3].
  intros w0 H0. unfold broadcastProgress.
  destruct (progressSubscribers w0 !! _); [apply Hout |]; exact H0.
Qed.

Lemma run_state_apart_refl r : run_state_apart r r.
Proof. unfold run_state_apart. repeat split. Qed.

Lemma frame_repaired rows (L : list Schedule) E R T :
  frame (interrupt_stmt rows)
    (λ w, Forall2 (repaired rows) L (schedules (db w))
          ∧ job_executions (db w) = E
          ∧ runningJobs w = R ∧ tasks w = T).
Proof.
  split; try (intros; assumption).
  intros st plan w (p & t1 & t2 & job & Hjob & ->) (Hrows & He & HR & HT).
  simpl. repeat split; auto. unfold update_where.
  apply Forall2_fmap_r. apply (Forall2_impl _ _ _ _ Hrows).
  intros r0 r (Hkeep & Hor & Hsame). unfold repaired.
  unfold compose. cbv beta. case_decide as E1; simpl.
  - split.
    { intros Hnot. exfalso. apply Hnot.
      destruct Hsame as [Hid _]. rewrite <- Hid, E1.
      apply list_elem_of_fmap_2, Hjob. }
    split; [right; reflexivity |].
    unfold run_state_apart in *. simpl. exact Hsame.
  - split; [exact Hkeep |]. split; [exact Hor | exact Hsame].
Qed.

(** X24. Whether or not its writes fail, recovery touches nothing but
    status, progress, updatedAt and lastRun of rows whose id is the id of
    a 'running' row: the other rows are unchanged, every row keeps its
    place and all its other columns (id, name, recurrence expression,
    enabled flag, task, creation date, last status, current job id,
    nextRun, retry policy and attempts, job parameters, message), the
    job_executions
    table is left as it is (no execution record is sealed), and the
    timers and the registry are not touched. *)
Theorem recovery_leaves_rest w :
  let w' := snd (cleanupRunningJobs w) in
  job_executions (db w') = job_executions (db w)
  ∧ runningJobs w' = runningJobs w ∧ tasks w' = tasks w
  ∧ length (schedules (db w')) = length (schedules (db w))
  ∧ ∀ k r, schedules (db w) !! k = Some r →
      ∃ r', schedules (db w') !! k = Some r'
            ∧ run_state_apart r r'
            ∧ ((∀ x, x ∈ schedules (db w) → status x = running → id x ≠ id r) →
               r' = r).
Proof.
  set (rows := select_by_status running (db w)).
  destruct (stable_cleanupRunningJobs _ w
              (frame_repaired rows (schedules (db w)) (job_executions (db w))
                 (runningJobs w) (tasks w)))
    as (Hrows & He & HR & HT).
  { intros out w0 H0. exact H0. }
  { split; [| auto]. apply Forall2_diag. intros x.
    unfold repaired. split; [auto |]. split; [auto | apply run_state_apart_refl]. }
  simpl. split; [exact He |]. split; [exact HR |]. split; [exact HT |].
  split; [symmetry; apply (Forall2_length _ _ _ Hrows) |].
  intros k r Hk.
  destruct (Forall2_lookup_l _ _ _ _ _ Hrows Hk)
    as (r' & Hk' & Hkeep & _ & Hsame).
  exists r'. split; [exact Hk' |]. split; [exact Hsame |].
  intros Hnone. apply Hkeep. intros Hin.
  apply list_elem_of_fmap in Hin as (x & Hx & Hxin).
  unfold rows, select_by_status in Hxin.
  apply list_elem_of_In, filter_In in Hxin as [Hxin Hst].
  apply bool_decide_eq_true_1 in Hst.
  apply (Hnone x); [apply list_elem_of_In, Hxin | exact Hst | congruence].
Qed.

(** X25. After a recovery none of whose writes failed, no schedule is
    'running'; a second recovery then has nothing to repair: it returns
    at once, writes nothing and publishes nothing. *)
Theorem recovery_idempotent w :
  no_faults w →
  let w' := snd (cleanupRunningJobs w) in
  (∀ r, r ∈ schedules (db w') → status r ≠ running)
  ∧ cleanupRunningJobs w' = (Ret tt, w').
Proof.
  intros Hw. simpl.
  assert (Hnone : ∀ r, r ∈ schedules (db (snd (cleanupRunningJobs w))) →
                       status r ≠ running).
  { set (rows := select_by_status running (db w)).
    destruct (stable_cleanupRunningJobs _ w
                (frame_repaired rows (schedules (db w)) (job_executions (db w))
                   (runningJobs w) (tasks w)))
      as (Hrows & _).
    { intros out w0 H0. exact H0. }
    { split; [| auto]. apply Forall2_diag. intros x.
      unfold repaired. split; [auto |].
      split; [auto | apply run_state_apart_refl]. }
    destruct (cleanupRunningJobs_effect w Hw) as (_ & Hfailed & _).
    intros r' Hin Hst. apply list_elem_of_lookup in Hin as (k & Hk').
    destruct (Forall2_lookup_r _ _ _ _ _ Hrows Hk') as (r & Hk & _ & Hor & _).
    destruct Hor as [->|Hf]; [| congruence].
    destruct (Hfailed k r Hk Hst) as (r2 & Hk2 & _ & Hf & _).
    rewrite Hk' in Hk2. injection Hk2 as <-. congruence. }
  split; [exact Hnone |].
  unfold cleanupRunningJobs at 1.
  assert (Hempty : select_by_status running (db (snd (cleanupRunningJobs w))) = []).
  { unfold select_by_status.
    induction (schedules (db (snd (cleanupRunningJobs w)))) as [|r rows IH];
      [reflexivity |]. simpl.
    rewrite bool_decide_eq_false_2
      by (apply Hnone, list_elem_of_here).
    apply IH. intros x Hx. apply Hnone, list_elem_of_further, Hx. }
  rewrite Hempty. reflexivity.
Qed.

(** X26. The write of recovery is not guarded: when the first repair
    throws, [cleanupRunningJobs] throws with it, no row has been repaired
    and no event has been published. *)
Theorem recovery_stops_at_failed_write job rest plan w :
  select_by_status running (db w) = job :: rest →
  faults w = true :: plan →
  ∃ w',
    cleanupRunningJobs w = (Throw "SQLiteError", w')
    ∧ db w' = db w ∧ delivered w' = delivered w.
Proof.
  intros Hrows Hplan. unfold cleanupRunningJobs. rewrite Hrows. simpl.
  unfold bind, new_Date, db_run. simpl. rewrite Hplan. simpl.
  eexists. split; [reflexivity |]. auto.
Qed.

(** * The statements of a run *)

Lemma remote_step_quiet net url card nm w :
  snd (bind (axios_get (analytics net url))
         (λ data, sendToAlma net data card nm) w) = w.
Proof. apply (stable_remote_step (λ w', w' = w) net url card nm w eq_refl). Qed.

Lemma try_quiet (m : M unit) h w :
  snd (m w) = w → (∀ e w0, h e w0 = (Ret tt, w0)) →
  try_catch m h w = (Ret tt, w).
Proof.
  intros Hm Hh. unfold try_catch.
  destruct (m w) as [[[]|e] w1]; simpl in Hm; subst w1; auto.
Qed.

Lemma for_of_quiet {A} (xs : list A) body :
  (∀ x w, body x w = (Ret tt, w)) → ∀ w, for_of xs body w = (Ret tt, w).
Proof.
  intros Hb. induction xs as [|x xs IH]; intros w; simpl; [reflexivity |].
  unfold bind. rewrite Hb. apply IH.
Qed.

Lemma sendToAlma_outcome net data card nm w :
  sendToAlma net data card nm w
  = (match alma_session net with
     | Some _ => Ret tt
     | None => Throw "AxiosError"
     end, w).
Proof.
  unfold sendToAlma, axios_get, bind, try_catch, console_log, ret, throw.
  destruct (alma_session net) as [[h|]|]; try reflexivity.
  destruct (alma_upload net card data); reflexivity.
Qed.

Lemma with_db_journal d plan js st w :
  with_db d
    (journal (with_db (exec st (db w)) (journal w ++ [st]) (tail (faults w)) w)
     ++ js) plan
    (with_db (exec st (db w)) (journal w ++ [st]) (tail (faults w)) w)
  = with_db d (journal w ++ st :: js) plan w.
Proof. destruct w; simpl. rewrite <- app_assoc. reflexivity. Qed.

(** The loop of the second variant writes the progress of every unit,
    whatever became of its requests. *)
Lemma units_loop2_trace net s inds totalSteps units :
  ∀ i w, no_faults w →
    ∃ d plan,
      units_loop2 net s inds totalSteps units i w
      = (Ret tt,
         with_db d
           (journal w
            ++ map (progress_stmt Second totalSteps) (steps_from i units))
           plan w)
      ∧ Forall (λ b, b = false) plan.
Proof.
  induction units as [|u rest IH]; intros i w Hw.
  - exists (db w), (faults w). split; [| exact Hw].
    simpl. rewrite app_nil_r. destruct w; reflexivity.
  - cbn [units_loop2 steps_from map]. cbv zeta. unfold bind at 1.
    rewrite try_quiet.
    2: apply remote_step_quiet.
    2: { intros e w0. apply for_of_quiet. intros ind w1.
         apply try_quiet; [apply remote_step_quiet | reflexivity]. }
    unfold bind at 1. unfold try_catch at 1.
    rewrite db_run_ok by apply no_faults_head, Hw.
    match goal with
    | |- context [units_loop2 _ _ _ _ _ _ ?w1] =>
        destruct (IH (i + 1) w1) as (d & plan & Hrun & Hplan);
          [apply (no_faults_tail_faults w); [exact Hw | reflexivity] |]
    end.
    rewrite Hrun. exists d, plan. split; [| exact Hplan].
    f_equal. apply with_db_journal.
Qed.

(** The loop of the first variant writes the progress of the units whose
    analytics request and whose session request to ALMA are answered. *)
Lemma units_loop_trace net s totalSteps units :
  ∀ i w, no_faults w →
    ∃ d plan,
      units_loop net s totalSteps units i w
      = (Ret tt,
         with_db d
           (journal w
            ++ map (progress_stmt First totalSteps)
                 (List.filter (λ step, reached net s step.2)
                    (steps_from i units)))
           plan w)
      ∧ Forall (λ b, b = false) plan.
Proof.
  induction units as [|u rest IH]; intros i w Hw.
  - exists (db w), (faults w). split; [| exact Hw].
    simpl. rewrite app_nil_r. destruct w; reflexivity.
  - cbn [units_loop steps_from List.filter snd]. cbv zeta.
    unfold bind at 1, console_log at 1, ret at 1. cbv beta iota.
    unfold bind at 1. unfold try_catch at 1. unfold bind at 1.
    unfold reached at 1.
    destruct (analytics net _) as [data|] eqn:Ha; simpl axios_get; cbv beta iota.
    + unfold ret at 1. cbv beta iota. unfold bind at 1.
      rewrite sendToAlma_outcome.
      destruct (alma_session net) as [hd|] eqn:Hs.
      * rewrite !bool_decide_eq_true_2 by eauto. cbn [andb map].
        rewrite db_run_ok by apply no_faults_head, Hw.
        match goal with
        | |- context [units_loop _ _ _ _ _ ?w1] =>
            destruct (IH (i + 1) w1) as (d & plan & Hrun & Hplan);
              [apply (no_faults_tail_faults w); [exact Hw | reflexivity] |]
        end.
        rewrite Hrun. exists d, plan. split; [| exact Hplan].
        f_equal. apply with_db_journal.
      * rewrite (bool_decide_eq_false_2 (is_Some None))
          by (intros [? ?]; discriminate).
        rewrite andb_false_r. unfold console_log, ret. cbv beta iota.
        apply IH, Hw.
    + rewrite (bool_decide_eq_false_2 (is_Some None))
        by (intros [? ?]; discriminate).
      cbn [andb]. unfold throw at 1, console_log, ret. cbv beta iota.
      apply IH, Hw.
Qed.

Lemma Forall_tail {A} (P : A → Prop) (l : list A) :
  Forall P l → Forall P (tail l).
Proof. intros H. destruct H; [constructor | assumption]. Qed.

Lemma first_writes_trace s jobId start w :
  no_faults w →
  ∃ d plan,
    try_catch
      (bind (db_run (SqlInsertExecution jobId (id s) start running))
         (λ _, bind (db_run (SqlTaskStarted jobId (id s)))
                 (λ _, db_run (SqlMessage "Fetching organisation units" (id s)))))
      (λ _, console_log) w
    = (Ret tt,
       with_db d
         (journal w
          ++ [SqlInsertExecution jobId (id s) start running;
              SqlTaskStarted jobId (id s);
              SqlMessage "Fetching organisation units" (id s)])
         plan w)
    ∧ Forall (λ b, b = false) plan.
Proof.
  intros Hw. unfold try_catch, bind.
  rewrite db_run_ok by apply no_faults_head, Hw.
  match goal with
  | |- context [db_run _ ?w1] =>
      assert (H1 : no_faults w1)
        by (apply (no_faults_tail_faults w); [exact Hw | reflexivity]);
      rewrite (db_run_ok _ w1) by apply no_faults_head, H1
  end.
  match goal with
  | |- context [db_run _ ?w2] =>
      assert (H2 : no_faults w2)
        by (apply (no_faults_tail_faults _ _ H1); reflexivity);
      rewrite (db_run_ok _ w2) by apply no_faults_head, H2
  end.
  match goal with
  | |- ∃ d plan, (_, with_db ?D _ ?P _) = _ ∧ _ => exists D, P
  end.
  split.
  - f_equal. destruct w; simpl. rewrite <- !app_assoc. reflexivity.
  - apply Forall_tail, H2.
Qed.

Lemma final_writes_trace s jobId finish w :
  no_faults w →
  ∃ d plan,
    try_catch
      (bind (db_run (SqlSealExecution finish completed jobId))
         (λ _, db_run (SqlTaskCompleted finish (id s))))
      (λ _, console_log) w
    = (Ret tt,
       with_db d
         (journal w
          ++ [SqlSealExecution finish completed jobId;
              SqlTaskCompleted finish (id s)])
         plan w)
    ∧ Forall (λ b, b = false) plan.
Proof.
  intros Hw. unfold try_catch, bind.
  rewrite db_run_ok by apply no_faults_head, Hw.
  match goal with
  | |- context [db_run _ ?w1] =>
      assert (H1 : no_faults w1)
        by (apply (no_faults_tail_faults w); [exact Hw | reflexivity]);
      rewrite (db_run_ok _ w1) by apply no_faults_head, H1
  end.
  match goal with
  | |- ∃ d plan, (_, with_db ?D _ ?P _) = _ ∧ _ => exists D, P
  end.
  split.
  - f_equal. destruct w; simpl. rewrite <- !app_assoc. reflexivity.
  - apply Forall_tail, H1.
Qed.

(** X28. The statements of a run, in order.  When the guard passes, no
    store write fails and the organisation units request (and, in the
    second variant, the indicator group request) is answered, a run issues
    exactly: the INSERT of its execution record and the two UPDATEs that
    mark the schedule 'running'; one progress UPDATE per organisation
    unit, keyed by the id of the unit and numbered from 1, which the
    second variant issues for every unit whatever became of its requests,
    and the first variant only for the units whose analytics request and
    whose session request to ALMA were answered (a rejected upload does
    not prevent it); then the two statements that seal the execution
    record and mark the schedule 'completed', with the same end time. *)
Theorem run_issues_statements v net s units w :
  status s ≠ running → no_faults w →
  fst (fetch_units net s w) = Ret units →
  (v = Second → indicatorGroup net ≠ None) →
  journal (snd (job_body v net s w))
  = journal w ++ run_statements v net s units w.
Proof.
  intros Hst Hw Hunits Hinds. unfold run_statements. cbv zeta.
  destruct v; simpl job_body; [unfold queryDHIS2 | unfold queryDHIS2'];
    (destruct (decide (status s ≠ running)); [| contradiction]);
    unfold bind at 1; unfold randomUUID at 1; cbv beta iota;
    unfold bind at 1; unfold new_Date at 1; cbv beta iota;
    match goal with
    | |- context [bind (try_catch (bind (db_run (SqlInsertExecution ?j _ ?start _)) _) _)
                    _ ?w2] =>
        destruct (first_writes_trace s j start w2) as (d3 & p3 & H3 & Hp3);
          [exact Hw |]
    end;
    unfold bind at 1; rewrite H3; unfold bind at 1.
  - match goal with
    | |- context [fetch_units net s ?w3] =>
        rewrite (fetch_units_world net s w w3), Hunits
    end.
    cbv zeta.
    match goal with
    | |- context [bind (units_loop net s ?n units 1) _ ?w3] =>
        destruct (units_loop_trace net s n units 1 w3 Hp3)
          as (d4 & p4 & H4 & Hp4)
    end.
    unfold bind at 1. rewrite H4.
    unfold bind at 1; unfold new_Date at 1; cbv beta iota.
    match goal with
    | |- context [try_catch (bind (db_run (SqlSealExecution ?fin _ ?j)) _) _ ?w5] =>
        destruct (final_writes_trace s j fin w5) as (d6 & p6 & H6 & Hp6);
          [exact Hp4 |]
    end.
    rewrite H6. destruct w; simpl. rewrite <- !app_assoc. reflexivity.
  - match goal with
    | |- context [fetch_payload net s ?w3] =>
        rewrite (fetch_payload_world net s w w3),
          (fetch_payload_units net s w units Hunits)
    end.
    destruct (indicatorGroup net) as [inds|] eqn:Hi;
      [| exfalso; apply (Hinds eq_refl); reflexivity].
    unfold bind at 1. simpl axios_get. unfold ret at 1. cbv beta iota.
    unfold bind at 1. simpl organisationUnits_of. unfold ret at 1.
    cbv beta iota zeta.
    match goal with
    | |- context [bind (units_loop2 net s inds ?n units 1) _ ?w3] =>
        destruct (units_loop2_trace net s inds n units 1 w3 Hp3)
          as (d4 & p4 & H4 & Hp4)
    end.
    unfold bind at 1. rewrite H4.
    unfold bind at 1; unfold new_Date at 1; cbv beta iota.
    match goal with
    | |- context [try_catch (bind (db_run (SqlSealExecution ?fin _ ?j)) _) _ ?w5] =>
        destruct (final_writes_trace s j fin w5) as (d6 & p6 & H6 & Hp6);
          [exact Hp4 |]
    end.
    rewrite H6. destruct w; simpl. rewrite <- !app_assoc. reflexivity.
Qed.

(** * The binary64 arithmetic of the progress formulas *)

(** Bounds on what [SpecFloat] computes for the quotient of two integers
    below 2^53, for the sum of such an integer and a number between 0 and
    1, for a product by 100 and for [Math.round], read off the rounding
    function [binary_round_aux]: a value between two integers is rounded
    to a number between them. *)
Module Binary64.
Import SpecFloat.

Lemma digits2_bounds p :
  (2 ^ (Z.pos (digits2_pos p) - 1) ≤ Z.pos p)%Z
  ∧ (Z.pos p < 2 ^ Z.pos (digits2_pos p))%Z.
Proof.
  induction p as [p IH|p IH|]; simpl digits2_pos.
  - rewrite Pos2Z.inj_succ.
    replace (Z.succ (Z.pos (digits2_pos p)) - 1) with (Z.succ (Z.pos (digits2_pos p) - 1)) by lia.
    rewrite !Z.pow_succ_r by lia. lia.
  - rewrite Pos2Z.inj_succ.
    replace (Z.succ (Z.pos (digits2_pos p)) - 1) with (Z.succ (Z.pos (digits2_pos p) - 1)) by lia.
    rewrite !Z.pow_succ_r by lia. lia.
  - simpl. lia.
Qed.

Lemma Zdigits2_nonneg m : 0 ≤ m → 0 ≤ Zdigits2 m.
Proof. destruct m; simpl; lia. Qed.

(** A number below [2^n] has at most [n] digits. *)
Lemma Zdigits2_le m n : 0 ≤ m → 0 ≤ n → m < 2 ^ n → Zdigits2 m ≤ n.
Proof.
  intros Hm Hn Hlt. destruct m as [|p|p]; simpl; [lia | | lia].
  pose proof (digits2_bounds p) as [Hlo _].
  destruct (Z_le_gt_dec (Z.pos (digits2_pos p)) n) as [|Hgt]; [assumption |].
  exfalso.
  assert (2 ^ n ≤ 2 ^ (Z.pos (digits2_pos p) - 1))
    by (apply Z.pow_le_mono_r; lia).
  lia.
Qed.

Lemma fexp_small e : e ≤ 53 → fexp 53 1024 e ≤ 0.
Proof. unfold fexp, emin. lia. Qed.

(** ** Shifting right *)

Lemma iter_pos_nat {A} (f : A → A) p x :
  iter_pos f p x = Nat.iter (Pos.to_nat p) f x.
Proof.
  revert x. induction p as [p IH|p IH|]; intros x; simpl iter_pos.
  - rewrite !IH, Pos2Nat.inj_xI.
    replace (S (2 * Pos.to_nat p))%nat
      with (Pos.to_nat p + (Pos.to_nat p + 1))%nat by lia.
    rewrite !Nat.iter_add. reflexivity.
  - rewrite !IH, Pos2Nat.inj_xO.
    replace (2 * Pos.to_nat p)%nat with (Pos.to_nat p + Pos.to_nat p)%nat by lia.
    rewrite Nat.iter_add. reflexivity.
  - reflexivity.
Qed.

Lemma shr_1_m mrs : 0 ≤ shr_m mrs → shr_m (shr_1 mrs) = Z.div2 (shr_m mrs).
Proof. destruct mrs as [[|[p|p|]|p] r s]; simpl; intros H; lia || reflexivity. Qed.

Lemma shr_n_m n mrs :
  0 ≤ shr_m mrs → shr_m (Nat.iter n shr_1 mrs) = shr_m mrs / 2 ^ Z.of_nat n.
Proof.
  intros Hm. induction n as [|n IH].
  - simpl. rewrite Z.div_1_r. reflexivity.
  - assert (H2 : 0 < 2 ^ Z.of_nat n) by (apply Z.pow_pos_nonneg; lia).
    rewrite Nat.iter_succ, shr_1_m; rewrite IH;
      [| apply Z.div_pos; lia].
    rewrite Z.div2_div, Nat2Z.inj_succ.
    rewrite Z.pow_succ_r by lia. rewrite Z.div_div by lia.
    f_equal. lia.
Qed.

(** An exact multiple of [2^n] is shifted exactly. *)
Lemma shr_n_exact n N :
  0 ≤ N →
  Nat.iter n shr_1 (shr_record_of_loc (N * 2 ^ Z.of_nat n) loc_Exact)
  = Build_shr_record N false false.
Proof.
  intros HN. induction n as [|n IH].
  - simpl. rewrite Z.mul_1_r. reflexivity.
  - rewrite Nat.iter_succ_r.
    replace (shr_1 (shr_record_of_loc (N * 2 ^ Z.of_nat (S n)) loc_Exact))
      with (shr_record_of_loc (N * 2 ^ Z.of_nat n) loc_Exact); [exact IH |].
    rewrite Nat2Z.inj_succ, Z.pow_succ_r by lia.
    replace (N * (2 * 2 ^ Z.of_nat n)) with (2 * (N * 2 ^ Z.of_nat n)) by lia.
    assert (0 ≤ N * 2 ^ Z.of_nat n) by (apply Z.mul_nonneg_nonneg; lia).
    destruct (N * 2 ^ Z.of_nat n) as [|p|p]; [reflexivity | reflexivity | lia].
Qed.

Lemma round_nearest_even_bounds m l :
  m ≤ round_nearest_even m l ≤ m + 1.
Proof.
  destruct l as [|[]]; simpl; try lia. destruct (Z.even m); lia.
Qed.

(** [shr]: the mantissa is divided by [2^k], and rounding what is left
    stays between the bounds the value is between. *)
Lemma shr_round mx lx n lo hi :
  0 ≤ mx → 0 ≤ lo →
  lo * 2 ^ Z.of_nat n ≤ mx →
  mx < hi * 2 ^ Z.of_nat n ∨ (mx = hi * 2 ^ Z.of_nat n ∧ lx = loc_Exact) →
  let mrs := Nat.iter n shr_1 (shr_record_of_loc mx lx) in
  lo ≤ round_nearest_even (shr_m mrs) (loc_of_shr_record mrs) ≤ hi.
Proof.
  intros Hmx Hlo Hge Hle. cbv zeta.
  assert (H2 : 0 < 2 ^ Z.of_nat n) by (apply Z.pow_pos_nonneg; lia).
  assert (Hm : shr_m (Nat.iter n shr_1 (shr_record_of_loc mx lx))
               = mx / 2 ^ Z.of_nat n).
  { rewrite shr_n_m; destruct lx as [|[]]; simpl; auto. }
  pose proof (round_nearest_even_bounds
                (shr_m (Nat.iter n shr_1 (shr_record_of_loc mx lx)))
                (loc_of_shr_record (Nat.iter n shr_1 (shr_record_of_loc mx lx))))
    as Hr.
  rewrite Hm in Hr. rewrite Hm. split.
  - assert (lo ≤ mx / 2 ^ Z.of_nat n)
      by (apply Z.div_le_lower_bound; [lia | rewrite Z.mul_comm; exact Hge]).
    lia.
  - destruct Hle as [Hlt|[-> ->]].
    + assert (mx / 2 ^ Z.of_nat n < hi)
        by (apply Z.div_lt_upper_bound; [lia | rewrite Z.mul_comm; exact Hlt]).
      lia.
    + assert (0 ≤ hi) by nia.
      rewrite <- Hm. rewrite shr_n_exact by assumption. simpl. lia.
Qed.

Lemma shr_spec mrs e k :
  shr mrs e k
  = (Nat.iter (Z.to_nat (Z.max 0 k)) shr_1 mrs, e + Z.max 0 k).
Proof.
  destruct k as [|p|p]; simpl shr.
  - simpl. rewrite Z.add_0_r. reflexivity.
  - rewrite iter_pos_nat.
    replace (Z.max 0 (Z.pos p)) with (Z.pos p) by lia. reflexivity.
  - simpl. rewrite Z.add_0_r. reflexivity.
Qed.

(** ** Rounding a mantissa and an exponent to a number *)

(** The value [mx * 2^ex] (with what [lx] says lies beyond [mx]) being
    between the integers [lo] and [hi], so is the number it is rounded
    to. *)
Lemma binary_round_aux_bounds sx mx ex lx lo hi :
  0 ≤ lo ≤ hi → Zdigits2 hi ≤ 53 → 0 ≤ mx → ex ≤ 0 →
  lo * 2 ^ (- ex) ≤ mx →
  mx < hi * 2 ^ (- ex) ∨ (mx = hi * 2 ^ (- ex) ∧ lx = loc_Exact) →
  match binary_round_aux 53 1024 sx mx ex lx with
  | S754_finite s m e =>
      s = sx ∧ e ≤ 0 ∧ lo * 2 ^ (- e) ≤ Z.pos m ≤ hi * 2 ^ (- e)
  | S754_zero s => s = sx ∧ lo = 0
  | _ => False
  end.
Proof.
  intros [Hlo Hlohi] Hd Hmx Hex Hge Hle.
  assert (Hhi : 0 ≤ hi) by lia.
  assert (Hhi2 : hi < 2 ^ 53).
  { destruct hi as [|p|p]; [reflexivity | | lia].
    pose proof (digits2_bounds p) as [_ H]. simpl in Hd.
    assert (2 ^ Z.pos (digits2_pos p) ≤ 2 ^ 53) by (apply Z.pow_le_mono_r; lia).
    lia. }
  assert (Hpow : ∀ a, 0 ≤ a → 0 < 2 ^ a) by (intros; apply Z.pow_pos_nonneg; lia).
  (* the first shift *)
  assert (Hpex : 0 < 2 ^ (- ex)) by (apply Hpow; lia).
  assert (Hmxlt : mx < 2 ^ (53 - ex)).
  { replace (53 - ex) with (53 + - ex) by lia. rewrite Z.pow_add_r by lia.
    destruct Hle as [H|[-> _]]; nia. }
  set (k1 := Z.max 0 (fexp 53 1024 (Zdigits2 mx + ex) - ex)).
  assert (Hk1 : 0 ≤ k1 ∧ ex + k1 ≤ 0).
  { unfold k1. pose proof (Zdigits2_le mx (53 - ex) Hmx ltac:(lia) Hmxlt) as H.
    pose proof (fexp_small (Zdigits2 mx + ex) ltac:(lia)). lia. }
  unfold binary_round_aux, shr_fexp. rewrite shr_spec. fold k1.
  set (mrs1 := Nat.iter (Z.to_nat k1) shr_1 (shr_record_of_loc mx lx)).
  set (e1 := ex + k1).
  assert (He1 : e1 ≤ 0) by (unfold e1; lia).
  assert (Hpe1 : 0 < 2 ^ (- e1)) by (apply Hpow; lia).
  assert (Hsplit1 : 2 ^ (- ex) = 2 ^ (- e1) * 2 ^ k1).
  { rewrite <- Z.pow_add_r by lia. f_equal. unfold e1. lia. }
  set (m2 := round_nearest_even (shr_m mrs1) (loc_of_shr_record mrs1)).
  assert (Hm2 : lo * 2 ^ (- e1) ≤ m2 ≤ hi * 2 ^ (- e1)).
  { apply (shr_round mx lx (Z.to_nat k1)).
    - exact Hmx.
    - nia.
    - rewrite Z2Nat.id by lia. rewrite <- Z.mul_assoc, <- Hsplit1. exact Hge.
    - rewrite Z2Nat.id by lia. rewrite <- Z.mul_assoc, <- Hsplit1. exact Hle. }
  (* the second shift *)
  cbv beta iota. rewrite shr_spec.
  set (k2 := Z.max 0 (fexp 53 1024 (Zdigits2 m2 + e1) - e1)).
  assert (Hm2nn : 0 ≤ m2) by nia.
  assert (Hm2lt : m2 < 2 ^ (53 - e1)).
  { replace (53 - e1) with (53 + - e1) by lia. rewrite Z.pow_add_r by lia. nia. }
  assert (Hk2 : 0 ≤ k2 ∧ e1 + k2 ≤ 0).
  { unfold k2. pose proof (Zdigits2_le m2 (53 - e1) Hm2nn ltac:(lia) Hm2lt) as H.
    pose proof (fexp_small (Zdigits2 m2 + e1) ltac:(lia)). lia. }
  set (e2 := e1 + k2).
  assert (He2 : e2 ≤ 0) by (unfold e2; lia).
  assert (Hpe2 : 0 < 2 ^ (- e2)) by (apply Hpow; lia).
  assert (Hpk2 : 0 < 2 ^ k2) by (apply Hpow; lia).
  assert (Hm3 : shr_m (Nat.iter (Z.to_nat k2) shr_1 (shr_record_of_loc m2 loc_Exact))
                = m2 / 2 ^ k2).
  { rewrite shr_n_m by exact Hm2nn. simpl. rewrite Z2Nat.id by lia. reflexivity. }
  cbv beta iota. rewrite Hm3.
  assert (Hsplit : 2 ^ (- e1) = 2 ^ (- e2) * 2 ^ k2).
  { rewrite <- Z.pow_add_r by lia. f_equal. unfold e2. lia. }
  assert (H3 : lo * 2 ^ (- e2) ≤ m2 / 2 ^ k2 ≤ hi * 2 ^ (- e2)).
  { rewrite Hsplit in Hm2. split.
    - apply Z.div_le_lower_bound; [lia | nia].
    - apply Z.div_le_upper_bound; [lia | nia]. }
  destruct (m2 / 2 ^ k2) as [|m|m] eqn:Hq.
  - split; [reflexivity | nia].
  - assert (Hfit : (e2 <=? 1024 - 53) = true) by (apply Z.leb_le; lia).
    rewrite Hfit. repeat split; lia.
  - nia.
Qed.

(** ** Integers below 2^53 are numbers *)

Lemma iter_xO m d : Z.pos (Pos.iter xO m d) = Z.pos m * 2 ^ Z.pos d.
Proof.
  induction d as [|d IH] using Pos.peano_ind.
  - rewrite Z.pow_1_r. simpl. lia.
  - rewrite Pos.iter_succ, Pos2Z.inj_xO, IH, Pos2Z.inj_succ.
    rewrite Z.pow_succ_r by lia. lia.
Qed.

Lemma shl_align_spec mx ex ex' :
  snd (shl_align mx ex ex') ≤ ex
  ∧ Z.pos (fst (shl_align mx ex ex'))
    = Z.pos mx * 2 ^ (ex - snd (shl_align mx ex ex')).
Proof.
  unfold shl_align. destruct (ex' - ex) as [|d|d] eqn:E; simpl.
  - rewrite Z.sub_diag. lia.
  - rewrite Z.sub_diag. lia.
  - split; [lia |]. rewrite iter_xO. f_equal. f_equal. lia.
Qed.

Lemma number_of_Z_exact z :
  1 ≤ z < 2 ^ 53 →
  ∃ m e, number_of_Z z = S754_finite false m e
         ∧ e ≤ 0 ∧ Z.pos m = z * 2 ^ (- e).
Proof.
  intros [Hz1 Hz2]. destruct z as [|p|p]; try lia.
  unfold number_of_Z, binary_normalize, binary_round.
  pose proof (shl_align_spec p 0 (fexp 53 1024 (Z.pos (digits2_pos p) + 0)))
    as [He Hm].
  destruct (shl_align p 0 (fexp 53 1024 (Z.pos (digits2_pos p) + 0)))
    as [mz ez]. simpl in He, Hm.
  replace (0 - ez) with (- ez) in Hm by lia.
  assert (Hd : Zdigits2 (Z.pos p) ≤ 53) by (apply Zdigits2_le; lia).
  pose proof (binary_round_aux_bounds false (Z.pos mz) ez loc_Exact
                (Z.pos p) (Z.pos p) ltac:(lia) Hd ltac:(lia) He ltac:(lia)
                (or_intror (conj Hm eq_refl))) as H.
  destruct (binary_round_aux 53 1024 false (Z.pos mz) ez loc_Exact)
    as [s|s| |s m e]; try contradiction.
  - destruct H as [_ H]. discriminate H.
  - destruct H as (-> & He0 & Hlo & Hhi).
    exists m, e. repeat split; [exact He0 | lia].
Qed.

(** ** The quotient of two integers *)

Lemma new_location_0 m : new_location m 0 = loc_Exact.
Proof.
  unfold new_location, new_location_even, new_location_odd.
  destruct (Z.even m); reflexivity.
Qed.

(** [z1 / z2] for integers [1 ≤ z1 ≤ z2] is at most 1, and is 1 when they
    are equal ([lo = 1]). *)
Lemma js_div_bounds m1 e1 m2 e2 z1 z2 lo :
  e1 ≤ 0 → e2 ≤ 0 →
  Z.pos m1 = z1 * 2 ^ (- e1) → Z.pos m2 = z2 * 2 ^ (- e2) →
  1 ≤ z1 ≤ z2 → lo = 0 ∨ (lo = 1 ∧ z1 = z2) →
  match js_div (S754_finite false m1 e1) (S754_finite false m2 e2) with
  | S754_finite s m e =>
      s = false ∧ e ≤ 0 ∧ lo * 2 ^ (- e) ≤ Z.pos m ≤ 2 ^ (- e)
  | S754_zero s => s = false ∧ lo = 0
  | _ => False
  end.
Proof.
  intros He1 He2 Hm1 Hm2 Hz Hlo.
  assert (Hpow : ∀ a, 0 ≤ a → 0 < 2 ^ a) by (intros; apply Z.pow_pos_nonneg; lia).
  pose proof (Hpow (- e1) ltac:(lia)) as Hp1.
  pose proof (Hpow (- e2) ltac:(lia)) as Hp2.
  (* z1 ≤ z2, on the mantissas *)
  assert (Hle : Z.pos m1 * 2 ^ (- e2) ≤ Z.pos m2 * 2 ^ (- e1)) by (rewrite Hm1, Hm2; nia).
  assert (Heq : z1 = z2 → Z.pos m1 * 2 ^ (- e2) = Z.pos m2 * 2 ^ (- e1))
    by (intros E; rewrite Hm1, Hm2, E; lia).
  unfold js_div, SFdiv, SFdiv_core_binary. cbv zeta.
  set (d1 := Zdigits2 (Z.pos m1)). set (d2 := Zdigits2 (Z.pos m2)).
  set (e' := Z.min (fexp 53 1024 (d1 + e1 - (d2 + e2))) (e1 - e2)).
  assert (He' : e' ≤ 0 ∧ e' ≤ e1 - e2).
  { pose proof (digits2_bounds m1) as [Hd1 _].
    pose proof (digits2_bounds m2) as [_ Hd2].
    fold (Zdigits2 (Z.pos m1)) in Hd1. fold d1 in Hd1.
    fold (Zdigits2 (Z.pos m2)) in Hd2. fold d2 in Hd2.
    assert (Hd1pos : 1 ≤ d1) by (unfold d1; simpl; lia).
    assert (Hd2pos : 1 ≤ d2) by (unfold d2; simpl; lia).
    assert (H : 2 ^ (d1 - 1 - e2) < 2 ^ (d2 - e1)).
    { replace (d1 - 1 - e2) with ((d1 - 1) + - e2) by lia.
      replace (d2 - e1) with (d2 + - e1) by lia.
      rewrite !Z.pow_add_r by lia. nia. }
    apply Z.pow_lt_mono_r_iff in H; [| lia | lia].
    pose proof (fexp_small (d1 + e1 - (d2 + e2)) ltac:(lia)).
    unfold e'. lia. }
  set (s := e1 - e2 - e').
  assert (Hs : 0 ≤ s) by (unfold s; lia).
  set (m' := match s with
             | 0 => Z.pos m1
             | Z.pos _ => Z.shiftl (Z.pos m1) s
             | Z.neg _ => 0
             end).
  assert (Hm' : m' = Z.pos m1 * 2 ^ s).
  { unfold m'. destruct s as [|ps|ps] eqn:Es; [lia | | lia].
    rewrite Z.shiftl_mul_pow2 by lia. reflexivity. }
  pose proof (Hpow s Hs) as Hps.
  pose proof (Hpow (- e') ltac:(lia)) as Hpe.
  (* the quotient against 2^(-e') *)
  assert (Hscale : 2 ^ s * 2 ^ (- e1) = 2 ^ (- e2) * 2 ^ (- e')).
  { rewrite <- !Z.pow_add_r by lia. f_equal. unfold s. lia. }
  assert (Hle' : m' ≤ Z.pos m2 * 2 ^ (- e')) by (rewrite Hm'; nia).
  assert (Heq' : z1 = z2 → m' = Z.pos m2 * 2 ^ (- e'))
    by (intros E; specialize (Heq E); rewrite Hm'; nia).
  pose proof (Z_div_mod m' (Z.pos m2) ltac:(lia)) as Hdiv.
  destruct (Z.div_eucl m' (Z.pos m2)) as [q r]. destruct Hdiv as [Hdiv Hr].
  assert (Hq0 : 0 ≤ q) by nia.
  assert (Hlo01 : 0 ≤ lo ≤ 1) by (destruct Hlo as [->|[-> _]]; lia).
  assert (Hlow : lo * 2 ^ (- e') ≤ q).
  { destruct Hlo as [->|[-> E]]; [lia |]. specialize (Heq' E). nia. }
  assert (Hup : q < 1 * 2 ^ (- e')
                ∨ (q = 1 * 2 ^ (- e')
                   ∧ new_location (Z.pos m2) r = loc_Exact)).
  { rewrite Z.mul_1_l.
    destruct (Z_lt_le_dec q (2 ^ (- e'))) as [Hlt|Hge]; [left; exact Hlt | right].
    assert (q = 2 ^ (- e') ∧ r = 0) as [-> ->] by nia.
    split; [reflexivity | apply new_location_0]. }
  pose proof (binary_round_aux_bounds (xorb false false) q e'
                (new_location (Z.pos m2) r) lo 1 Hlo01 ltac:(simpl; lia) Hq0
                ltac:(lia) Hlow Hup) as H.
  cbv beta iota. simpl xorb in *.
  destruct (binary_round_aux 53 1024 false q e' (new_location (Z.pos m2) r))
    as [s0|s0| |s0 m e]; try contradiction.
  - exact H.
  - destruct H as (-> & He & Hm). rewrite Z.mul_1_l in Hm. auto.
Qed.

(** ** Times 100 *)

Lemma hundred : number_of_Z 100 = S754_finite false 7036874417766400 (-46).
Proof. reflexivity. Qed.

Lemma js_mul_100_bounds mx ex lo hi :
  ex ≤ 0 → 0 ≤ lo ≤ hi → hi ≤ 2 ^ 46 →
  lo * 2 ^ (- ex) ≤ Z.pos mx ≤ hi * 2 ^ (- ex) →
  match js_mul (S754_finite false mx ex) (number_of_Z 100) with
  | S754_finite s m e =>
      s = false ∧ e ≤ 0
      ∧ 100 * lo * 2 ^ (- e) ≤ Z.pos m ≤ 100 * hi * 2 ^ (- e)
  | S754_zero _ => lo = 0
  | _ => False
  end.
Proof.
  intros Hex Hlo Hhi Hmx. rewrite hundred. unfold js_mul, SFmul.
  assert (Hp : 0 < 2 ^ (- ex)) by (apply Z.pow_pos_nonneg; lia).
  assert (Hsplit : 2 ^ (- (ex + -46)) = 2 ^ (- ex) * 2 ^ 46).
  { rewrite <- Z.pow_add_r by lia. f_equal. lia. }
  assert (H46 : 0 < 2 ^ 46) by reflexivity.
  assert (Hm100 : Z.pos (mx * 7036874417766400) = Z.pos mx * (100 * 2 ^ 46))
    by (rewrite Pos2Z.inj_mul; reflexivity).
  assert (Hlow : 100 * lo * 2 ^ (- (ex + -46))
                 ≤ Z.pos (mx * 7036874417766400))
    by (rewrite Hsplit, Hm100; nia).
  assert (Hup : Z.pos (mx * 7036874417766400)
                < 100 * hi * 2 ^ (- (ex + -46))
                ∨ (Z.pos (mx * 7036874417766400)
                   = 100 * hi * 2 ^ (- (ex + -46))
                   ∧ loc_Exact = loc_Exact)).
  { rewrite Hsplit, Hm100.
    destruct (Z_lt_le_dec (Z.pos mx * (100 * 2 ^ 46))
                (100 * hi * (2 ^ (- ex) * 2 ^ 46)));
      [left; assumption | right; split; [nia | reflexivity]]. }
  assert (Hd : Zdigits2 (100 * hi) ≤ 53).
  { apply Zdigits2_le; [lia | lia |].
    assert (100 * 2 ^ 46 < 2 ^ 53) by reflexivity. lia. }
  pose proof (binary_round_aux_bounds (xorb false false)
                (Z.pos (mx * 7036874417766400)) (ex + -46) loc_Exact
                (100 * lo) (100 * hi) ltac:(lia) Hd ltac:(lia)
                ltac:(lia) Hlow Hup) as H.
  simpl xorb in *.
  destruct (binary_round_aux 53 1024 false
              (Z.pos (mx * 7036874417766400)) (ex + -46) loc_Exact)
    as [s0|s0| |s0 m e]; try contradiction.
  - destruct H as [_ H]. lia.
  - exact H.
Qed.

(** ** An integer plus a number between 0 and 1 *)

Lemma js_add_bounds m1 e1 z m e :
  e1 ≤ 0 → Z.pos m1 = z * 2 ^ (- e1) → 1 ≤ z → z + 1 < 2 ^ 53 →
  e ≤ 0 → Z.pos m ≤ 2 ^ (- e) →
  match js_add (S754_finite false m1 e1) (S754_finite false m e) with
  | S754_finite s m' e' =>
      s = false ∧ e' ≤ 0
      ∧ z * 2 ^ (- e') ≤ Z.pos m' ≤ (z + 1) * 2 ^ (- e')
  | _ => False
  end.
Proof.
  intros He1 Hm1 Hz Hz53 He Hm.
  assert (Hpow : ∀ a, 0 ≤ a → 0 < 2 ^ a) by (intros; apply Z.pow_pos_nonneg; lia).
  unfold js_add, SFadd. cbv zeta. simpl cond_Zopp.
  set (ez := Z.min e1 e).
  pose proof (shl_align_spec m1 e1 ez) as [Ha1 Ha2].
  pose proof (shl_align_spec m e ez) as [Hb1 Hb2].
  assert (Hs1 : snd (shl_align m1 e1 ez) = ez).
  { unfold shl_align. destruct (ez - e1) eqn:E; simpl; unfold ez in *; lia. }
  assert (Hs2 : snd (shl_align m e ez) = ez).
  { unfold shl_align. destruct (ez - e) eqn:E; simpl; unfold ez in *; lia. }
  rewrite Hs1 in Ha2. rewrite Hs2 in Hb2.
  set (a := fst (shl_align m1 e1 ez)) in *.
  set (b := fst (shl_align m e ez)) in *.
  change (Z.pos a + Z.pos b) with (Z.pos (a + b)).
  unfold binary_normalize, binary_round.
  pose proof (shl_align_spec (a + b) ez
                (fexp 53 1024 (Z.pos (digits2_pos (a + b)) + ez))) as [Hc1 Hc2].
  destruct (shl_align (a + b) ez
              (fexp 53 1024 (Z.pos (digits2_pos (a + b)) + ez))) as [mz ez'].
  simpl in Hc1, Hc2.
  assert (Hez : ez ≤ 0) by (unfold ez; lia).
  assert (Hez1 : ez ≤ e1 ∧ ez ≤ e) by (unfold ez; lia).
  pose proof (Hpow (- ez') ltac:(lia)) as Hp.
  assert (Hmz : Z.pos mz = z * 2 ^ (- ez') + Z.pos m * 2 ^ (e - ez')).
  { rewrite Hc2, Pos2Z.inj_add, Ha2, Hb2, Hm1, Z.mul_add_distr_r.
    rewrite <- !Z.mul_assoc, <- !Z.pow_add_r by lia.
    f_equal; f_equal; f_equal; lia. }
  assert (Hfrac : Z.pos m * 2 ^ (e - ez') ≤ 2 ^ (- ez')).
  { replace (- ez') with (- e + (e - ez')) by lia.
    rewrite Z.pow_add_r by lia.
    pose proof (Hpow (e - ez') ltac:(lia)). nia. }
  assert (Hfrac0 : 0 ≤ Z.pos m * 2 ^ (e - ez')).
  { pose proof (Hpow (e - ez') ltac:(lia)). nia. }
  assert (Hd : Zdigits2 (z + 1) ≤ 53) by (apply Zdigits2_le; lia).
  assert (Hup : Z.pos mz < (z + 1) * 2 ^ (- ez')
                ∨ (Z.pos mz = (z + 1) * 2 ^ (- ez') ∧ loc_Exact = loc_Exact)).
  { destruct (Z_lt_le_dec (Z.pos mz) ((z + 1) * 2 ^ (- ez')));
      [left; assumption | right; split; [nia | reflexivity]]. }
  pose proof (binary_round_aux_bounds false (Z.pos mz) ez' loc_Exact z (z + 1)
                ltac:(lia) Hd ltac:(lia) ltac:(lia) ltac:(nia) Hup) as H.
  destruct (binary_round_aux 53 1024 false (Z.pos mz) ez' loc_Exact)
    as [s0|s0| |s0 m' e']; try contradiction.
  - destruct H as [_ H]. lia.
  - exact H.
Qed.

(** ** [Math.round] *)

Lemma Math_round_bounds m e lo hi :
  e ≤ 0 → 0 ≤ lo → lo * 2 ^ (- e) ≤ Z.pos m ≤ hi * 2 ^ (- e) →
  lo ≤ Math_round (S754_finite false m e) ≤ hi.
Proof.
  intros He Hlo Hm. unfold Math_round. cbv zeta.
  assert (Hp : 0 < 2 ^ (- e)) by (apply Z.pow_pos_nonneg; lia).
  destruct (Z.leb_spec 0 e) as [H0|H0].
  - assert (e = 0) as -> by lia. simpl in *. lia.
  - replace (1 - e) with (1 + - e) by lia. rewrite Z.pow_add_r by lia.
    change (2 ^ 1) with 2. split.
    + apply Z.div_le_lower_bound; nia.
    + assert ((2 * Z.pos m + 2 ^ (- e)) / (2 * 2 ^ (- e)) < hi + 1)
        by (apply Z.div_lt_upper_bound; nia).
      lia.
Qed.
End Binary64.

(** The progress formula of the second variant, for arrays of fewer than
    2^53 elements (a JavaScript array has fewer than 2^32): the value is a
    percentage, and it is 100 at the last step. *)
Lemma progress_second_range (i total : Z) :
  1 ≤ i ≤ total → total < 2 ^ 53 →
  0 ≤ Math_round
        (js_mul (js_div (number_of_Z i) (number_of_Z total)) (number_of_Z 100))
    ≤ 100
  ∧ (i = total →
     Math_round
       (js_mul (js_div (number_of_Z i) (number_of_Z total)) (number_of_Z 100))
     = 100).
Proof.
  intros Hi Ht.
  destruct (Binary64.number_of_Z_exact i) as (m1 & e1 & -> & He1 & Hm1); [lia |].
  destruct (Binary64.number_of_Z_exact total) as (m2 & e2 & -> & He2 & Hm2);
    [lia |].
  split.
  - pose proof (Binary64.js_div_bounds m1 e1 m2 e2 i total 0 He1 He2 Hm1 Hm2
                  ltac:(lia) ltac:(left; reflexivity)) as Hd.
    destruct (js_div _ _) as [s|s| |s m e]; try contradiction.
    + rewrite Binary64.hundred. simpl. lia.
    + destruct Hd as (-> & He & Hm).
      pose proof (Binary64.js_mul_100_bounds m e 0 1 He ltac:(lia) ltac:(lia)
                    ltac:(lia)) as Hx.
      destruct (js_mul _ _) as [s|s| |s m' e']; try contradiction;
        [simpl; lia |].
      destruct Hx as (-> & He' & Hm').
      apply (Binary64.Math_round_bounds m' e' 0 100); lia.
  - intros E.
    pose proof (Binary64.js_div_bounds m1 e1 m2 e2 i total 1 He1 He2 Hm1 Hm2
                  ltac:(lia) ltac:(right; split; [reflexivity | exact E])) as Hd.
    destruct (js_div _ _) as [s|s| |s m e]; try contradiction;
      [destruct Hd as [_ Hd]; discriminate Hd |].
    destruct Hd as (-> & He & Hm).
    pose proof (Binary64.js_mul_100_bounds m e 1 1 He ltac:(lia) ltac:(lia)
                  ltac:(lia)) as Hx.
    destruct (js_mul _ _) as [s|s| |s m' e']; try contradiction;
      [discriminate Hx |].
    destruct Hx as (-> & He' & Hm').
    pose proof (Binary64.Math_round_bounds m' e' 100 100 He' ltac:(lia)
                  ltac:(lia)).
    lia.
Qed.

(** The formula of the first variant, [(i + 1 / totalSteps) * 100], gives
    at least [100 * i]: a value above 100 at every step but the first. *)
Lemma progress_first_exceeds (i total : Z) :
  1 ≤ i → i < 2 ^ 46 → 1 ≤ total → total < 2 ^ 53 →
  100 * i
  ≤ Math_round
      (js_mul (js_add (number_of_Z i) (js_div (number_of_Z 1) (number_of_Z total)))
         (number_of_Z 100))
  ≤ 100 * (i + 1).
Proof.
  intros Hi Hi46 Ht Ht53.
  assert (H4653 : 2 ^ 46 < 2 ^ 53) by reflexivity.
  destruct (Binary64.number_of_Z_exact i) as (m1 & e1 & -> & He1 & Hm1); [lia |].
  destruct (Binary64.number_of_Z_exact 1) as (m0 & e0 & -> & He0 & Hm0);
    [split; [lia | reflexivity] |].
  destruct (Binary64.number_of_Z_exact total) as (m2 & e2 & -> & He2 & Hm2);
    [lia |].
  pose proof (Binary64.js_div_bounds m0 e0 m2 e2 1 total 0 He0 He2 Hm0 Hm2
                ltac:(lia) ltac:(left; reflexivity)) as Hd.
  assert (Hsum :
    match js_add (SpecFloat.S754_finite false m1 e1)
            (js_div (SpecFloat.S754_finite false m0 e0)
               (SpecFloat.S754_finite false m2 e2)) with
    | SpecFloat.S754_finite s m' e' =>
        s = false ∧ e' ≤ 0
        ∧ i * 2 ^ (- e') ≤ Z.pos m' ≤ (i + 1) * 2 ^ (- e')
    | _ => False
    end).
  { destruct (js_div _ _) as [s|s| |s m e]; try contradiction.
    - simpl. split; [reflexivity |]. split; [exact He1 |].
      assert (0 < 2 ^ (- e1)) by (apply Z.pow_pos_nonneg; lia). nia.
    - destruct Hd as (-> & He & Hm).
      apply Binary64.js_add_bounds; lia. }
  destruct (js_add _ _) as [s|s| |s m' e']; try contradiction.
  destruct Hsum as (-> & He' & Hm').
  pose proof (Binary64.js_mul_100_bounds m' e' i (i + 1) He' ltac:(lia)
                ltac:(lia) Hm') as Hx.
  destruct (js_mul _ _) as [s|s| |s m'' e'']; try contradiction; [lia |].
  destruct Hx as (-> & He'' & Hm'').
  apply (Binary64.Math_round_bounds m'' e'' (100 * i) (100 * (i + 1))); lia.
Qed.

(** Every progress value the second variant stores is a percentage, for
    organisation units arrays of fewer than 2^53 elements. *)
Lemma stable_units_loop2_ranged P net s inds total units i :
  frame (λ st, ∀ p, written_progress st = Some p → 0 ≤ p ≤ 100) P →
  1 ≤ i → i + Z.of_nat (length units) = total + 1 → total < 2 ^ 53 →
  stable P (units_loop2 net s inds total units i).
Proof.
  intros F. revert i. induction units as [|u rest IH]; intros i Hi Hlen Ht.
  - apply stable_ret.
  - cbn [units_loop2]. cbv zeta. apply stable_bind; [| intros _].
    { apply stable_try_catch; [apply stable_remote_step |].
      intros _. apply stable_for_of. intros ind.
      apply stable_try_catch; [apply stable_remote_step |].
      intros; apply stable_ret. }
    apply stable_bind; [| intros _; apply IH; simpl in Hlen; lia].
    apply stable_try_catch; [| intros; apply stable_ret].
    eapply stable_db_run; [exact F |].
    intros p Hp. injection Hp as <-.
    apply progress_second_range; simpl in Hlen; lia.
Qed.

Lemma queryDHIS2'_progress_range net s w :
  (∀ units, fst (fetch_units net s w) = Ret units →
     Z.of_nat (length units) < 2 ^ 53) →
  ∃ js, journal (snd (queryDHIS2' net s w)) = journal w ++ js
        ∧ ∀ st p, st ∈ js → written_progress st = Some p → 0 ≤ p ≤ 100.
Proof.
  intros Hshort.
  set (ok := λ st : Sql, ∀ p, written_progress st = Some p → 0 ≤ p ≤ 100).
  set (P := λ w' : World, ∃ js, journal w' = journal w ++ js ∧ Forall ok js).
  assert (F : frame ok P) by apply frame_journal.
  cut (stable P (queryDHIS2' net s)).
  { intros Hst.
    destruct (Hst w) as (js & Hj & Hok);
      [exists []; split; [symmetry; apply app_nil_r | constructor] |].
    exists js. split; [exact Hj |].
    intros st p Hin. rewrite Forall_forall in Hok. apply (Hok st Hin). }
  unfold queryDHIS2'.
  destruct (decide (status s ≠ running)); [| apply stable_ret].
  apply stable_bind; [eapply stable_randomUUID, F | intros jobId].
  apply stable_bind; [eapply stable_new_Date, F | intros startTime].
  apply stable_bind.
  { apply stable_try_catch; [| intros; apply stable_ret].
    apply stable_bind; [eapply stable_db_run; [exact F | intros p Hp; discriminate Hp] |].
    intros _. apply stable_bind;
      [eapply stable_db_run; [exact F | intros p Hp; injection Hp as <-; lia] |].
    intros _. eapply stable_db_run; [exact F | intros p Hp; discriminate Hp]. }
  intros _ w0 H0. unfold bind at 1.
  rewrite (fetch_payload_world net s w w0).
  destruct (fst (fetch_payload net s w)) as [payload|e] eqn:Hp; [| exact H0].
  revert w0 H0.
  apply stable_bind; [apply stable_axios_get | intros inds].
  destruct payload as [units|]; [| intros w0 H0; exact H0].
  assert (Hlen : Z.of_nat (length units) < 2 ^ 53).
  { apply Hshort. rewrite fetch_units_payload, Hp. reflexivity. }
  intros w0 H0. unfold bind at 1. simpl organisationUnits_of. unfold ret at 1.
  cbv beta iota zeta. revert w0 H0.
  apply stable_bind;
    [apply stable_units_loop2_ranged; [exact F | lia | lia | exact Hlen] |].
  intros _. apply stable_bind; [eapply stable_new_Date, F | intros endTime].
  apply stable_try_catch; [| intros; apply stable_ret].
  apply stable_bind; [eapply stable_db_run; [exact F | intros p Hp'; discriminate Hp'] |].
  intros _. eapply stable_db_run; [exact F |].
  intros p Hp'. injection Hp' as <-. lia.
Qed.

Lemma steps_from_app i l1 l2 :
  steps_from i (l1 ++ l2)
  = steps_from i l1 ++ steps_from (i + Z.of_nat (length l1)) l2.
Proof.
  revert i. induction l1 as [|u l1 IH]; intros i; simpl.
  - rewrite Z.add_0_r. reflexivity.
  - rewrite IH. do 3 f_equal. lia.
Qed.

Lemma steps_from_elem i l k u :
  (k, u) ∈ steps_from i l → i ≤ k < i + Z.of_nat (length l).
Proof.
  revert i. induction l as [|u0 l IH]; intros i H; simpl in *.
  - apply elem_of_nil in H. contradiction.
  - apply elem_of_cons in H as [H|H].
    + injection H as -> _. lia.
    + apply IH in H. lia.
Qed.

(** X29. The second variant ends its loop at 100: in a run that passes
    the guard, has no write fail and receives its organisation units
    (fewer than 2^53 of them, as in every JavaScript array) and its
    indicator group, the last progress UPDATE, that of the last unit,
    stores exactly 100, and every progress value stored before it is
    between 0 and 100; the binary64 rounding of [(i / totalSteps) * 100]
    never leaves that range. *)
Theorem second_variant_reaches_100 net s units u w :
  status s ≠ running → no_faults w →
  fst (fetch_units net s w) = Ret units → indicatorGroup net ≠ None →
  last units = Some u → Z.of_nat (length units) < 2 ^ 53 →
  let n := Z.of_nat (length units) in
  ∃ js finish,
    journal (snd (queryDHIS2' net s w))
    = journal w ++ js
      ++ [SqlProgress 100 (step_message n n (ou_name u)) (ou_id u);
          SqlSealExecution finish completed (entropy w (drawn w));
          SqlTaskCompleted finish (id s)]
    ∧ ∀ st p, st ∈ js → written_progress st = Some p → 0 ≤ p ≤ 100.
Proof.
  intros Hst Hw Hunits Hinds Hlast Hlen. cbv zeta.
  assert (Hj : journal (snd (queryDHIS2' net s w))
               = journal w ++ run_statements Second net s units w).
  { unfold run_statements. cbv zeta. unfold queryDHIS2'.
    destruct (decide (status s ≠ running)); [| contradiction].
    unfold bind at 1; unfold randomUUID at 1; cbv beta iota.
    unfold bind at 1; unfold new_Date at 1; cbv beta iota.
    match goal with
    | |- context [bind (try_catch (bind (db_run (SqlInsertExecution ?j _ ?start _)) _) _)
                    _ ?w2] =>
        destruct (first_writes_trace s j start w2) as (d3 & p3 & H3 & Hp3);
          [exact Hw |]
    end.
    unfold bind at 1; rewrite H3; unfold bind at 1.
    match goal with
    | |- context [fetch_payload net s ?w3] =>
        rewrite (fetch_payload_world net s w w3),
          (fetch_payload_units net s w units Hunits)
    end.
    destruct (indicatorGroup net) as [inds|] eqn:Hi; [| contradiction].
    unfold bind at 1. simpl axios_get. unfold ret at 1. cbv beta iota.
    unfold bind at 1. simpl organisationUnits_of. unfold ret at 1.
    cbv beta iota zeta.
    match goal with
    | |- context [bind (units_loop2 net s inds ?n units 1) _ ?w3] =>
        destruct (units_loop2_trace net s inds n units 1 w3 Hp3)
          as (d4 & p4 & H4 & Hp4)
    end.
    unfold bind at 1. rewrite H4.
    unfold bind at 1; unfold new_Date at 1; cbv beta iota.
    match goal with
    | |- context [try_catch (bind (db_run (SqlSealExecution ?fin _ ?j)) _) _ ?w5] =>
        destruct (final_writes_trace s j fin w5) as (d6 & p6 & H6 & Hp6);
          [exact Hp4 |]
    end.
    rewrite H6. destruct w; simpl. rewrite <- !app_assoc. reflexivity. }
  apply last_Some in Hlast as (front & ->).
  rewrite Hj. unfold run_statements. cbv zeta.
  rewrite steps_from_app, map_app. cbn [steps_from map].
  set (n := Z.of_nat (length (front ++ [u]))) in *.
  assert (Hn : 1 + Z.of_nat (length front) = n)
    by (unfold n; rewrite length_app; simpl; lia).
  rewrite Hn.
  exists ([SqlInsertExecution (entropy w (drawn w)) (id s)
             (wallclock w (readings w)) running;
           SqlTaskStarted (entropy w (drawn w)) (id s);
           SqlMessage "Fetching organisation units" (id s)]
          ++ map (progress_stmt Second n) (steps_from 1 front)),
    (wallclock w (S (readings w))).
  split.
  - rewrite <- !app_assoc. unfold progress_stmt at 2. cbn [fst snd].
    rewrite (proj2 (progress_second_range n n ltac:(lia) Hlen) eq_refl).
    reflexivity.
  - intros st p Hin Hp. apply elem_of_app in Hin as [Hin|Hin].
    + repeat (apply elem_of_cons in Hin as [->|Hin]);
        try (apply elem_of_nil in Hin; contradiction);
        simpl in Hp; try discriminate Hp.
      injection Hp as <-. lia.
    + apply list_elem_of_fmap in Hin as ([k u0] & -> & Hk).
      apply steps_from_elem in Hk. simpl in Hp. injection Hp as <-.
      apply (progress_second_range k n); lia.
Qed.

(** * Runs of the model, continued *)

(** The first fire of the timer of s1 while DHIS2 is unreachable. *)
Lemma fire_swallows_failure_witness :
  tasks Demo.started !! 0%nat
  = Some (mkTask (Demo.daily idle false None) true)
  ∧ fst (job_body First Demo.offline (Demo.daily idle false None) Demo.started)
    = Throw "AxiosError"
  ∧ fire (job_body First Demo.offline) 0 Demo.started
    = (Ret tt,
       snd (job_body First Demo.offline (Demo.daily idle false None) Demo.started))
  ∧ runningJobs (snd (fire (job_body First Demo.offline) 0 Demo.started))
    = runningJobs Demo.started
  ∧ no_faults Demo.started
  ∧ mkExecution "uuid-0" "s1" 5002 None running
    ∈ job_executions
        (db (snd (fire (job_body First Demo.offline) 0 Demo.started))).
Proof.
  assert (H1 : tasks Demo.started !! 0%nat
               = Some (mkTask (Demo.daily idle false None) true)) by run.
  assert (H2 : fst (job_body First Demo.offline (Demo.daily idle false None)
                      Demo.started) = Throw "AxiosError") by run.
  assert (Hw : no_faults Demo.started) by constructor.
  destruct (fire_swallows_failure First Demo.offline 0%nat _ _ Demo.started
              H1 eq_refl H2) as (Hfire & Hreg & _ & _ & _ & Hrun & _).
  conjs; try assumption.
  exact (proj2 (Hrun Hw)).
Defined.

(** The routes addressed to an id that is not in the table. *)
Lemma unknown_id_not_found_witness :
  select_by_id "s9" (db Demo.fresh) = None
  ∧ post_stop Demo.lib "s9" Demo.fresh
    = (Ret (json_error "Schedule not found" 404), Demo.fresh)
  ∧ delete_schedule "s9" Demo.fresh
    = (Ret (json_error "Schedule not found" 404), Demo.fresh).
Proof.
  assert (H : select_by_id "s9" (db Demo.fresh) = None) by run.
  destruct (unknown_id_not_found Demo.lib "s9" Demo.fresh
              (Cases.patch "whenever") 7%nat H)
    as (_ & _ & _ & _ & Hstop & Hdel & _).
  conjs; assumption.
Defined.

(** A stop request for s1 before it was started. *)
Lemma stop_inactive_rejected_witness :
  select_by_id "s1" (db Demo.fresh) = Some (Demo.daily idle false None)
  ∧ isActive (Demo.daily idle false None) = false
  ∧ post_stop Demo.lib "s1" Demo.fresh
    = (Ret (json_error "Schedule is not running" 400), Demo.fresh).
Proof.
  assert (H : select_by_id "s1" (db Demo.fresh)
              = Some (Demo.daily idle false None)) by run.
  conjs; [exact H | reflexivity |].
  exact (stop_inactive_rejected Demo.lib "s1" _ Demo.fresh H eq_refl).
Defined.

(** A stop request for s1 after it was started. *)
Lemma stop_active_disarms_witness :
  select_by_id "s1" (db Demo.started) = Some Cases.armed
  ∧ runningJobs Demo.started !! "s1" = Some 0%nat
  ∧ ∃ view w',
      post_stop Demo.lib "s1" Demo.started
      = (Ret (json_schedule "Schedule stopped successfully" view 200), w')
      ∧ runningJobs w' !! "s1" = None
      ∧ isActive view = false.
Proof.
  assert (H : select_by_id "s1" (db Demo.started) = Some Cases.armed) by run.
  assert (Hplan : head (faults Demo.started) ≠ Some true)
    by (vm_compute; discriminate).
  destruct (stop_active_disarms Demo.lib "s1" Cases.armed Demo.started
              H eq_refl Hplan)
    as (view & row' & w' & Hpost & Hreg & _ & _ & _ & _ & _ & _ & _ & _ & Hv & _).
  split; [exact H |]. split; [run |].
  exists view, w'. conjs; assumption.
Defined.

(** A stop request for s1 whose store write throws. *)
Lemma stop_write_failure_disarms_witness :
  select_by_id "s1" (db (Cases.failing Demo.started)) = Some Cases.armed
  ∧ faults (Cases.failing Demo.started) = [true]
  ∧ ∃ w',
      post_stop Demo.lib "s1" (Cases.failing Demo.started)
      = (Ret (json_error "Failed to stop schedule" 500), w')
      ∧ runningJobs w' !! "s1" = None
      ∧ fst (post_start Demo.lib "s1" w')
        = Ret (json_error "Schedule is already running" 400).
Proof.
  assert (H : select_by_id "s1" (db (Cases.failing Demo.started))
              = Some Cases.armed) by run.
  destruct (stop_write_failure_disarms Demo.lib "s1" Cases.armed []
              (Cases.failing Demo.started) H eq_refl eq_refl)
    as (w' & Hpost & Hreg & _ & _ & Hstart).
  split; [exact H |]. split; [reflexivity |].
  exists w'. conjs; assumption.
Defined.

(** Start, then stop, of s1. *)
Lemma start_stop_round_trip_witness :
  select_by_id "s1" (db Demo.fresh) = Some (Demo.daily idle false None)
  ∧ no_faults Demo.fresh
  ∧ runningJobs Demo.fresh !! "s1" = None
  ∧ ∃ w1 w2,
      snd (post_start Demo.lib "s1" Demo.fresh) = w1
      ∧ snd (post_stop Demo.lib "s1" w1) = w2
      ∧ runningJobs w2 = runningJobs Demo.fresh
      ∧ tasks w2
        = [mkTask (view_of None (Demo.daily idle false None)) false].
Proof.
  assert (H : select_by_id "s1" (db Demo.fresh)
              = Some (Demo.daily idle false None)) by run.
  assert (Hv : cron_validate Demo.lib
                 (cronExpression (Demo.daily idle false None)) = true) by run.
  assert (Hw : no_faults Demo.fresh) by constructor.
  assert (Hreg : runningJobs Demo.fresh !! "s1" = None) by run.
  destruct (start_stop_round_trip Demo.lib "s1" _ Demo.fresh H eq_refl Hv Hw Hreg)
    as (r1 & w1 & r2 & w2 & t1 & t2 & Hstart & _ & Hstop & _ & Hback & Htasks & _).
  conjs; try assumption.
  exists w1, w2. rewrite Hstart, Hstop. conjs; try reflexivity; assumption.
Defined.

(** Deleting s1 while it is started. *)
Lemma delete_removes_schedule_witness :
  select_by_id "s1" (db Demo.started) = Some Cases.armed
  ∧ ∃ w',
      delete_schedule "s1" Demo.started
      = (Ret (json_message "Schedule deleted successfully"), w')
      ∧ select_by_id "s1" (db w') = None
      ∧ runningJobs w' = delete "s1" (runningJobs Demo.started).
Proof.
  assert (H : select_by_id "s1" (db Demo.started) = Some Cases.armed) by run.
  assert (Hplan : head (faults Demo.started) ≠ Some true)
    by (vm_compute; discriminate).
  destruct (delete_removes_schedule Demo.lib "s1" Cases.armed Demo.started
              H Hplan)
    as (w' & Hdel & Hgone & _ & _ & Hreg & _).
  split; [exact H |]. exists w'. conjs; try assumption.
  apply Hreg. reflexivity.
Defined.

(** A fire of the timer of s1 after s1 was deleted. *)
Lemma delete_active_silences_timer_witness :
  select_by_id "s1" (db Demo.started) = Some Cases.armed
  ∧ runningJobs Demo.started !! "s1" = Some 0%nat
  ∧ tasks Demo.started !! 0%nat
    = Some (mkTask (Demo.daily idle false None) true)
  ∧ fire (queryDHIS2 Demo.online) 0 (snd (delete_schedule "s1" Demo.started))
    = (Ret tt, snd (delete_schedule "s1" Demo.started)).
Proof.
  assert (H : select_by_id "s1" (db Demo.started) = Some Cases.armed) by run.
  assert (Hreg : runningJobs Demo.started !! "s1" = Some 0%nat) by run.
  assert (Ht : tasks Demo.started !! 0%nat
               = Some (mkTask (Demo.daily idle false None) true)) by run.
  conjs; try assumption.
  exact (delete_active_silences_timer "s1" Cases.armed 0%nat _
           (queryDHIS2 Demo.online) Demo.started H eq_refl Hreg Ht).
Defined.

(** An edit of s1 to an expression that does not validate. *)
Lemma edit_stores_unchecked_witness :
  select_by_id "s1" (db Demo.fresh) = Some (Demo.daily idle false None)
  ∧ cron_validate Demo.lib "whenever" = false
  ∧ ∃ r w' now,
      put_schedule Demo.lib "s1" (Some (Cases.patch "whenever")) Demo.fresh
      = (Ret r, w')
      ∧ http_status r = 200%nat
      ∧ select_by_id "s1" (db w')
        = Some (mkSchedule "s1" "nightly" "whenever" false "sync" 1000 now
                  None 0 idle None None None 3 60 0 false "LAST_MONTH"
                  "akV6429SUqu" 7 None).
Proof.
  assert (H : select_by_id "s1" (db Demo.fresh)
              = Some (Demo.daily idle false None)) by run.
  assert (Hplan : head (faults Demo.fresh) ≠ Some true)
    by (vm_compute; discriminate).
  destruct (edit_stores_unchecked Demo.lib "s1" _ (Cases.patch "whenever")
              Demo.fresh H Hplan)
    as [(now & next & w' & Hput & Hsel & _) _].
  split; [exact H |]. split; [run |].
  eexists _, w', now. conjs; [exact Hput | reflexivity | exact Hsel].
Defined.

(** The same edit, followed by a start request. *)
Lemma edit_invalid_then_start_fails_witness :
  select_by_id "s1" (db Demo.fresh) = Some (Demo.daily idle false None)
  ∧ cron_validate Demo.lib "whenever" = false
  ∧ ∃ w1 w2,
      snd (put_schedule Demo.lib "s1" (Some (Cases.patch "whenever"))
             Demo.fresh) = w1
      ∧ post_start Demo.lib "s1" w1
        = (Ret (json_error "Failed to start schedule" 500), w2)
      ∧ tasks w2 = [].
Proof.
  assert (H : select_by_id "s1" (db Demo.fresh)
              = Some (Demo.daily idle false None)) by run.
  assert (Hbad : cron_validate Demo.lib "whenever" = false) by run.
  assert (Hplan : head (faults Demo.fresh) ≠ Some true)
    by (vm_compute; discriminate).
  destruct (edit_invalid_then_start_fails Demo.lib "s1" _
              (Cases.patch "whenever") "whenever" Demo.fresh
              H eq_refl eq_refl Hbad Hplan)
    as (r1 & w1 & w2 & Hput & _ & Hstart & _ & Htasks & _).
  conjs; try assumption.
  exists w1, w2. rewrite Hput. conjs; [reflexivity | exact Hstart | exact Htasks].
Defined.

Lemma creatable_demo : creatable Demo.lib (Demo.creation None None) Demo.fresh.
Proof.
  unfold creatable. conjs; try run; try (simpl; lia).
  - vm_compute. discriminate.
Qed.

(** A creation with the retry values left out, then a read of the id that
    was answered. *)
Lemma create_get_round_trip_witness :
  creatable Demo.lib (Demo.creation None None) Demo.fresh
  ∧ ∃ s w',
      post_schedules Demo.lib (Some (Demo.creation None None)) Demo.fresh
      = (Ret (json_schedule "Schedule created successfully" s 201), w')
      ∧ get_schedule Demo.lib (id s) w' = (Ret (json_view s), w')
      ∧ maxRetries s = 3 ∧ retryDelay s = 60.
Proof.
  destruct (create_get_round_trip Demo.lib _ _ creatable_demo)
    as (s & w' & Hpost & Hget & _ & _ & _ & _ & Hm & Hd).
  split; [exact creatable_demo |].
  exists s, w'. conjs; assumption.
Defined.

(** The same creation, then a start request for the id that was answered. *)
Lemma create_then_start_witness :
  creatable Demo.lib (Demo.creation None None) Demo.fresh
  ∧ no_faults Demo.fresh
  ∧ ∃ s w1 view w2,
      post_schedules Demo.lib (Some (Demo.creation None None)) Demo.fresh
      = (Ret (json_schedule "Schedule created successfully" s 201), w1)
      ∧ post_start Demo.lib (id s) w1
        = (Ret (json_schedule "Schedule started successfully" view 200), w2)
      ∧ isActive view = true
      ∧ runningJobs w2 !! id s = Some 0%nat.
Proof.
  assert (Hw : no_faults Demo.fresh) by constructor.
  destruct (create_then_start Demo.lib _ _ creatable_demo Hw)
    as (s & w1 & view & w2 & Hpost & Hstart & Ha & _ & _ & _ & Hreg & _).
  split; [exact creatable_demo |]. split; [exact Hw |].
  exists s, w1, view, w2. conjs; assumption.
Defined.

Lemma no_subscribers_demo : no_empty_sets (progressSubscribers Demo.fresh).
Proof. intros i. change (progressSubscribers Demo.fresh) with (∅ : gmap string (list nat)).
  rewrite lookup_empty. discriminate.
Qed.

Lemma not_subscribed_demo :
  7%nat ∉ default [] (progressSubscribers Demo.fresh !! "s1").
Proof.
  change (progressSubscribers Demo.fresh) with (∅ : gmap string (list nat)).
  rewrite lookup_empty. apply not_elem_of_nil.
Qed.

(** Connection 7 subscribes to the progress of s1. *)
Lemma subscribe_initial_event_witness :
  select_by_id "s1" (db Demo.fresh) = Some (Demo.daily idle false None)
  ∧ ∃ w',
      get_progress 7 "s1" Demo.fresh = (Ret (mkResponse 200 None None None), w')
      ∧ delivered w' = [(7%nat, mkProgressUpdate "s1" 0 idle None 5000)]
      ∧ db w' = db Demo.fresh.
Proof.
  assert (H : select_by_id "s1" (db Demo.fresh)
              = Some (Demo.daily idle false None)) by run.
  destruct (subscribe_initial_event 7 "s1" _ Demo.fresh H)
    as (w' & subs & Hrun & Hout & _ & _ & _ & _ & _ & Hdb).
  split; [exact H |]. exists w'. conjs; assumption.
Defined.

(** An event for s1, published after connection 7 subscribed to s1. *)
Lemma subscriber_gets_own_schedule_only_witness :
  select_by_id "s1" (db Demo.fresh) = Some (Demo.daily idle false None)
  ∧ (7%nat, interruption "s1" 6000)
    ∈ delivered
        (snd (broadcastProgress (interruption "s1" 6000)
                (snd (get_progress 7 "s1" Demo.fresh)))).
Proof.
  assert (H : select_by_id "s1" (db Demo.fresh)
              = Some (Demo.daily idle false None)) by run.
  split; [exact H |].
  exact (proj1 (subscriber_gets_own_schedule_only 7 "s1" _
                  (interruption "s1" 6000) Demo.fresh H) eq_refl).
Defined.

(** Connection 7 subscribes to s1 and aborts. *)
Lemma subscribe_abort_round_trip_witness :
  select_by_id "s1" (db Demo.fresh) = Some (Demo.daily idle false None)
  ∧ no_empty_sets (progressSubscribers Demo.fresh)
  ∧ (7%nat ∉ default [] (progressSubscribers Demo.fresh !! "s1"))
  ∧ progressSubscribers
      (snd (on_abort 7 "s1" (snd (get_progress 7 "s1" Demo.fresh))))
    = progressSubscribers Demo.fresh.
Proof.
  assert (H : select_by_id "s1" (db Demo.fresh)
              = Some (Demo.daily idle false None)) by run.
  conjs; [exact H | exact no_subscribers_demo | exact not_subscribed_demo |].
  exact (subscribe_abort_round_trip 7 "s1" _ Demo.fresh H no_subscribers_demo
           not_subscribed_demo).
Defined.

(** No empty set after a subscription or an abort on the empty map. *)
Lemma subscriptions_never_empty_witness :
  no_empty_sets (progressSubscribers Demo.fresh)
  ∧ no_empty_sets (progressSubscribers (snd (get_progress 7 "s1" Demo.fresh)))
  ∧ no_empty_sets (progressSubscribers (snd (on_abort 7 "s1" Demo.fresh))).
Proof.
  split; [exact no_subscribers_demo |].
  exact (subscriptions_never_empty 7 "s1" Demo.fresh no_subscribers_demo).
Defined.

Lemma armable_crashed : armable Demo.lib (select_active (db Demo.crashed)).
Proof. unfold armable. vm_compute. repeat constructor. Qed.

(** Startup on the store found after a crash. *)
Lemma restore_arms_active_witness :
  armable Demo.lib (select_active (db Demo.crashed))
  ∧ NoDup (map id (select_active (db Demo.crashed)))
  ∧ ∃ w',
      restoreActiveSchedules Demo.lib Demo.crashed = (Ret tt, w')
      ∧ db w' = db Demo.crashed
      ∧ runningJobs w' !! "s1" = Some 0%nat.
Proof.
  assert (Hnd : NoDup (map id (select_active (db Demo.crashed))))
    by (vm_compute; apply NoDup_singleton).
  destruct (restore_arms_active Demo.lib Demo.crashed armable_crashed Hnd)
    as (w' & Hrun & Hdb & _ & Hreg & _).
  split; [exact armable_crashed |]. split; [exact Hnd |].
  exists w'. conjs; [exact Hrun | exact Hdb |].
  apply (Hreg 0%nat (Demo.daily running true (Some "uuid-0"))). reflexivity.
Defined.

(** Startup on a table whose second active row has an expression that
    does not validate. *)
Lemma restore_stops_at_invalid_witness :
  select_active (db Cases.mixed)
  = [Demo.daily idle true None] ++ Cases.broken :: [Cases.hourly]
  ∧ cron_validate Demo.lib (cronExpression Cases.broken) = false
  ∧ ∃ w',
      restoreActiveSchedules Demo.lib Cases.mixed
      = (Throw "invalid cron expression", w')
      ∧ length (tasks w') = 1%nat
      ∧ runningJobs w' !! "s3" = None.
Proof.
  assert (Hrows : select_active (db Cases.mixed)
                  = [Demo.daily idle true None] ++ Cases.broken :: [Cases.hourly])
    by reflexivity.
  assert (Hok : armable Demo.lib [Demo.daily idle true None])
    by (unfold armable; vm_compute; repeat constructor).
  assert (Hbad : cron_validate Demo.lib (cronExpression Cases.broken) = false)
    by run.
  destruct (restore_stops_at_invalid Demo.lib _ _ _ Cases.mixed Hrows Hok Hbad)
    as (w' & Hrun & Hlen & Hrest).
  split; [exact Hrows |]. split; [exact Hbad |].
  exists w'. conjs; [exact Hrun | exact Hlen |].
  rewrite (Hrest "s3"); [reflexivity |].
  intros Hin. apply list_elem_of_singleton in Hin. discriminate Hin.
Defined.

(** The timer that startup arms for s1 found 'running'. *)
Lemma restored_running_never_runs_witness :
  armable Demo.lib (select_active (db Demo.crashed))
  ∧ select_active (db Demo.crashed) !! 0%nat
    = Some (Demo.daily running true (Some "uuid-0"))
  ∧ ∃ t,
      tasks (snd (restoreActiveSchedules Demo.lib Demo.crashed)) !! 0%nat = Some t
      ∧ fire (job_body First Demo.online) 0
          (snd (restoreActiveSchedules Demo.lib Demo.crashed))
        = (Ret tt, snd (restoreActiveSchedules Demo.lib Demo.crashed)).
Proof.
  assert (Hk : select_active (db Demo.crashed) !! 0%nat
               = Some (Demo.daily running true (Some "uuid-0"))) by reflexivity.
  destruct (restored_running_never_runs Demo.lib 0%nat _ Demo.crashed
              armable_crashed Hk eq_refl)
    as (t & Ht & _ & _ & Hfire).
  split; [exact armable_crashed |]. split; [exact Hk |].
  exists t. split; [exact Ht |]. apply (Hfire First Demo.online). exact Ht.
Defined.

(** A run of the second variant over two units, every analytics request
    and the session request to ALMA being rejected. *)
Lemma run_completes_despite_failures_witness :
  status Cases.tree ≠ running
  ∧ no_faults Demo.fresh
  ∧ fst (fetch_units Cases.flaky Cases.tree Demo.fresh)
    = Ret [Demo.kampala; Cases.entebbe]
  ∧ analytics Cases.flaky = (λ _, None)
  ∧ ∃ w',
      job_body Second Cases.flaky Cases.tree Demo.fresh = (Ret tt, w')
      ∧ run_completed Cases.tree "uuid-0" w'.
Proof.
  assert (Hst : status Cases.tree ≠ running) by discriminate.
  assert (Hw : no_faults Demo.fresh) by constructor.
  assert (Hu : fst (fetch_units Cases.flaky Cases.tree Demo.fresh)
               = Ret [Demo.kampala; Cases.entebbe]) by reflexivity.
  assert (Hi : Second = Second → indicatorGroup Cases.flaky ≠ None)
    by (intros _; discriminate).
  conjs; [exact Hst | exact Hw | exact Hu | reflexivity |].
  exact (run_completes_despite_failures Second Cases.flaky Cases.tree _
           Demo.fresh Hst Hw Hu Hi).
Defined.

(** Recovery on the store found after a crash, twice. *)
Lemma recovery_idempotent_witness :
  no_faults Demo.crashed
  ∧ status <$> schedules (db Demo.crashed) = [running]
  ∧ cleanupRunningJobs (snd (cleanupRunningJobs Demo.crashed))
    = (Ret tt, snd (cleanupRunningJobs Demo.crashed)).
Proof.
  assert (Hw : no_faults Demo.crashed) by constructor.
  split; [exact Hw |]. split; [reflexivity |].
  exact (proj2 (recovery_idempotent Demo.crashed Hw)).
Defined.

(** Recovery on the same store, the write throwing. *)
Lemma recovery_stops_at_failed_write_witness :
  select_by_status running (db (Cases.failing Demo.crashed))
  = [Demo.daily running true (Some "uuid-0")]
  ∧ faults (Cases.failing Demo.crashed) = [true]
  ∧ ∃ w',
      cleanupRunningJobs (Cases.failing Demo.crashed) = (Throw "SQLiteError", w')
      ∧ db w' = db (Cases.failing Demo.crashed)
      ∧ delivered w' = delivered (Cases.failing Demo.crashed).
Proof.
  assert (H : select_by_status running (db (Cases.failing Demo.crashed))
              = [Demo.daily running true (Some "uuid-0")]) by reflexivity.
  split; [exact H |]. split; [reflexivity |].
  exact (recovery_stops_at_failed_write _ [] [] (Cases.failing Demo.crashed)
           H eq_refl).
Defined.

(** A run of the first variant over two units, DHIS2 rejecting the
    analytics request of the first. *)
Lemma run_issues_statements_witness :
  status Cases.tree ≠ running
  ∧ no_faults Demo.fresh
  ∧ fst (fetch_units Cases.partial Cases.tree Demo.fresh)
    = Ret [Demo.kampala; Cases.entebbe]
  ∧ reached Cases.partial Cases.tree <$> [Demo.kampala; Cases.entebbe]
    = [false; true]
  ∧ journal (snd (job_body First Cases.partial Cases.tree Demo.fresh))
    = [SqlInsertExecution "uuid-0" "s1" 5000 running;
       SqlTaskStarted "uuid-0" "s1";
       SqlMessage "Fetching organisation units" "s1";
       SqlProgress 250 "Completed step 2 of 2 (Entebbe)" "ou2";
       SqlSealExecution 5001 completed "uuid-0";
       SqlTaskCompleted 5001 "s1"].
Proof.
  assert (Hst : status Cases.tree ≠ running) by discriminate.
  assert (Hw : no_faults Demo.fresh) by constructor.
  assert (Hu : fst (fetch_units Cases.partial Cases.tree Demo.fresh)
               = Ret [Demo.kampala; Cases.entebbe]) by reflexivity.
  assert (Hi : First = Second → indicatorGroup Cases.partial ≠ None)
    by discriminate.
  conjs; [exact Hst | exact Hw | exact Hu | run |].
  rewrite (run_issues_statements First Cases.partial Cases.tree _ Demo.fresh
             Hst Hw Hu Hi).
  run.
Defined.

(** A run of the second variant over the single unit Kampala. *)
Lemma second_variant_reaches_100_witness :
  status Cases.tree ≠ running
  ∧ no_faults Demo.fresh
  ∧ fst (fetch_units Demo.online Cases.tree Demo.fresh) = Ret [Demo.kampala]
  ∧ ∃ js finish,
      journal (snd (queryDHIS2' Demo.online Cases.tree Demo.fresh))
      = journal Demo.fresh ++ js
        ++ [SqlProgress 100 (step_message 1 1 "Kampala") "ou1";
            SqlSealExecution finish completed "uuid-0";
            SqlTaskCompleted finish "s1"].
Proof.
  assert (Hst : status Cases.tree ≠ running) by discriminate.
  assert (Hw : no_faults Demo.fresh) by constructor.
  assert (Hu : fst (fetch_units Demo.online Cases.tree Demo.fresh)
               = Ret [Demo.kampala]) by reflexivity.
  assert (Hi : indicatorGroup Demo.online ≠ None) by discriminate.
  assert (Hlen : Z.of_nat (length [Demo.kampala]) < 2 ^ 53) by reflexivity.
  destruct (second_variant_reaches_100 Demo.online Cases.tree [Demo.kampala]
              Demo.kampala Demo.fresh Hst Hw Hu Hi eq_refl Hlen)
    as (js & finish & Hj & _).
  conjs; [exact Hst | exact Hw | exact Hu |].
  exists js, finish. exact Hj.
Defined.
